(** * Cast-vote-record ingestion: a shallow embedding of [scc_ingest.py]
      and [sf_ingest.py]

    The two ingestion scripts turn a vendor export into five tables
    (CvrRecord, Contest, Office, Candidate, Mark).  Python strings are
    modelled as lists of characters ([str]); a non-ASCII character is the
    sequence of its UTF-8 bytes, whose bytewise order is the code point
    order Python sorts by.  A pandas column is the list of its cells, a
    frame a record of columns, [NaN] is [None].  The numpy casts
    ([astype(np.int8)] and the like) wrap around and are written out with
    [wrap].  Exceptions are values of [exn]; functions that can raise
    return a [result]. *)

From Stdlib Require Import Ascii String ZArith Lia Bool Arith PeanoNat List.
From Stdlib Require Import Permutation Sorted.
Import ListNotations.

Set Implicit Arguments.

(** ** Python strings *)

Module Py.

Definition str := list ascii.

Definition py (s : string) : str := list_ascii_of_string s.

Definition str_eqb (a b : str) : bool :=
  if list_eq_dec ascii_dec a b then true else false.

(** [strip_prefix l s] is [Some rest] when [s = l ++ rest]. *)
Fixpoint strip_prefix (l s : str) : option str :=
  match l with
  | [] => Some s
  | a :: l' =>
      match s with
      | [] => None
      | b :: s' => if Ascii.eqb a b then strip_prefix l' s' else None
      end
  end.

Definition startswith (s l : str) : bool :=
  match strip_prefix l s with Some _ => true | None => false end.

(** [s.replace(old, new)] for a non-empty [old]: one pass from the left,
    occurrences do not overlap and the inserted text is not rescanned.
    [skip] counts the characters of the occurrence still to be passed. *)
Fixpoint replace_from (old new : str) (skip : nat) (s : str) : str :=
  match s with
  | [] => []
  | c :: t =>
      match skip with
      | S k => replace_from old new k t
      | O =>
          if startswith s old
          then new ++ replace_from old new (length old - 1) t
          else c :: replace_from old new 0 t
      end
  end.

Definition replace (old new s : str) : str := replace_from old new 0 s.

(** [s[2:-1]] *)
Definition slice_2_m1 (s : str) : str := removelast (skipn 2 s).

(** [s.split(sep)] for a one-character separator. *)
Fixpoint split_on (sep : ascii) (s : str) : list str :=
  match s with
  | [] => [[]]
  | c :: t =>
      if Ascii.eqb c sep then [] :: split_on sep t
      else match split_on sep t with
           | w :: ws => (c :: w) :: ws
           | [] => [[c]]
           end
  end.

(** [sep.join] of two strings, as [a + sep + b]. *)
Definition joined (sep a b : str) : str := a ++ sep ++ b.

(** The digits [0] to [9].  The decimal digits of other scripts, which
    [\d] and [int] take as well, are outside the strings modelled here. *)
Definition is_digit (c : ascii) : bool :=
  let n := nat_of_ascii c in (48 <=? n)%nat && (n <=? 57)%nat.

(** [int(s)] on a string of ASCII digits. *)
Definition int_of_digits (s : str) : Z :=
  fold_left (fun acc c => (10 * acc + (Z.of_nat (nat_of_ascii c) - 48))%Z) s 0%Z.

(** The blanks that [int] skips at both ends of a literal: the space and
    the characters from the tabulator to the carriage return. *)
Definition is_blank (c : ascii) : bool :=
  let n := nat_of_ascii c in
  ((9 <=? n)%nat && (n <=? 13)%nat) || (n =? 32)%nat.

Fixpoint lstrip (s : str) : str :=
  match s with
  | [] => []
  | c :: t => if is_blank c then lstrip t else s
  end.

Definition strip (s : str) : str := rev (lstrip (rev (lstrip s))).

(** The digits of a literal: one digit or more, with single underscores
    between digits.  [seen] tells that the character before is a digit;
    [acc] is the value of the digits read so far. *)
Fixpoint literal_digits (acc : Z) (seen : bool) (s : str) : option Z :=
  match s with
  | [] => if seen then Some acc else None
  | c :: t =>
      if is_digit c
      then literal_digits (10 * acc + (Z.of_nat (nat_of_ascii c) - 48))%Z true t
      else if Ascii.eqb c "_"
           then if seen then literal_digits acc false t else None
           else None
  end.

(** [int(s)]: blanks, an optional sign, the digits, blanks; anything else
    is a [ValueError] ([None]). *)
Definition parse_int (s : str) : option Z :=
  match strip s with
  | "-"%char :: d => option_map Z.opp (literal_digits 0 false d)
  | "+"%char :: d => literal_digits 0 false d
  | d => literal_digits 0 false d
  end.

(** Lexicographic order on strings by character code. *)
Fixpoint str_compare (a b : str) : comparison :=
  match a, b with
  | [], [] => Eq
  | [], _ :: _ => Lt
  | _ :: _, [] => Gt
  | x :: a', y :: b' =>
      match Nat.compare (nat_of_ascii x) (nat_of_ascii y) with
      | Eq => str_compare a' b'
      | c => c
      end
  end.

Definition str_ltb (a b : str) : bool :=
  match str_compare a b with Lt => true | _ => false end.

Definition str_leb (a b : str) : bool :=
  match str_compare a b with Gt => false | _ => true end.

End Py.
Import Py.

(** ** Integer casts *)

(** [wrap w z] is the value of [z] as a signed two's complement integer of
    [w] bits: what [astype(np.int8)], [astype(np.int16)] and
    [astype(np.int32)] leave of an integer column. *)
Definition wrap (w : Z) (z : Z) : Z :=
  let m := (2 ^ w)%Z in
  let r := (z mod m)%Z in
  if (r <? 2 ^ (w - 1))%Z then r else (r - m)%Z.

Definition int8 : Z -> Z := wrap 8.
Definition int16 : Z -> Z := wrap 16.
Definition int32 : Z -> Z := wrap 32.

Definition fits (w : Z) (z : Z) : Prop :=
  (- 2 ^ (w - 1) <= z < 2 ^ (w - 1))%Z.

(** ** Exceptions and results *)

Inductive exn : Type :=
| AssertionError (msg : string)
| AttributeError
| KeyError (label : string)
| TypeError
| ValueError (what : string)
| UnrecognizedContestFormat (description : str).

Inductive result (A : Type) : Type :=
| Ok (a : A)
| Raise (e : exn).
Arguments Ok {A} a.
Arguments Raise {A} e.

Definition rbind {A B} (r : result A) (f : A -> result B) : result B :=
  match r with
  | Ok a => f a
  | Raise e => Raise e
  end.

Declare Scope result_scope.
Delimit Scope result_scope with result.
Notation "x <- c ;; k" := (rbind c (fun x => k))
  (at level 61, c at next level, right associativity) : result_scope.
Notation "' p <- c ;; k" := (rbind c (fun x => match x with p => k end))
  (at level 61, p pattern, c at next level, right associativity) : result_scope.

Definition is_ok {A} (r : result A) : bool :=
  match r with Ok _ => true | Raise _ => false end.

(** [[f(x) for x in xs]] where [f] can raise: the first exception ends the
    comprehension. *)
Fixpoint map_result {A B} (f : A -> result B) (xs : list A) : result (list B) :=
  match xs with
  | [] => Ok []
  | x :: t =>
      match f x with
      | Raise e => Raise e
      | Ok y =>
          match map_result f t with
          | Raise e => Raise e
          | Ok ys => Ok (y :: ys)
          end
      end
  end.

(** ** Regular expressions

    The patterns of the scripts are sequences of literals, greedy
    repetitions of a character class, an optional character, a choice of
    literals, capture parentheses and the end anchor.  [rmatch] is the
    backtracking matcher of [re]: a repetition takes as many characters
    as it can and gives them back one at a time while the rest of the
    pattern fails. *)

Module Re.

Inductive item : Type :=
| Lit (l : str)
| Star (cls : ascii -> bool)
| Plus (cls : ascii -> bool)
| Opt (c : ascii)
| Alt (alts : list str)
| GOpen
| GClose
| Eol.

Definition pattern := list item.

(** [\d] *)
Definition digit : ascii -> bool := is_digit.
(** [.] (every character but the newline) *)
Definition dot (c : ascii) : bool := negb (Ascii.eqb c "010"%char).
(** [[^,]] *)
Definition not_comma (c : ascii) : bool := negb (Ascii.eqb c ","%char).

Fixpoint greedy {A} (cls : ascii -> bool) (k : str -> option A) (s : str)
  : option A :=
  match s with
  | [] => k []
  | c :: t =>
      if cls c
      then match greedy cls k t with
           | Some r => Some r
           | None => k s
           end
      else k s
  end.

Fixpoint first_alt {A} (k : str -> option A) (s : str) (alts : list str)
  : option A :=
  match alts with
  | [] => None
  | l :: r =>
      match strip_prefix l s with
      | Some s' =>
          match k s' with
          | Some x => Some x
          | None => first_alt k s r
          end
      | None => first_alt k s r
      end
  end.

Definition newline : ascii := "010"%char.

(** Where [$] matches: at the end of the string and just before a newline
    that ends the string. *)
Definition at_end (s : str) : bool :=
  match s with
  | [] => true
  | [c] => Ascii.eqb c newline
  | _ => false
  end.

(** [rmatch p s opened caps] matches [p] at the start of [s].  [opened]
    holds, for each group still open, the input at its opening
    parenthesis; [caps] the text of the closed groups, last first.  The
    answer is the groups in order and the input left after the match. *)
Fixpoint rmatch (p : pattern) (s : str) (opened caps : list str)
  : option (list str * str) :=
  match p with
  | [] => Some (rev caps, s)
  | Lit l :: p' =>
      match strip_prefix l s with
      | Some s' => rmatch p' s' opened caps
      | None => None
      end
  | Star cls :: p' => greedy cls (fun s' => rmatch p' s' opened caps) s
  | Plus cls :: p' =>
      match s with
      | c :: t =>
          if cls c then greedy cls (fun s' => rmatch p' s' opened caps) t
          else None
      | [] => None
      end
  | Opt c :: p' =>
      match s with
      | c' :: t =>
          if Ascii.eqb c c'
          then match rmatch p' t opened caps with
               | Some r => Some r
               | None => rmatch p' s opened caps
               end
          else rmatch p' s opened caps
      | [] => rmatch p' [] opened caps
      end
  | Alt alts :: p' => first_alt (fun s' => rmatch p' s' opened caps) s alts
  | GOpen :: p' => rmatch p' s (s :: opened) caps
  | GClose :: p' =>
      match opened with
      | o :: opened' =>
          rmatch p' s opened' (firstn (length o - length s) o :: caps)
      | [] => None
      end
  | Eol :: p' => if at_end s then rmatch p' s opened caps else None
  end.

(** A match object: [start()], [end()] and the groups 1, 2, ... *)
Record rematch : Type := MkMatch {
  m_start : nat;
  m_end : nat;
  m_groups : list str
}.

Definition group (n : nat) (m : rematch) : str := nth (n - 1) (m_groups m) [].

(** [re.search(p, s)]: the match at the leftmost position that has one. *)
Fixpoint search_from (p : pattern) (i : nat) (s : str) : option rematch :=
  match rmatch p s [] [] with
  | Some (g, rest) =>
      Some (MkMatch i (i + (length s - length rest)) g)
  | None =>
      match s with
      | [] => None
      | _ :: t => search_from p (S i) t
      end
  end.

Definition search (p : pattern) (s : str) : option rematch := search_from p 0 s.

(** [re.sub(p, repl, s)] for a pattern that matches no empty string: the
    matches are taken from the left and do not overlap. *)
Fixpoint sub_from (p : pattern) (repl : list str -> str) (skip : nat) (s : str)
  : str :=
  match s with
  | [] => []
  | c :: t =>
      match skip with
      | S k => sub_from p repl k t
      | O =>
          match rmatch p s [] [] with
          | Some (g, rest) =>
              match length s - length rest with
              | O => c :: sub_from p repl 0 t
              | S k => repl g ++ sub_from p repl k t
              end
          | None => c :: sub_from p repl 0 t
          end
      end
  end.

Definition sub (p : pattern) (repl : list str -> str) (s : str) : str :=
  sub_from p repl 0 s.

End Re.
Import Re.

(** ** The transformer chain ([common_lib.transform]) *)

(** What a transformer returns: (level, jurisdiction, office, district). *)
Definition office_key : Type := (str * str * str * str)%type.

(** A transformer takes a description and returns the office tuple or
    declines. *)
Definition transformer : Type := str -> option office_key.

(** Modelled from the spec: [transform] of [common_lib], which is not part
    of the sources at hand.  The matchers are tried in order, the first
    one that does not decline gives the tuple, and a description that
    every matcher declines is a fatal [UnrecognizedContestFormat] that
    carries the description. *)
Fixpoint transform (description : str) (transformers : list transformer)
  : result office_key :=
  match transformers with
  | [] => Raise (UnrecognizedContestFormat description)
  | t :: rest =>
      match t description with
      | Some key => Ok key
      | None => transform description rest
      end
  end.

(** ** Vendor A, the wide spreadsheet: [scc_ingest.standardize] *)

Module SccText.

(** The pattern [ \(Vote For=(\d+)\)$] of the first search. *)
Definition vote_for_re : pattern :=
  [Lit (py " (Vote For="); GOpen; Plus digit; GClose; Lit (py ")"); Eol].

(** The pattern of the second search: a comma and a space, the group
    [[^,]*] in parentheses, then [ Term$]. *)
Definition term_re : pattern :=
  [Lit (py ", "); GOpen; Star not_comma; GClose; Lit (py " Term"); Eol].

(** Step 1: [replace] of two spaces by one space. *)
Definition collapse_spaces (contest : str) : str :=
  replace (py "  ") (py " ") contest.

(** Step 2: the vote-for suffix.  [match.group(1)] on a failed search is
    an [AttributeError]. *)
Definition split_vote_for (contest : str) : result (Z * str) :=
  match search vote_for_re contest with
  | None => Raise AttributeError
  | Some m => Ok (int_of_digits (group 1 m), firstn (m_start m) contest)
  end.

(** Step 3: the term suffix. *)
Definition split_term (contest : str) : str * str :=
  match search term_re contest with
  | Some m => (group 1 m, firstn (m_start m) contest)
  | None => (py "Full", contest)
  end.

Section Standardize.

Variable TRANSFORMERS : list transformer.

Definition standardize (contest : str)
  : result (str * str * str * str * str * Z) :=
  let contest := collapse_spaces contest in
  match split_vote_for contest with
  | Raise e => Raise e
  | Ok (vote_for, contest) =>
      let '(term, contest) := split_term contest in
      match transform contest TRANSFORMERS with
      | Raise e => Raise e
      | Ok (level, jurisdiction, office, district) =>
          Ok (level, jurisdiction, office, district, term, vote_for)
      end
  end.

End Standardize.

End SccText.

(** ** pandas: cells, sorting, factorizing *)

Module Pandas.

(** A cell of an object column. *)
Inductive cell : Type :=
| Str (s : str)
| Int (z : Z)
| NaN.

(** [a == b], element by element: [NaN] equals nothing. *)
Definition cell_eqb (a b : cell) : bool :=
  match a, b with
  | Str x, Str y => str_eqb x y
  | Int x, Int y => Z.eqb x y
  | _, _ => false
  end.

(** [a + b] on a column of strings: a missing operand gives [NaN]. *)
Definition cell_add (a b : cell) : cell :=
  match a, b with
  | Str x, Str y => Str (x ++ y)
  | _, _ => NaN
  end.

Definition is_str (c : cell) : bool :=
  match c with Str _ => true | _ => false end.

(** [col.str] on a column of the frame that [read_csv] gives.  A column
    that holds a string is a column of objects and has the accessor; a
    column of a frame with rows that holds no string has been read as
    numbers, and [.str] raises an [AttributeError] on it.  The columns of
    a frame without rows are columns of objects. *)
Definition str_accessor (cells : list cell) : result (list cell) :=
  match cells with
  | [] => Ok []
  | _ :: _ => if existsb is_str cells then Ok cells else Raise AttributeError
  end.

(** [.str[2:-1]] of a cell: what is not a string gives [NaN]. *)
Definition cell_slice_2_m1 (c : cell) : cell :=
  match c with
  | Str s => Str (slice_2_m1 s)
  | _ => NaN
  end.

(** [astype] to a signed integer type of [w] bits. *)
Definition astype_int (w : Z) (c : cell) : result cell :=
  match c with
  | Str s =>
      match parse_int s with
      | Some z => Ok (Int (wrap w z))
      | None => Raise (ValueError "invalid literal for int()")
      end
  | Int z => Ok (Int (wrap w z))
  | NaN => Raise (ValueError "cannot convert float NaN to integer")
  end.

(** [.str.extract(p)] of a pattern with [n] groups: the groups of the
    first match, [NaN] in every group when there is none. *)
Definition extract (p : pattern) (n : nat) (c : cell) : list cell :=
  match c with
  | Str s =>
      match search p s with
      | Some m => map Str (m_groups m)
      | None => repeat NaN n
      end
  | _ => repeat NaN n
  end.

Definition map2 {A B C} (f : A -> B -> C) (xs : list A) (ys : list B) : list C :=
  map (fun p => f (fst p) (snd p)) (combine xs ys).

(** [.all()] *)
Definition all (bs : list bool) : bool := forallb (fun b => b) bs.

(** A stable sort by insertion; [sort_index] orders rows with it.  Where
    keys tie, pandas promises no order and nothing below depends on one. *)
Fixpoint insert_by {A} (leb : A -> A -> bool) (x : A) (l : list A) : list A :=
  match l with
  | [] => [x]
  | y :: t => if leb x y then x :: l else y :: insert_by leb x t
  end.

Definition sort_by {A} (leb : A -> A -> bool) (l : list A) : list A :=
  fold_right (insert_by leb) [] l.

(** The levels of an index built from a column of strings: its distinct
    values in sorted order. *)
Definition levels (xs : list str) : list str :=
  sort_by str_leb (nodup (list_eq_dec ascii_dec) xs).

Fixpoint index_of {A} (eqb : A -> A -> bool) (x : A) (l : list A) : option nat :=
  match l with
  | [] => None
  | y :: t => if eqb x y then Some 0 else option_map S (index_of eqb x t)
  end.

(** The code of a value in the levels ([-1], here [None], when absent). *)
Definition code_of (lv : list str) (x : str) : option nat := index_of str_eqb x lv.

(** [Index.factorize()]: every value gets the position of its first
    occurrence among the distinct values met so far; [uniques] are the
    distinct values in the order they were first met. *)
Fixpoint factorize_from {A} (eqb : A -> A -> bool) (uniques : list A) (xs : list A)
  : list nat * list A :=
  match xs with
  | [] => ([], uniques)
  | x :: t =>
      match index_of eqb x uniques with
      | Some i =>
          let '(codes, u) := factorize_from eqb uniques t in (i :: codes, u)
      | None =>
          let '(codes, u) := factorize_from eqb (uniques ++ [x]) t in
          (length uniques :: codes, u)
      end
  end.

Definition factorize {A} (eqb : A -> A -> bool) (xs : list A) : list nat * list A :=
  factorize_from eqb [] xs.

(** [drop_duplicates()]: the first row of every group of equal rows. *)
Fixpoint drop_duplicates_from {A} (eqb : A -> A -> bool) (seen : list A) (xs : list A)
  : list A :=
  match xs with
  | [] => []
  | x :: t =>
      if existsb (eqb x) seen then drop_duplicates_from eqb seen t
      else x :: drop_duplicates_from eqb (x :: seen) t
  end.

Definition drop_duplicates {A} (eqb : A -> A -> bool) (xs : list A) : list A :=
  drop_duplicates_from eqb [] xs.

(** [range(n)] *)
Definition range (n : nat) : list nat := seq 0 n.

End Pandas.
Import Pandas.

(** ** Vendor A: the identity columns ([scc_ingest.py]) *)

Module SccId.

(** A row of [df_cvr].  The frame is changed in place by
    [check_and_clean_id_invariants]: a column that has been dropped, or
    is not there yet, is [None] in every row. *)
Record IdRow : Type := MkIdRow {
  cvr_id : Z;
  TabulatorNum : cell;
  BatchId : cell;
  RecordId : cell;
  ImprintedId : option cell;
  CountingGroup : cell;
  PrecinctPortion : option cell;
  BallotType : cell;
  Precinct1 : option cell;
  Precinct2 : option cell
}.

Definition df_id : Type := list IdRow.

(** Computations that read and change the frame in place and can raise:
    the frame is returned also when an exception leaves the function. *)
Definition M (A : Type) : Type := df_id -> result A * df_id.

Definition ret {A} (a : A) : M A := fun df => (Ok a, df).

Definition bind {A B} (c : M A) (f : A -> M B) : M B :=
  fun df =>
    match c df with
    | (Ok a, df') => f a df'
    | (Raise e, df') => (Raise e, df')
    end.

Definition get : M df_id := fun df => (Ok df, df).
Definition put (df' : df_id) : M unit := fun _ => (Ok tt, df').
Definition raise {A} (e : exn) : M A := fun df => (Raise e, df).
Definition lift {A} (r : result A) : M A := fun df => (r, df).

(** [assert cond, msg] *)
Definition assert_ (cond : bool) (msg : string) : M unit :=
  if cond then ret tt else raise (AssertionError msg).

Declare Scope frame_scope.
Delimit Scope frame_scope with frame.
Notation "x <- c ;; k" := (bind c (fun x => k))
  (at level 61, c at next level, right associativity) : frame_scope.
Notation "c ;; k" := (bind c (fun _ => k))
  (at level 61, right associativity) : frame_scope.

Local Open Scope frame_scope.

(** [df_id[name]] of a column that can be absent. *)
Fixpoint present (cells : list (option cell)) : option (list cell) :=
  match cells with
  | [] => Some []
  | Some c :: t => option_map (cons c) (present t)
  | None :: _ => None
  end.

Definition column (name : string) (f : IdRow -> option cell) : M (list cell) :=
  df <- get ;;
  match present (map f df) with
  | Some cells => ret cells
  | None => raise (KeyError name)
  end.

Definition with_ImprintedId (v : option cell) (r : IdRow) : IdRow :=
  MkIdRow (cvr_id r) (TabulatorNum r) (BatchId r) (RecordId r) v
          (CountingGroup r) (PrecinctPortion r) (BallotType r)
          (Precinct1 r) (Precinct2 r).

Definition with_PrecinctPortion (v : option cell) (r : IdRow) : IdRow :=
  MkIdRow (cvr_id r) (TabulatorNum r) (BatchId r) (RecordId r) (ImprintedId r)
          (CountingGroup r) v (BallotType r) (Precinct1 r) (Precinct2 r).

Definition with_TabulatorNum (v : cell) (r : IdRow) : IdRow :=
  MkIdRow (cvr_id r) v (BatchId r) (RecordId r) (ImprintedId r)
          (CountingGroup r) (PrecinctPortion r) (BallotType r)
          (Precinct1 r) (Precinct2 r).

Definition with_BatchId (v : cell) (r : IdRow) : IdRow :=
  MkIdRow (cvr_id r) (TabulatorNum r) v (RecordId r) (ImprintedId r)
          (CountingGroup r) (PrecinctPortion r) (BallotType r)
          (Precinct1 r) (Precinct2 r).

Definition with_RecordId (v : cell) (r : IdRow) : IdRow :=
  MkIdRow (cvr_id r) (TabulatorNum r) (BatchId r) v (ImprintedId r)
          (CountingGroup r) (PrecinctPortion r) (BallotType r)
          (Precinct1 r) (Precinct2 r).

Definition with_BallotType (v : cell) (r : IdRow) : IdRow :=
  MkIdRow (cvr_id r) (TabulatorNum r) (BatchId r) (RecordId r) (ImprintedId r)
          (CountingGroup r) (PrecinctPortion r) v (Precinct1 r) (Precinct2 r).

Definition with_Precincts (p1 p2 : cell) (r : IdRow) : IdRow :=
  MkIdRow (cvr_id r) (TabulatorNum r) (BatchId r) (RecordId r) (ImprintedId r)
          (CountingGroup r) (PrecinctPortion r) (BallotType r)
          (Some p1) (Some p2).

(** [df_id[name] = values] *)
Definition assign (upd : cell -> IdRow -> IdRow) (values : list cell) : M unit :=
  df <- get ;;
  put (map2 (fun r v => upd v r) df values).

(** [df_id.drop(columns=name, inplace=True)] *)
Definition drop (upd : option cell -> IdRow -> IdRow) : M unit :=
  df <- get ;;
  put (map (upd None) df).

(** The pattern [(?P<a>.+) \((?P<b>.+)\)]. *)
Definition ballot_type_re : pattern :=
  [GOpen; Plus dot; GClose; Lit (py " ("); GOpen; Plus dot; GClose; Lit (py ")")].

(** [precinct_regex]: [0*], the groups [a] and [Precinct1] of [\d+]
    around [ \(], an optional dash, the group [Precinct2] of [\d*], and
    the closing parenthesis. *)
Definition precinct_regex : pattern :=
  [Star (Ascii.eqb "0"); GOpen; Plus digit; GClose; Lit (py " (");
   GOpen; Plus digit; GClose; Opt "-"; GOpen; Star digit; GClose; Lit (py ")")].

(** The series [i_id] and [imprinted_id_ok] of the first check. *)
Definition i_id (tab batch rec : list cell) : list cell :=
  let dash := fun c => cell_add c (Str (py "-")) in
  map2 cell_add (map dash (map2 cell_add (map dash tab) batch)) rec.

Definition imprinted_id_ok (imprinted expected : list cell) : list bool :=
  map2 orb (map2 cell_eqb imprinted expected)
           (map (fun c => cell_eqb c (Str [])) imprinted).

(** Lines 71 to 75: the imprinted id is checked, then its column
    dropped. *)
Definition check_imprinted_id : M unit :=
  df <- get ;;
  imprinted <- column "ImprintedId" ImprintedId ;;
  let expected := i_id (map TabulatorNum df) (map BatchId df) (map RecordId df) in
  assert_ (all (imprinted_id_ok imprinted expected)) "ImprintedId mismatch" ;;
  drop with_ImprintedId.

(** Lines 76 and 77: both columns are cast, then assigned. *)
Definition cast_tabulator_batch : M unit :=
  df <- get ;;
  tab <- lift (map_result (astype_int 16) (map TabulatorNum df)) ;;
  batch <- lift (map_result (astype_int 16) (map BatchId df)) ;;
  assign with_TabulatorNum tab ;;
  assign with_BatchId batch.

(** The series [ballot_type_ok] and the clean ballot type. *)
Definition ballot_type_groups (df : df_id) : list (list cell) :=
  map (extract ballot_type_re 2) (map BallotType df).

Definition ballot_type_ok (df : df_id) : list bool :=
  map2 cell_eqb (map (fun g => nth 0 g NaN) (ballot_type_groups df))
                (map (fun g => nth 1 g NaN) (ballot_type_groups df)).

(** Lines 79 to 83; [.str] is taken of the column before the pattern is
    applied. *)
Definition check_ballot_type : M unit :=
  df <- get ;;
  lift (str_accessor (map BallotType df)) ;;
  assert_ (all (ballot_type_ok df)) "BallotType mismatch" ;;
  assign with_BallotType (map (fun g => nth 0 g NaN) (ballot_type_groups df)).

Definition precinct_ok (df_check : list (list cell)) : list bool :=
  map2 cell_eqb (map (fun g => nth 0 g NaN) df_check)
                (map (fun g => nth 1 g NaN) df_check).

(** Lines 85 to 93; [.str] is taken of the column before the pattern is
    applied. *)
Definition check_precinct_portion : M unit :=
  portion <- column "PrecinctPortion" PrecinctPortion ;;
  lift (str_accessor portion) ;;
  let df_check := map (extract precinct_regex 3) portion in
  assert_ (all (precinct_ok df_check)) "PrecintPortion mismatch" ;;
  drop with_PrecinctPortion ;;
  df <- get ;;
  put (map2 (fun r g => with_Precincts (nth 1 g NaN) (nth 2 g NaN) r) df df_check).

(** Lines 95 and 96; the cast to a category changes no value. *)
Definition cast_record_id : M unit :=
  df <- get ;;
  rec <- lift (map_result (astype_int 32) (map RecordId df)) ;;
  assign with_RecordId rec.

Definition check_and_clean_id_invariants : M unit :=
  check_imprinted_id ;;
  cast_tabulator_batch ;;
  check_ballot_type ;;
  check_precinct_portion ;;
  cast_record_id.

End SccId.

(** ** Vendor A: from the raw frame to the five tables *)

Module Scc.

Import SccId SccText.

(** The three stacked header rows above a mark column. *)
Record Header : Type := MkHeader {
  h_contest : str;
  h_candidate : str;
  h_party : str
}.

(** The identity cells of a raw row, in the order of the export: the
    ballot number, then the seven columns that become [df_cvr]. *)
Record RawId : Type := MkRawId {
  raw_CvrNumber : cell;
  raw_TabulatorNum : cell;
  raw_BatchId : cell;
  raw_RecordId : cell;
  raw_ImprintedId : cell;
  raw_CountingGroup : cell;
  raw_PrecinctPortion : cell;
  raw_BallotType : cell
}.

(** The frame of [read_raw]: the identity columns row by row and, for
    every mark column, its header and its cells from the first row to the
    last.  [na_values=[0]] has made a zero [NaN]. *)
Record RawFrame : Type := MkRawFrame {
  raw_ids : list RawId;
  raw_marks : list (Header * list (option Z))
}.

(** The frame once the ballot number is its index and the identity
    columns are split off. *)
Record WideFrame : Type := MkWideFrame {
  w_index : list Z;
  w_columns : list (Header * list (option Z))
}.

(** A row of the long frame; the contest and the candidate are index
    levels, first the descriptions and then the surrogate ids. *)
Record Long (C D : Type) : Type := MkLong {
  l_cvr_id : Z;
  l_contest : C;
  l_candidate : D;
  l_rank : Z
}.

Record ContestRow : Type := MkContestRow {
  contest_id : Z;
  term : str;
  vote_for : Z;
  ranked : bool;
  office_id : Z
}.

Record OfficeRow : Type := MkOfficeRow {
  o_office_id : Z;
  o_level : str;
  o_jurisdiction : str;
  o_office : str;
  o_district : str
}.

Record CandidateRow : Type := MkCandidateRow {
  candidate_id : Z;
  name : option str;
  party : option str
}.

Definition MarkRow : Type := Long Z Z.

Record Tables : Type := MkTables {
  df_cvr : df_id;
  df_contest : list ContestRow;
  df_office : list OfficeRow;
  df_candidate : list CandidateRow;
  df_mark : list MarkRow
}.

(** The first five columns, in the order of the export. *)
Definition reformat_cols : list (RawId -> cell) :=
  [raw_CvrNumber; raw_TabulatorNum; raw_BatchId; raw_RecordId; raw_ImprintedId].

(** The frame with [.str[2:-1]] taken of its first five columns: they
    lose the two characters and the closing quote the export wraps them
    in. *)
Definition sliced (df : RawFrame) : RawFrame :=
  MkRawFrame
    (map (fun r =>
            MkRawId (cell_slice_2_m1 (raw_CvrNumber r))
                    (cell_slice_2_m1 (raw_TabulatorNum r))
                    (cell_slice_2_m1 (raw_BatchId r))
                    (cell_slice_2_m1 (raw_RecordId r))
                    (cell_slice_2_m1 (raw_ImprintedId r))
                    (raw_CountingGroup r) (raw_PrecinctPortion r)
                    (raw_BallotType r))
         (raw_ids df))
    (raw_marks df).

(** [reformat_strings]: the loop takes [df[col].str] of each of the five
    columns in turn, an [AttributeError] on a column that has no such
    accessor, and puts the slices in the place of the column. *)
Definition reformat_strings (df : RawFrame) : result RawFrame :=
  rbind (map_result (fun col => str_accessor (map col (raw_ids df))) reformat_cols)
        (fun _ => Ok (sliced df)).

Definition int_value (c : cell) : Z :=
  match c with Int z => z | _ => 0%Z end.

(** [set_index]: the first column, as [np.int32], becomes the index
    [cvr_id]. *)
Definition set_index (df : RawFrame) : result (list Z) :=
  rbind (map_result (astype_int 32) (map raw_CvrNumber (raw_ids df)))
        (fun cells => Ok (map int_value cells)).

(** [split_cvr]: the seven identity columns leave [df] for [df_cvr]. *)
Definition split_cvr (index : list Z) (df : RawFrame) : df_id * WideFrame :=
  (map2 (fun i r =>
           MkIdRow i (raw_TabulatorNum r) (raw_BatchId r) (raw_RecordId r)
                   (Some (raw_ImprintedId r)) (raw_CountingGroup r)
                   (Some (raw_PrecinctPortion r)) (raw_BallotType r) None None)
        index (raw_ids df),
   MkWideFrame index (raw_marks df)).

(** [s in text] *)
Fixpoint contains (text s : str) : bool :=
  match text with
  | [] => match s with [] => true | _ => false end
  | _ :: t => startswith text s || contains t s
  end.

Definition blank_unnamed (x : str) : str :=
  if contains x (py "Unnamed") then [] else x.

(** The pattern [BONDS—(YES|NO)]; the dash is one character of three
    bytes. *)
Definition bonds_re : pattern :=
  [Lit (py "BONDS—"); GOpen; Alt [py "YES"; py "NO"]; GClose].

(** The new label of a column: (contest, candidate;party). *)
Definition relabel (h : Header) : str * str :=
  let contest := blank_unnamed (h_contest h) in
  let candidate := blank_unnamed (h_candidate h) in
  let party := blank_unnamed (h_party h) in
  let candidate := sub bonds_re (fun g => nth 0 g []) candidate in
  (contest, candidate ++ py ";" ++ party).

Definition is_write_in (h : Header) : bool := str_eqb (h_candidate h) (py "Write-in").

(** [update_column_index].  [df.drop(columns="Write-in", level=1)] raises
    a [KeyError] when no column carries the label. *)
Definition update_column_index (df : WideFrame)
  : result (list Z * list ((str * str) * list (option Z))) :=
  if existsb (fun c => is_write_in (fst c)) (w_columns df)
  then
    let kept := filter (fun c => negb (is_write_in (fst c))) (w_columns df) in
    Ok (w_index df, map (fun c => (relabel (fst c), snd c)) kept)
  else Raise (KeyError "Write-in").

(** [melt] of one column, then [dropna] and the cast of the rank.  The
    cast is that of the integer in the cell.  In a frame with missing
    cells the ranks are floats, and for a float beyond the range of
    [np.int32] numpy does not define what the cast to [np.int8] gives;
    [int8] of the integer stands for it here. *)
Definition melt_column (index : list Z) (c : (str * str) * list (option Z))
  : list (Long str str) :=
  flat_map (fun p =>
              match snd p with
              | Some rank => [MkLong (fst p) (fst (fst c)) (snd (fst c)) (int8 rank)]
              | None => []
              end)
           (combine index (snd c)).

Definition pair_leb {A B} (lea : A -> A -> bool) (eqa : A -> A -> bool)
  (leb : B -> B -> bool) (x y : A * B) : bool :=
  if eqa (fst x) (fst y) then leb (snd x) (snd y) else lea (fst x) (fst y).

(** [tidy]: the long frame, sorted by (cvr_id, contest, candidate). *)
Definition tidy (df : list Z * list ((str * str) * list (option Z)))
  : list (Long str str) :=
  sort_by (fun a b =>
             pair_leb Z.leb Z.eqb (pair_leb str_leb str_eqb str_leb)
               (l_cvr_id a, (l_contest a, l_candidate a))
               (l_cvr_id b, (l_contest b, l_candidate b)))
          (flat_map (melt_column (fst df)) (snd df)).

(** The new values of a level: [df.index.set_levels(ids, level=...)]
    checks that they are unique. *)
Fixpoint is_unique (ids : list Z) : bool :=
  match ids with
  | [] => true
  | i :: t => negb (existsb (Z.eqb i) t) && is_unique t
  end.

Definition set_levels (ids : list Z) : result (list Z) :=
  if is_unique ids then Ok ids
  else Raise (ValueError "Level values must be unique").

(** The value a row gets from the new level. *)
Definition relevel (lv : list str) (ids : list Z) (x : str) : Z :=
  match code_of lv x with
  | Some code => nth code ids (-1)%Z
  | None => (-1)%Z
  end.

Definition key_eqb (a b : office_key) : bool :=
  let '(l1, j1, o1, d1) := a in
  let '(l2, j2, o2, d2) := b in
  str_eqb l1 l2 && str_eqb j1 j2 && str_eqb o1 o2 && str_eqb d1 d2.

Definition office_row_eqb (a b : OfficeRow) : bool :=
  key_eqb (o_level a, o_jurisdiction a, o_office a, o_district a)
          (o_level b, o_jurisdiction b, o_office b, o_district b)
  && Z.eqb (o_office_id a) (o_office_id b).

(** The office ids: [set_index(office_levels).index.factorize()[0]],
    as [np.int16]. *)
Definition office_ids (keys : list office_key) : list Z :=
  map (fun c => int16 (Z.of_nat c)) (fst (factorize key_eqb keys)).

(** [df_office]: the office columns and the office id of every contest,
    without duplicates. *)
Definition office_table (keys : list office_key) (oid : list Z) : list OfficeRow :=
  drop_duplicates office_row_eqb
    (map2 (fun k o => let '(l, j, f, d) := k in MkOfficeRow o l j f d) keys oid).

(** The default index of a frame of [n] rows, as [np.int16]. *)
Definition level_ids (n : nat) : list Z :=
  map (fun i => int16 (Z.of_nat i)) (range n).

(** The office columns of a standardized contest. *)
Definition office_key_of (d : str * str * str * str * str * Z) : office_key :=
  let '(l, j, o, d, _, _) := d in (l, j, o, d).

(** The row of [df_contest] with index [i], from the standardized contest
    and its office id. *)
Definition contest_row (i : Z) (d : (str * str * str * str * str * Z) * Z)
  : ContestRow :=
  let '(_, _, _, _, t, v) := fst d in MkContestRow i t (int8 v) false (snd d).

(** The row of [df_candidate] with index [i], from the parts of the
    description; an empty part is stored as absent. *)
Definition none_if_empty (s : str) : option str :=
  match s with [] => None | _ => Some s end.

Definition candidate_row (i : Z) (parts : list str) : CandidateRow :=
  MkCandidateRow i (none_if_empty (nth 0 parts [])) (none_if_empty (nth 1 parts [])).

Section WithTransformers.

Variable TRANSFORMERS : list transformer.

(** [split_contest].  When the long frame has no row there is no contest
    level, [df_contest] has no row, and [factorize] of its office index
    raises a [TypeError]. *)
Definition split_contest (df : list (Long str str))
  : result (list ContestRow * list OfficeRow * list (Long Z str)) :=
  let contest_levels := levels (map (@l_contest _ _) df) in
  rbind (map_result (standardize TRANSFORMERS) contest_levels) (fun contest_data =>
  match contest_data with
  | [] => Raise TypeError
  | _ :: _ =>
  let ids := level_ids (length contest_data) in
  let keys := map office_key_of contest_data in
  let oid := office_ids keys in
  let df_contest := map2 contest_row ids (combine contest_data oid) in
  let df_office := office_table keys oid in
  rbind (set_levels ids) (fun ids =>
  Ok (df_contest, df_office,
      map (fun m => MkLong (l_cvr_id m) (relevel contest_levels ids (l_contest m))
                           (l_candidate m) (l_rank m)) df))
  end).

Definition split_candidate (df : list (Long Z str))
  : result (list CandidateRow * list (Long Z Z)) :=
  let candidate_levels := levels (map (@l_candidate _ _) df) in
  let cand_data := map (split_on ";") candidate_levels in
  if forallb (fun parts => Nat.eqb (length parts) 2) cand_data
  then
    let ids := level_ids (length cand_data) in
    let df_candidate := map2 candidate_row ids cand_data in
    rbind (set_levels ids) (fun ids =>
    Ok (df_candidate,
        map (fun m => MkLong (l_cvr_id m) (l_contest m)
                             (relevel candidate_levels ids (l_candidate m))
                             (l_rank m)) df))
  else Raise (ValueError "2 columns passed, passed data had more columns").

(** The last three lines of [preprocess]: the index of the mark table is
    (cvr_id, contest_id, rank), sorted. *)
Definition index_marks (df : list (Long Z Z)) : list MarkRow :=
  sort_by (fun a b =>
             pair_leb Z.leb Z.eqb (pair_leb Z.leb Z.eqb Z.leb)
               (l_cvr_id a, (l_contest a, l_rank a))
               (l_cvr_id b, (l_contest b, l_rank b)))
          df.

Definition preprocess (df : RawFrame) : result Tables :=
  rbind (reformat_strings df) (fun df =>
  rbind (set_index df) (fun index =>
  let '(df_cvr, df) := split_cvr index df in
  match check_and_clean_id_invariants df_cvr with
  | (Raise e, _) => Raise e
  | (Ok _, df_cvr) =>
      rbind (update_column_index df) (fun df =>
      let df := tidy df in
      rbind (split_contest df) (fun '(df_contest, df_office, df) =>
      rbind (split_candidate df) (fun '(df_candidate, df) =>
      Ok (MkTables df_cvr df_contest df_office df_candidate (index_marks df)))))
  end)).

(** Modelled from the spec: [write] of [common_lib], the external writer
    the five tables are handed to.  What it has been handed is kept as
    the list [written]. *)
Definition write (t : Tables) (written : list Tables) : list Tables :=
  written ++ [t].

(** [preprocess_path], after [read_raw] has given the frame. *)
Definition preprocess_path (df : RawFrame) (written : list Tables)
  : result unit * list Tables :=
  match preprocess df with
  | Raise e => (Raise e, written)
  | Ok t => (Ok tt, write t written)
  end.

End WithTransformers.

End Scc.

(** ** Vendor B, the per-ballot documents ([sf_ingest.py]) *)

Module Sf.

(** The documents of the archive, as [json.load] gives them. *)
Record JMark : Type := MkJMark {
  CandidateId : Z;
  Rank : Z;
  IsVote : bool;
  IsAmbiguous : bool
}.

Record JContest : Type := MkJContest {
  Id : Z;
  Marks : list JMark
}.

Record JCard : Type := MkJCard { Contests : list JContest }.

(** A session; [Cards] is [sess["Original"]["Cards"]]. *)
Record JSession : Type := MkJSession { Cards : list JCard }.

Record JExport : Type := MkJExport { Sessions : list JSession }.

(** A member of the archive; [content] is read only when the name starts
    with [CvrExport_]. *)
Record ZipEntry : Type := MkZipEntry {
  filename : str;
  content : JExport
}.

(** A record of [ContestManifest.json]. *)
Record JContestDef : Type := MkJContestDef {
  cd_Description : str;
  cd_Id : Z;
  cd_ExternalId : Z;
  cd_DistrictId : Z;
  cd_VoteFor : Z;
  cd_NumOfRanks : Z;
  cd_Disabled : bool
}.

(** A record of [CandidateManifest.json]. *)
Record JCandidateDef : Type := MkJCandidateDef {
  nd_Description : str;
  nd_Id : Z;
  nd_ExternalId : str;
  nd_ContestId : Z;
  nd_Type : str;
  nd_Disabled : bool
}.

(** A row of [mark_data]. *)
Record MarkRow : Type := MkMarkRow {
  cvr_id : Z;
  contest_id : Z;
  candidate_id : Z;
  rank : Z;
  is_vote : bool;
  is_ambiguous : bool
}.

(** The variables of the loop of [read_raw]. *)
Record ReadState : Type := MkReadState {
  next_cvr_id : Z;
  cvr_data : list (Z * str);
  mark_data : list MarkRow
}.

Definition read_contest (cvr : Z) (acc : list MarkRow) (contest : JContest)
  : list MarkRow :=
  fold_left (fun acc mark =>
               acc ++ [MkMarkRow cvr (Id contest) (CandidateId mark) (Rank mark)
                                 (IsVote mark) (IsAmbiguous mark)])
            (Marks contest) acc.

Definition read_card (file : str) (st : ReadState) (card : JCard) : ReadState :=
  MkReadState
    (next_cvr_id st + 1)
    (cvr_data st ++ [(next_cvr_id st, file)])
    (fold_left (read_contest (next_cvr_id st)) (Contests card) (mark_data st)).

Definition read_export (f : ZipEntry) (st : ReadState) : ReadState :=
  fold_left (fun st sess => fold_left (read_card (filename f)) (Cards sess) st)
            (Sessions (content f)) st.

(** The loop over [enumerate(zip_file.filelist)]. *)
Fixpoint read_files (nfiles : option nat) (idx : nat) (files : list ZipEntry)
  (st : ReadState) : ReadState :=
  match files with
  | [] => st
  | f :: rest =>
      if match nfiles with Some n => Nat.eqb idx n | None => false end
      then st
      else if negb (startswith (filename f) (py "CvrExport_"))
      then read_files nfiles (S idx) rest st
      else read_files nfiles (S idx) rest (read_export f st)
  end.

(** What [read_raw] returns, the two manifests apart. *)
Definition read_raw (files : list ZipEntry) (nfiles : option nat)
  : list (Z * str) * list MarkRow :=
  let st := read_files nfiles 0 files (MkReadState 0 [] []) in
  (cvr_data st, mark_data st).

Record CvrRow : Type := MkCvrRow {
  c_cvr_id : Z;
  c_filename : str
}.

Record ContestRow : Type := MkContestRow {
  t_contest_id : Z;
  t_ExternalId : Z;
  t_DistrictId : Z;
  t_vote_for : Z;
  t_NumOfRanks : Z;
  t_Disabled : bool;
  t_ranked : bool;
  t_office_id : Z
}.

Record CandidateRow : Type := MkCandidateRow {
  n_candidate_id : Z;
  n_name : str;
  n_ExternalId : str;
  n_contest_id : Z;
  n_Type : str;
  n_Disabled : bool;
  n_party : option str
}.

Record Tables : Type := MkTables {
  df_cvr : list CvrRow;
  df_contest : list ContestRow;
  df_office : list Scc.OfficeRow;
  df_candidate : list CandidateRow;
  df_mark : list MarkRow
}.

(** [df_contest] after [astype], [rename] and the two lines on ranked
    contests; the description stays until the contest is standardized,
    the office id is not set yet. *)
Definition typed_contest (c : JContestDef) : str * ContestRow :=
  let vote_for := int8 (cd_VoteFor c) in
  let NumOfRanks := int8 (cd_NumOfRanks c) in
  let ranked := (1 <? NumOfRanks)%Z in
  (cd_Description c,
   MkContestRow (int16 (cd_Id c)) (int32 (cd_ExternalId c)) (int16 (cd_DistrictId c))
                (if ranked then NumOfRanks else vote_for)
                NumOfRanks (cd_Disabled c) ranked 0).

Definition with_office_id (o : Z) (c : ContestRow) : ContestRow :=
  MkContestRow (t_contest_id c) (t_ExternalId c) (t_DistrictId c) (t_vote_for c)
               (t_NumOfRanks c) (t_Disabled c) (t_ranked c) o.

(** [left.join(right)] on the index [contest_id]: every row of the left
    frame with every row of the right frame that has its index value. *)
Definition join_on_index {A} (left : list (Z * A)) (right : list (str * ContestRow))
  : list (A * ContestRow) :=
  flat_map (fun l =>
              map (fun r => (snd l, snd r))
                  (filter (fun r => Z.eqb (t_contest_id (snd r)) (fst l)) right))
           left.

(** [df_contest] once typed, indexed by [contest_id] and sorted. *)
Definition sorted_contests (contest_data : list JContestDef) : list (str * ContestRow) :=
  sort_by (fun a b => Z.leb (t_contest_id (snd a)) (t_contest_id (snd b)))
          (map typed_contest contest_data).

(** [df_candidate], typed, indexed by [candidate_id] and sorted. *)
Definition sorted_candidates (candidate_data : list JCandidateDef) : list CandidateRow :=
  sort_by (fun a b => Z.leb (n_candidate_id a) (n_candidate_id b))
          (map (fun c => MkCandidateRow (int16 (nd_Id c)) (nd_Description c)
                                        (nd_ExternalId c) (int16 (nd_ContestId c))
                                        (nd_Type c) (nd_Disabled c) None)
               candidate_data).

(** [df_mark], typed, indexed by (cvr_id, contest_id, rank) and sorted. *)
Definition sorted_marks (mark_data : list MarkRow) : list MarkRow :=
  sort_by (fun a b =>
             Scc.pair_leb Z.leb Z.eqb (Scc.pair_leb Z.leb Z.eqb Z.leb)
               (cvr_id a, (contest_id a, rank a))
               (cvr_id b, (contest_id b, rank b)))
          (map (fun m => MkMarkRow (int32 (cvr_id m)) (int16 (contest_id m))
                                   (int16 (candidate_id m)) (int8 (rank m))
                                   (is_vote m) (is_ambiguous m))
               mark_data).

Section WithTransformers.

Variable TRANSFORMERS : list transformer.

(** [standardize(row)] *)
Definition standardize (row : str * ContestRow) : result office_key :=
  transform (fst row) TRANSFORMERS.

Definition preprocess (cvr_data : list (Z * str)) (contest_data : list JContestDef)
  (candidate_data : list JCandidateDef) (mark_data : list MarkRow) : result Tables :=
  let df_cvr := map (fun r => MkCvrRow (int32 (fst r)) (snd r)) cvr_data in
  match contest_data with
  | [] => Raise (KeyError "Id")
  | _ =>
  let df_contest := sorted_contests contest_data in
  rbind (map_result standardize df_contest) (fun standardized =>
  let joined :=
    join_on_index (combine (map (fun r => t_contest_id (snd r)) df_contest) standardized)
                  df_contest in
  let keys := map fst joined in
  let oid := Scc.office_ids keys in
  let df_contest := map2 (fun r o => with_office_id o (snd r)) joined oid in
  let df_office := Scc.office_table keys oid in
  match candidate_data with
  | [] => Raise (KeyError "Id")
  | _ =>
  Ok (MkTables df_cvr df_contest df_office (sorted_candidates candidate_data)
               (sorted_marks mark_data))
  end)
  end.

(** Modelled from the spec: [write] of [common_lib], the external writer;
    [written] lists what it has been handed. *)
Definition write (t : Tables) (written : list Tables) : list Tables :=
  written ++ [t].

(** [preprocess_path], after the archive has been opened. *)
Definition preprocess_path (files : list ZipEntry) (contest_data : list JContestDef)
  (candidate_data : list JCandidateDef) (nfiles : option nat)
  (written : list Tables) : result unit * list Tables :=
  let '(cvr_data, mark_data) := read_raw files nfiles in
  match preprocess cvr_data contest_data candidate_data mark_data with
  | Raise e => (Raise e, written)
  | Ok t => (Ok tt, write t written)
  end.

End WithTransformers.

End Sf.

(** * The vocabulary of the properties *)

Unset Implicit Arguments.

(** ** Runs of spaces *)

Module SpacesSpec.

Definition space : ascii := " "%char.

Definition is_space (c : ascii) : bool := Ascii.eqb c space.

(** Two adjacent spaces somewhere in [s]. *)
Fixpoint adjacent_spaces (s : str) : bool :=
  match s with
  | [] => false
  | a :: t =>
      (is_space a && match t with b :: _ => is_space b | [] => false end)
      || adjacent_spaces t
  end.

(** Three adjacent spaces somewhere in [s]. *)
Fixpoint three_spaces (s : str) : bool :=
  match s with
  | [] => false
  | a :: t =>
      (is_space a
       && match t with
          | b :: c :: _ => is_space b && is_space c
          | _ => false
          end)
      || three_spaces t
  end.

End SpacesSpec.

(** ** The imprinted id *)

Module ImprintedSpec.

Import SccId.

(** The frame has the column: no row lacks the cell. *)
Definition has_column (f : IdRow -> option cell) (df : df_id) : Prop :=
  Forall (fun r => f r <> None) df.

(** [<tabulator>-<batch>-<record>] *)
Definition dashed (t b c : str) : str := t ++ py "-" ++ b ++ py "-" ++ c.

(** The imprinted id of the ballot is empty or is the three ids joined by
    dashes. *)
Definition imprinted_matches (r : IdRow) : Prop :=
  ImprintedId r = Some (Str [])
  \/ exists t b c,
       TabulatorNum r = Str t /\ BatchId r = Str b /\ RecordId r = Str c
       /\ ImprintedId r = Some (Str (dashed t b c)).

Definition row_i_id (r : IdRow) : cell :=
  cell_add (cell_add (cell_add (cell_add (TabulatorNum r) (Str (py "-"))) (BatchId r))
                     (Str (py "-")))
           (RecordId r).

Definition row_ok (r : IdRow) : bool :=
  match ImprintedId r with
  | Some imp => cell_eqb imp (row_i_id r) || cell_eqb imp (Str [])
  | None => false
  end.

Definition cell_or_nan (c : option cell) : cell :=
  match c with Some c => c | None => NaN end.

(** A frame of one ballot whose imprinted id is [1-2-3]. *)
Definition one_ballot : df_id :=
  [MkIdRow 7 (Str (py "1")) (Str (py "2")) (Str (py "3")) (Some (Str (py "1-2-3")))
           (Str (py "Election Day")) (Some (Str (py "007 (7-2)")))
           (Str (py "Vote Center (Vote Center)")) None None].

End ImprintedSpec.

(** ** The suffixes of a contest description *)

Module TermSpec.

(** What [$] lets follow: nothing, or the newline that ends the string. *)
Definition tail_ok (e : str) : Prop := e = [] \/ e = [newline].

(** The string has the term suffix: it ends with a comma, a space, a
    label without comma and [ Term], or with these and a final newline. *)
Definition has_term_suffix (s : str) : Prop :=
  exists p t e, forallb not_comma t = true /\ tail_ok e
                /\ s = p ++ py ", " ++ t ++ py " Term" ++ e.

(** The rest of the term pattern after the repetition: the closing
    parenthesis of the group opened at [s0], then [ Term$]. *)
Definition term_tail (s0 s : str) : option (list str * str) :=
  match strip_prefix (py " Term") s with
  | Some e =>
      if at_end e then Some ([firstn (length s0 - length s) s0], e) else None
  | None => None
  end.

(** The rest of the vote-for pattern after the repetition: the closing
    parenthesis of the group opened at [s0], then [\)$]. *)
Definition vote_tail (s0 s : str) : option (list str * str) :=
  match strip_prefix (py ")") s with
  | Some e =>
      if at_end e then Some ([firstn (length s0 - length s) s0], e) else None
  | None => None
  end.

(** Every transformer of the chain returns four non-empty fields. *)
Definition nonempty_fields (ts : list transformer) : Prop :=
  forall t s l j o d,
    In t ts -> t s = Some (l, j, o, d) ->
    l <> [] /\ j <> [] /\ o <> [] /\ d <> [].

(** A chain of one transformer that takes every description for a county
    office. *)
Definition county_office : transformer :=
  fun s =>
    match s with
    | [] => None
    | _ => Some (py "County", py "Santa Clara", s, py "At Large")
    end.

(** A chain of one transformer that takes every description for a county
    office and gives it no district. *)
Definition no_district : transformer :=
  fun s => Some (py "County", py "Santa Clara", s, []).

(** A description whose term suffix is followed by a newline. *)
Definition short_term_newline : str :=
  py "City Council, Short Term" ++ [newline].

End TermSpec.

(** ** A small archive of vendor B *)

Module SfSpec.

Import Sf.

Definition chain : list transformer := [TermSpec.county_office].

(** One ballot document with two cards; the first card marks candidate 5
    in contest 1 and candidate 6 in contest 2. *)
Definition archive : list ZipEntry :=
  [MkZipEntry (py "ContestManifest.json") (MkJExport []);
   MkZipEntry (py "CvrExport_1.json")
     (MkJExport
        [MkJSession
           [MkJCard [MkJContest 1 [MkJMark 5 1 true false];
                     MkJContest 2 [MkJMark 6 1 true false]];
            MkJCard []]])].

(** The contest manifest knows the contests 1 (ranked, three ranks) and
    0, and no contest 2. *)
Definition contests : list JContestDef :=
  [MkJContestDef (py "Mayor") 1 10 3 1 3 false;
   MkJContestDef (py "District Attorney") 0 11 3 1 1 false].

(** The candidate manifest knows candidate 5, the write-in line of
    contest 1, and no candidate 6. *)
Definition candidates : list JCandidateDef :=
  [MkJCandidateDef (py "Write-in") 5 (py "") 1 (py "WriteIn") false].

(** The record of the manifest a row of the Contest table comes from. *)
Definition from_record (row : ContestRow) (c : JContestDef) : Prop :=
  t_contest_id row = int16 (cd_Id c)
  /\ t_NumOfRanks row = int8 (cd_NumOfRanks c)
  /\ t_ranked row = (1 <? int8 (cd_NumOfRanks c))%Z
  /\ t_vote_for row
     = (if t_ranked row then int8 (cd_NumOfRanks c) else int8 (cd_VoteFor c)).

(** The run on this archive. *)
Definition run : result Tables :=
  preprocess chain (fst (read_raw archive None)) contests candidates
             (snd (read_raw archive None)).

(** Its tables. *)
Definition tables : Tables :=
  Eval cbv in
    match run with
    | Ok t => t
    | Raise _ => MkTables [] [] [] [] []
    end.

(** The row of contest 1 in the Contest table. *)
Definition mayor_row : ContestRow := MkContestRow 1 10 3 3 3 false true 1.

(** A record of the manifest with 200 ranks, and one of a contest that is
    not ranked in which 130 candidates are voted for. *)
Definition ranks_200 : JContestDef := MkJContestDef (py "Mayor") 1 10 3 1 200 false.

Definition vote_for_130 : JContestDef :=
  MkJContestDef (py "Council") 2 11 3 130 1 false.

(** The run on the archive with this manifest, and its tables. *)
Definition wide_run : result Tables :=
  preprocess chain (fst (read_raw archive None)) [ranks_200; vote_for_130]
             candidates (snd (read_raw archive None)).

Definition wide_tables : Tables :=
  Eval cbv in
    match wide_run with
    | Ok t => t
    | Raise _ => MkTables [] [] [] [] []
    end.

End SfSpec.

(** ** A small export of vendor A *)

Module SccSpec.

Import Scc.

Definition chain : list transformer := [TermSpec.county_office].

Definition quote : ascii := "034"%char.

(** A cell as the export wraps it: an equals sign, then the text in
    quotes. *)
Definition wrapped (s : str) : cell := Str (py "=" ++ [quote] ++ s ++ [quote]).

Definition text (s : string) : cell := Str (py s).

Definition header (contest candidate party : string) : Header :=
  MkHeader (py contest) (py candidate) (py party).

(** Two ballots that carry the same ballot number 1; the second has no
    imprinted id.  The mayor's contest has the columns of Bob, of Ann and
    of the write-in line. *)
Definition same_number : RawFrame :=
  MkRawFrame
    [MkRawId (wrapped (py "1")) (wrapped (py "1")) (wrapped (py "2"))
             (wrapped (py "3")) (wrapped (py "1-2-3")) (text "Election Day")
             (text "007 (7-2)") (text "Vote Center (Vote Center)");
     MkRawId (wrapped (py "1")) (wrapped (py "1")) (wrapped (py "2"))
             (wrapped (py "4")) (wrapped []) (text "Vote by Mail")
             (text "008 (8)") (text "VBM (VBM)")]
    [(header "Mayor (Vote For=1)" "Bob" "DEM", [Some 1%Z; None]);
     (header "Mayor (Vote For=1)" "Write-in" "Unnamed: 10_level_2",
      [None; Some 1%Z]);
     (header "Mayor (Vote For=1)" "Ann" "REP", [None; Some 1%Z])].

Definition run : result Tables := preprocess chain same_number.

Definition tables : Tables :=
  Eval cbv in
    match run with
    | Ok t => t
    | Raise _ => MkTables [] [] [] [] []
    end.

End SccSpec.

(** ** The counter of vendor B *)

Module CounterSpec.

Import Sf.

(** The loop has numbered the cards it has read 0, 1, 2, ... in the order
    it read them, and [cvr_id] is the next number. *)
Definition counted (st : ReadState) : Prop :=
  next_cvr_id st = Z.of_nat (length (cvr_data st))
  /\ map fst (cvr_data st) = map Z.of_nat (seq 0 (length (cvr_data st))).

End CounterSpec.

(** ** The checks of a run *)

Module ChecksSpec.

Import SccId Scc ImprintedSpec.

(** The frame [df_cvr] the validator is given. *)
Definition id_frame (df : RawFrame) (index : list Z) : df_id :=
  fst (split_cvr index (sliced df)).

(** The wide frame the column index is updated on. *)
Definition wide_frame (df : RawFrame) (index : list Z) : WideFrame :=
  snd (split_cvr index (sliced df)).

(** The three assertions of the validator, on the frame it is given. *)
Definition imprinted_check (df : df_id) : Prop := Forall imprinted_matches df.

Definition ballot_type_check (df : df_id) : Prop := all (ballot_type_ok df) = true.

Definition precinct_check (df : df_id) : Prop :=
  all (precinct_ok (map (extract precinct_regex 3)
                        (map (fun r => cell_or_nan (PrecinctPortion r)) df)))
  = true.

(** Every contest description is standardized without an exception. *)
Definition recognized (ts : list transformer) (descriptions : list str) : Prop :=
  forall c, In c descriptions -> exists r, SccText.standardize ts c = Ok r.

(** Every check of a run of vendor A whose ballot numbers are [index]. *)
Definition scc_checks (ts : list transformer) (df : RawFrame) (index : list Z)
  : Prop :=
  imprinted_check (id_frame df index)
  /\ ballot_type_check (id_frame df index)
  /\ precinct_check (id_frame df index)
  /\ forall wide,
       update_column_index (wide_frame df index) = Ok wide ->
       recognized ts (levels (map (@l_contest _ _) (tidy wide))).

(** Every contest description of the manifest of vendor B is recognized
    by the chain. *)
Definition sf_checks (ts : list transformer) (cd : list Sf.JContestDef) : Prop :=
  forall c, In c cd -> exists key, transform (Sf.cd_Description c) ts = Ok key.

(** The ballot of [SccSpec.same_number] with a ballot type whose two
    copies differ. *)
Definition bad_ballot_type : RawFrame :=
  MkRawFrame
    [MkRawId (SccSpec.wrapped (py "1")) (SccSpec.wrapped (py "1"))
             (SccSpec.wrapped (py "2")) (SccSpec.wrapped (py "3"))
             (SccSpec.wrapped (py "1-2-3")) (SccSpec.text "Election Day")
             (SccSpec.text "007 (7-2)") (SccSpec.text "Vote Center (VBM)")]
    (raw_marks SccSpec.same_number).

End ChecksSpec.

(** ** The Office table *)

Module OfficeSpec.

Import Scc.

(** The row of the Office table for the tuple [k] with the id [o]. *)
Definition office_row (k : office_key) (o : Z) : OfficeRow :=
  let '(l, j, f, d) := k in MkOfficeRow o l j f d.

(** The distinct tuples of the contests, in the order they are first
    met. *)
Definition distinct_keys (keys : list office_key) : list office_key :=
  snd (factorize key_eqb keys).

(** The rows met so far are those of the tuples met so far, each with
    its code. *)
Definition rows_of (u : list office_key) (seen : list OfficeRow) : Prop :=
  forall x o, In (office_row x o) seen
              <-> exists c, index_of key_eqb x u = Some c /\ o = int16 (Z.of_nat c).

(** Three contests, the first and the last for the same office. *)
Definition three_contests : list office_key :=
  [(py "County", py "Santa Clara", py "Sheriff", py "At Large");
   (py "City", py "San Jose", py "Mayor", py "At Large");
   (py "County", py "Santa Clara", py "Sheriff", py "At Large")].

End OfficeSpec.

(** ** Sorted levels and the ids they give *)

Module LevelSpec.

Import Scc.

(** [a < b] in the order of Python strings. *)
Definition str_lt (a b : str) : Prop := str_ltb a b = true.

(** Each element is at most the next one. *)
Definition sorted_by {A} (leb : A -> A -> bool) (l : list A) : Prop :=
  Sorted (fun a b => leb a b = true) l.

(** The contest id that [split_contest] puts in the place of the
    description [x] of the long frame [df]. *)
Definition contest_id_of (df : list (Long str str)) (x : str) : Z :=
  relevel (levels (map (@l_contest _ _) df))
          (level_ids (length (levels (map (@l_contest _ _) df)))) x.

(** The candidate id that [split_candidate] puts in the place of the
    label [x] of the long frame [df]. *)
Definition candidate_id_of {C} (df : list (Long C str)) (x : str) : Z :=
  relevel (levels (map (@l_candidate _ _) df))
          (level_ids (length (levels (map (@l_candidate _ _) df)))) x.

(** The order of the rows of the Mark table: by ballot, then contest,
    then rank. *)
Definition mark_leb (a b : MarkRow) : bool :=
  pair_leb Z.leb Z.eqb (pair_leb Z.leb Z.eqb Z.leb)
    (l_cvr_id a, (l_contest a, l_rank a))
    (l_cvr_id b, (l_contest b, l_rank b)).

(** A long frame of two ballots and two contests, the contest of the
    first ballot being the later one in the order of strings. *)
Definition long_frame : list (Long str str) :=
  [MkLong 1 (py "Mayor (Vote For=1)") (py "Bob;DEM") 1;
   MkLong 2 (py "Auditor, Short Term (Vote For=2)") (py "Ann;") 1].

(** What [split_contest] and [split_candidate] make of it. *)
Definition contest_split
  : list ContestRow * list OfficeRow * list (Long Z str) :=
  Eval cbv in
    match split_contest [TermSpec.county_office] long_frame with
    | Ok r => r
    | Raise _ => ([], [], [])
    end.

Definition candidate_split : list CandidateRow * list (Long Z Z) :=
  Eval cbv in
    match split_candidate (snd contest_split) with
    | Ok r => r
    | Raise _ => ([], [])
    end.

End LevelSpec.

(** ** What the loop of [read_raw] reads *)

Module ReadSpec.

Import Sf.

(** The member of the archive is a ballot file. *)
Definition is_export (f : ZipEntry) : bool :=
  startswith (filename f) (py "CvrExport_").

(** The cards of the ballot files in the order of the archive, each with
    the name of its file. *)
Definition cards_of (files : list ZipEntry) : list (str * JCard) :=
  flat_map (fun f =>
              if is_export f
              then map (pair (filename f)) (flat_map Cards (Sessions (content f)))
              else [])
           files.

(** The rows of [mark_data] of the card with the ballot id [cvr]. *)
Definition marks_of (cvr : Z) (card : JCard) : list MarkRow :=
  flat_map (fun contest =>
              map (fun mark =>
                     MkMarkRow cvr (Id contest) (CandidateId mark) (Rank mark)
                               (IsVote mark) (IsAmbiguous mark))
                  (Marks contest))
           (Contests card).

(** The elements of a list with the numbers [from], [from + 1], ... *)
Fixpoint number {A} (from : Z) (l : list A) : list (Z * A) :=
  match l with
  | [] => []
  | x :: t => (from, x) :: number (from + 1) t
  end.

(** The variables of the loop after the cards [cs] have been read. *)
Definition load (st : ReadState) (cs : list (str * JCard)) : ReadState :=
  MkReadState
    (next_cvr_id st + Z.of_nat (length cs))
    (cvr_data st ++ map (fun p => (fst p, fst (snd p))) (number (next_cvr_id st) cs))
    (mark_data st
     ++ flat_map (fun p => marks_of (fst p) (snd (snd p))) (number (next_cvr_id st) cs)).

End ReadSpec.

(** ** The cells of the wide frame *)

Module TidySpec.

Import Scc.

(** What the cell at the place [p] of the column [c] gives to the long
    frame: a row with the ballot id at the place [p] of the index, the
    labels of the column and the cell as [np.int8] when the cell is not
    missing, and nothing when it is. *)
Definition cell_row (index : list Z) (c : str * str * list (option Z)) (p : nat)
  : list (Long str str) :=
  match nth_error index p, nth_error (snd c) p with
  | Some i, Some (Some r) => [MkLong i (fst (fst c)) (snd (fst c)) (int8 r)]
  | _, _ => []
  end.

(** One row for every cell that is not missing, column after column and
    place after place. *)
Definition cell_rows (index : list Z) (cols : list (str * str * list (option Z)))
  : list (Long str str) :=
  flat_map (fun c => flat_map (cell_row index c) (seq 0 (length (snd c)))) cols.

(** The order of the rows of the long frame: by ballot, then contest,
    then candidate. *)
Definition long_leb (a b : Long str str) : bool :=
  pair_leb Z.leb Z.eqb (pair_leb str_leb str_eqb str_leb)
    (l_cvr_id a, (l_contest a, l_candidate a))
    (l_cvr_id b, (l_contest b, l_candidate b)).

End TidySpec.

(** ** The rows of the tables *)

Module TableSpec.

Import Scc.

(** The row of the Mark table made from a row of the long frame [long]:
    the descriptions give way to the ids. *)
Definition mark_of (long : list (Long str str)) (m : Long str str) : MarkRow :=
  MkLong (l_cvr_id m) (LevelSpec.contest_id_of long (l_contest m))
         (LevelSpec.candidate_id_of long (l_candidate m)) (l_rank m).

(** A row of [mark_data] of vendor B with its columns typed. *)
Definition typed_mark (m : Sf.MarkRow) : Sf.MarkRow :=
  Sf.MkMarkRow (int32 (Sf.cvr_id m)) (int16 (Sf.contest_id m))
               (int16 (Sf.candidate_id m)) (int8 (Sf.rank m))
               (Sf.is_vote m) (Sf.is_ambiguous m).

(** A record of the candidate manifest with its columns typed and
    renamed, and the party that vendor B does not give. *)
Definition typed_candidate (c : Sf.JCandidateDef) : Sf.CandidateRow :=
  Sf.MkCandidateRow (int16 (Sf.nd_Id c)) (Sf.nd_Description c) (Sf.nd_ExternalId c)
                    (int16 (Sf.nd_ContestId c)) (Sf.nd_Type c) (Sf.nd_Disabled c) None.

(** The order of the rows of the Mark table of vendor B. *)
Definition sf_mark_leb (a b : Sf.MarkRow) : bool :=
  pair_leb Z.leb Z.eqb (pair_leb Z.leb Z.eqb Z.leb)
    (Sf.cvr_id a, (Sf.contest_id a, Sf.rank a))
    (Sf.cvr_id b, (Sf.contest_id b, Sf.rank b)).

(** The orders of the Candidate and Contest tables of vendor B. *)
Definition candidate_leb (a b : Sf.CandidateRow) : bool :=
  Z.leb (Sf.n_candidate_id a) (Sf.n_candidate_id b).

Definition contest_leb (a b : Sf.ContestRow) : bool :=
  Z.leb (Sf.t_contest_id a) (Sf.t_contest_id b).

End TableSpec.

(** ** The columns of the wide frame *)

Module ColumnSpec.

Import Scc.

(** The name and the party that [update_column_index] makes of the
    headers of a column. *)
Definition candidate_name (h : Header) : str :=
  sub bonds_re (fun g => nth 0 g []) (blank_unnamed (h_candidate h)).

Definition candidate_party (h : Header) : str := blank_unnamed (h_party h).

(** A text of one digit or more. *)
Definition is_number (ds : str) : Prop := ds <> [] /\ forallb is_digit ds = true.

(** The column [col] of the rows [ids] has been read as text: one of its
    cells is a string, or there is no row. *)
Definition text_column (ids : list RawId) (col : RawId -> cell) : Prop :=
  ids = [] \/ exists r s, In r ids /\ col r = Str s.

(** The first row of [SccSpec.same_number] with a batch id that is not
    wrapped as text but is the number 2. *)
Definition batch_as_number : RawFrame :=
  MkRawFrame
    [MkRawId (SccSpec.wrapped (py "1")) (SccSpec.wrapped (py "1")) (Int 2)
             (SccSpec.wrapped (py "3")) (SccSpec.wrapped (py "1-2-3"))
             (SccSpec.text "Election Day") (SccSpec.text "007 (7-2)")
             (SccSpec.text "Vote Center (Vote Center)")]
    (raw_marks SccSpec.same_number).

(** The export of [SccSpec.same_number] without the column of the
    write-in line. *)
Definition no_write_in : RawFrame :=
  MkRawFrame (raw_ids SccSpec.same_number)
    [(SccSpec.header "Mayor (Vote For=1)" "Bob" "DEM", [Some 1%Z; None]);
     (SccSpec.header "Mayor (Vote For=1)" "Ann" "REP", [None; Some 1%Z])].

End ColumnSpec.

(** ** Ballot types *)

Module BallotTypeSpec.

(** A name of one character or more, without newline and without opening
    parenthesis. *)
Definition plain (s : str) : Prop :=
  s <> [] /\ forallb dot s = true /\ ~ In "("%char s.

(** A ballot type as the export writes it: a name, then a name in
    parentheses. *)
Definition twice (p : str * str) : str := fst p ++ py " (" ++ snd p ++ py ")".

End BallotTypeSpec.

(** ** Precinct portions *)

Module PrecinctSpec.

(** The parts of a precinct portion as the export writes it: leading
    zeros, the precinct number, and in parentheses the precinct number
    again with, after a dash, the number of the portion. *)
Record Portion : Type := MkPortion {
  zeros : str;
  number : str;
  first : str;
  dash : bool;
  second : str
}.

Definition portion_text (p : Portion) : str :=
  zeros p ++ number p ++ py " (" ++ first p
  ++ (if dash p then py "-" else []) ++ second p ++ py ")".

(** The zeros are zeros, the two precinct numbers are digits, the first
    of them without a leading zero, and the portion is digits that are
    there only after a dash. *)
Definition well_formed (p : Portion) : Prop :=
  forallb (Ascii.eqb "0") (zeros p) = true
  /\ ColumnSpec.is_number (number p)
  /\ hd_error (number p) <> Some "0"%char
  /\ ColumnSpec.is_number (first p)
  /\ forallb is_digit (second p) = true
  /\ (dash p = false -> second p = []).

(** The portion 2 of precinct 7, and precinct 8 without portion. *)
Definition two_portions : list Portion :=
  [MkPortion (py "00") (py "7") (py "7") true (py "2");
   MkPortion (py "00") (py "8") (py "8") false []].

End PrecinctSpec.

(** ** The members of the archive that are read *)

Module MembersSpec.

Import Sf.

(** The members that the loop of [read_raw] reaches under the limit
    [nfiles]. *)
Definition members_read (files : list ZipEntry) (nfiles : option nat)
  : list ZipEntry :=
  match nfiles with
  | Some n => firstn n files
  | None => files
  end.

End MembersSpec.

(** ** Many contests *)

Module ManySpec.

Import Scc.

(** [i] times the letter a, then [suffix]. *)
Definition numbered (suffix : str) (i : nat) : str := repeat "a"%char i ++ suffix.

Definition vote_for_one : str := py " (Vote For=1)".

(** The ballot [i] marks, in a contest of its own, a candidate of its
    own: the names are the letter a, [i + 1] times. *)
Definition mark (i : nat) : Long str str :=
  MkLong (Z.of_nat i) (numbered vote_for_one (S i)) (numbered (py ";") (S i)) 1.

(** The long frame of the ballots 0 to [n - 1]. *)
Definition frame (n : nat) : list (Long str str) := map mark (seq 0 n).

(** What [split_contest] and [split_candidate] make of the frame while
    the ids are kept apart: the contest, the office and the candidate of
    the ballot [i] have the id [i] as [np.int16]. *)
Definition contest_rows (n : nat) : list ContestRow :=
  map (fun i => MkContestRow (int16 (Z.of_nat i)) (py "Full") (int8 1) false
                             (int16 (Z.of_nat i)))
      (seq 0 n).

Definition office_rows (n : nat) : list OfficeRow :=
  map (fun i => MkOfficeRow (int16 (Z.of_nat i)) (py "County") (py "Santa Clara")
                            (repeat "a"%char (S i)) (py "At Large"))
      (seq 0 n).

Definition long2 (n : nat) : list (Long Z str) :=
  map (fun i => MkLong (Z.of_nat i) (int16 (Z.of_nat i)) (numbered (py ";") (S i)) 1%Z)
      (seq 0 n).

Definition candidate_rows (n : nat) : list CandidateRow :=
  map (fun i => MkCandidateRow (int16 (Z.of_nat i)) (Some (repeat "a"%char (S i))) None)
      (seq 0 n).

Definition long3 (n : nat) : list (Long Z Z) :=
  map (fun i => MkLong (Z.of_nat i) (int16 (Z.of_nat i)) (int16 (Z.of_nat i)) 1%Z)
      (seq 0 n).

(** One contest more than [np.int16] has values that are not negative. *)
Definition many : nat := Z.to_nat 32769.

End ManySpec.

(** * Properties *)

Arguments Ascii.eqb : simpl never.
Arguments nat_of_ascii : simpl never.

(** ** Strings *)

Section StringFacts.

Lemma str_eqb_eq (a b : str) : str_eqb a b = true <-> a = b.
Proof.
  unfold str_eqb. destruct (list_eq_dec ascii_dec a b); split; congruence.
Qed.

Lemma str_eqb_refl (a : str) : str_eqb a a = true.
Proof. apply str_eqb_eq. reflexivity. Qed.

Lemma str_eqb_neq (a b : str) : str_eqb a b = false <-> a <> b.
Proof.
  unfold str_eqb. destruct (list_eq_dec ascii_dec a b); split; congruence.
Qed.

Lemma strip_prefix_app (l r : str) : strip_prefix l (l ++ r) = Some r.
Proof.
  induction l as [|a l IH]; simpl; [reflexivity|].
  rewrite Ascii.eqb_refl. exact IH.
Qed.

Lemma strip_prefix_inv (l s r : str) : strip_prefix l s = Some r -> s = l ++ r.
Proof.
  revert s. induction l as [|a l IH]; simpl; intros s H.
  - congruence.
  - destruct s as [|b s]; [discriminate|].
    destruct (Ascii.eqb a b) eqn:E; [|discriminate].
    apply Ascii.eqb_eq in E. subst b. f_equal. apply IH. exact H.
Qed.

Lemma strip_prefix_spec (l s r : str) : strip_prefix l s = Some r <-> s = l ++ r.
Proof.
  split; [apply strip_prefix_inv|]. intros ->. apply strip_prefix_app.
Qed.

End StringFacts.

(** ** Step 1 of the standardization: runs of spaces *)

Module Spaces.

Import SccText SpacesSpec.

Lemma collapse_two (t : str) :
  collapse_spaces (space :: space :: t) = space :: collapse_spaces t.
Proof. reflexivity. Qed.

Lemma collapse_one (c : ascii) (t : str) :
  is_space c && match t with b :: _ => is_space b | [] => false end = false ->
  collapse_spaces (c :: t) = c :: collapse_spaces t.
Proof.
  unfold collapse_spaces, replace, is_space, space. intros H. simpl.
  unfold startswith. simpl.
  rewrite (Ascii.eqb_sym " " c).
  destruct (Ascii.eqb c " ") eqn:Ec; [|reflexivity].
  destruct t as [|b t]; [reflexivity|].
  rewrite (Ascii.eqb_sym " " b). simpl in H. rewrite H. reflexivity.
Qed.

Lemma collapse_head (s : str) : hd_error (collapse_spaces s) = hd_error s.
Proof.
  destruct s as [|c t]; [reflexivity|].
  destruct (is_space c && match t with b :: _ => is_space b | [] => false end) eqn:E.
  - apply andb_prop in E. destruct E as [Ec Et].
    destruct t as [|b t]; [discriminate|].
    apply Ascii.eqb_eq in Ec, Et. subst. reflexivity.
  - rewrite collapse_one by exact E. reflexivity.
Qed.

Lemma head_space (s : str) :
  match s with b :: _ => is_space b | [] => false end
  = match hd_error s with Some b => is_space b | None => false end.
Proof. destruct s; reflexivity. Qed.

Lemma no_adjacent_after_collapse_len (n : nat) :
  forall s, length s <= n -> three_spaces s = false ->
            adjacent_spaces (collapse_spaces s) = false.
Proof.
  induction n as [|n IH]; intros s Hlen H3.
  - destruct s; [reflexivity | simpl in Hlen; lia].
  - destruct s as [|c t]; [reflexivity|].
    simpl in Hlen. simpl in H3. apply orb_false_elim in H3. destruct H3 as [Hc Ht].
    destruct (is_space c && match t with b :: _ => is_space b | [] => false end) eqn:E.
    + apply andb_prop in E. destruct E as [Ec Et].
      destruct t as [|b u]; [discriminate|].
      apply Ascii.eqb_eq in Ec, Et. subst c b.
      rewrite collapse_two. simpl.
      simpl in Ht. apply orb_false_elim in Ht. destruct Ht as [_ Hu].
      rewrite (IH u); [|simpl in Hlen; lia|exact Hu].
      rewrite head_space, collapse_head, <- head_space.
      destruct u as [|d u]; [reflexivity|].
      change (is_space space) with true in Hc. simpl in Hc.
      rewrite Hc. reflexivity.
    + rewrite collapse_one by exact E. simpl.
      rewrite (IH t); [|lia|exact Ht].
      rewrite head_space, collapse_head, <- head_space, E. reflexivity.
Qed.

End Spaces.

(** C3 (counterexample).  A run of three spaces leaves two adjacent
    spaces: step 1 turns [a   b] (three spaces) into [a  b] (two). *)
Lemma C3_three_spaces_leave_two :
  SccText.collapse_spaces (py "a   b") = py "a  b"
  /\ SpacesSpec.adjacent_spaces (SccText.collapse_spaces (py "a   b")) = true.
Proof. split; reflexivity. Qed.

(** C3 (amended).  Step 1 replaces, in one pass from the left, each pair
    of adjacent spaces by one space: a description in which no three
    spaces are adjacent has no two adjacent spaces left when the vote-for
    and term suffixes are searched. *)
Theorem C3_collapse_spaces_no_adjacent (s : str) :
  SpacesSpec.three_spaces s = false ->
  SpacesSpec.adjacent_spaces (SccText.collapse_spaces s) = false.
Proof.
  intros H. apply (Spaces.no_adjacent_after_collapse_len (length s)).
  - apply Nat.le_refl.
  - exact H.
Qed.

Lemma C3_collapse_spaces_no_adjacent_witness :
  SpacesSpec.three_spaces (py "Member,  City  Council (Vote For=2)") = false
  /\ SpacesSpec.adjacent_spaces
       (SccText.collapse_spaces (py "Member,  City  Council (Vote For=2)")) = false.
Proof.
  split.
  - reflexivity.
  - apply (C3_collapse_spaces_no_adjacent (py "Member,  City  Council (Vote For=2)")).
    reflexivity.
Defined.

(** ** The imprinted id *)

Module ImprintedId.

Import SccId ImprintedSpec.

Lemma present_has_column (f : IdRow -> option cell) (df : df_id) :
  has_column f df -> present (map f df) = Some (map (fun r => cell_or_nan (f r)) df).
Proof.
  induction 1 as [|r df Hr _ IH]; simpl; [reflexivity|].
  destruct (f r) as [c|]; [|congruence]. rewrite IH. reflexivity.
Qed.

Lemma map2_map {A B C D} (f : B -> C -> D) (g : A -> B) (h : A -> C) (l : list A) :
  map2 f (map g l) (map h l) = map (fun x => f (g x) (h x)) l.
Proof.
  unfold map2. induction l as [|x l IH]; simpl; [reflexivity|]. rewrite IH. reflexivity.
Qed.

Lemma i_id_rows (df : df_id) :
  i_id (map TabulatorNum df) (map BatchId df) (map RecordId df) = map row_i_id df.
Proof.
  unfold i_id. rewrite map_map, map2_map, map_map, map2_map. reflexivity.
Qed.

Lemma all_rows_ok (df : df_id) :
  has_column ImprintedId df ->
  all (imprinted_id_ok (map (fun r => cell_or_nan (ImprintedId r)) df) (map row_i_id df))
  = forallb row_ok df.
Proof.
  intros H. unfold imprinted_id_ok. rewrite map2_map, map_map, map2_map.
  unfold all. induction H as [|r df Hr _ IH]; simpl; [reflexivity|].
  rewrite IH. f_equal. unfold row_ok.
  destruct (ImprintedId r); [reflexivity|congruence].
Qed.

Lemma cell_eqb_str (c : cell) (s : str) : cell_eqb c (Str s) = true <-> c = Str s.
Proof.
  destruct c as [x|z|]; simpl; split; try discriminate.
  - intros H. apply str_eqb_eq in H. congruence.
  - intros H. injection H as ->. apply str_eqb_refl.
Qed.

Lemma row_i_id_str (r : IdRow) (s : str) :
  row_i_id r = Str s <->
  exists t b c, TabulatorNum r = Str t /\ BatchId r = Str b /\ RecordId r = Str c
                /\ s = dashed t b c.
Proof.
  unfold row_i_id, dashed. split.
  - destruct (TabulatorNum r) as [t| |]; try discriminate.
    destruct (BatchId r) as [b| |]; try discriminate.
    destruct (RecordId r) as [c| |]; try discriminate.
    simpl. intros H. injection H as <-. exists t, b, c.
    repeat split. rewrite <- !app_assoc. reflexivity.
  - intros (t & b & c & -> & -> & -> & ->). simpl.
    rewrite <- !app_assoc. reflexivity.
Qed.

Lemma row_i_id_not_int (r : IdRow) (z : Z) : row_i_id r <> Int z.
Proof.
  unfold row_i_id.
  destruct (TabulatorNum r), (BatchId r), (RecordId r); discriminate.
Qed.

Lemma row_ok_matches (r : IdRow) : row_ok r = true <-> imprinted_matches r.
Proof.
  unfold row_ok, imprinted_matches. split.
  - destruct (ImprintedId r) as [imp|]; [|discriminate].
    intros H. apply orb_prop in H. destruct H as [H|H].
    + destruct (row_i_id r) as [x|z|] eqn:E;
        [|exfalso; exact (row_i_id_not_int _ _ E)|destruct imp; discriminate].
      apply cell_eqb_str in H. subst imp.
      apply row_i_id_str in E. destruct E as (t & b & c & Ht & Hb & Hc & ->).
      right. exists t, b, c. auto.
    + apply cell_eqb_str in H. subst imp. left. reflexivity.
  - intros [H | (t & b & c & Ht & Hb & Hc & H)]; rewrite H.
    + apply orb_true_intro. right. reflexivity.
    + apply orb_true_intro. left.
      assert (E : row_i_id r = Str (dashed t b c)).
      { apply row_i_id_str. exists t, b, c. auto. }
      rewrite E. simpl. apply str_eqb_refl.
Qed.

Lemma forallb_rows_ok (df : df_id) :
  forallb row_ok df = true <-> Forall imprinted_matches df.
Proof.
  rewrite forallb_forall, Forall_forall. split; intros H r Hr.
  - apply row_ok_matches. auto.
  - apply row_ok_matches. auto.
Qed.

(** What lines 71 to 75 return, by the outcome of the assertion. *)
Lemma check_imprinted_id_eq (df : df_id) :
  has_column ImprintedId df ->
  check_imprinted_id df
  = if forallb row_ok df
    then (Ok tt, map (with_ImprintedId None) df)
    else (Raise (AssertionError "ImprintedId mismatch"), df).
Proof.
  intros H. unfold check_imprinted_id, column, bind, get.
  rewrite (present_has_column _ _ H). unfold ret at 1.
  rewrite i_id_rows, (all_rows_ok _ H).
  destruct (forallb row_ok df); reflexivity.
Qed.

End ImprintedId.

(** C2.  On a frame that has the column [ImprintedId], the check of
    lines 71 to 75 succeeds, dropping the column, when every ballot's
    imprinted id is empty or is [<tabulator>-<batch>-<record>]; with any
    other value it raises the assertion error [ImprintedId mismatch],
    which also ends [check_and_clean_id_invariants], and the frame still
    has the column. *)
Theorem C2_imprinted_id_validation (df : SccId.df_id) :
  ImprintedSpec.has_column SccId.ImprintedId df ->
  (Forall ImprintedSpec.imprinted_matches df <->
   SccId.check_imprinted_id df = (Ok tt, map (SccId.with_ImprintedId None) df))
  /\ (~ Forall ImprintedSpec.imprinted_matches df <->
      SccId.check_imprinted_id df
      = (Raise (AssertionError "ImprintedId mismatch"), df))
  /\ (~ Forall ImprintedSpec.imprinted_matches df ->
      SccId.check_and_clean_id_invariants df
      = (Raise (AssertionError "ImprintedId mismatch"), df)).
Proof.
  intros H. pose proof (ImprintedId.check_imprinted_id_eq df H) as E.
  pose proof (ImprintedId.forallb_rows_ok df) as F.
  destruct (forallb ImprintedSpec.row_ok df) eqn:B.
  - assert (Hall : Forall ImprintedSpec.imprinted_matches df) by (apply F; reflexivity).
    repeat split; intros; try tauto; try congruence.
  - assert (Hn : ~ Forall ImprintedSpec.imprinted_matches df).
    { intros Hall. apply F in Hall. discriminate. }
    repeat split; intros; try tauto; try congruence.
    unfold SccId.check_and_clean_id_invariants, SccId.bind at 1. rewrite E. reflexivity.
Qed.

Lemma C2_imprinted_id_validation_witness :
  ImprintedSpec.has_column SccId.ImprintedId ImprintedSpec.one_ballot
  /\ SccId.check_imprinted_id ImprintedSpec.one_ballot
     = (Ok tt, map (SccId.with_ImprintedId None) ImprintedSpec.one_ballot).
Proof.
  assert (H : ImprintedSpec.has_column SccId.ImprintedId ImprintedSpec.one_ballot).
  { repeat constructor. discriminate. }
  split.
  - exact H.
  - apply (proj1 (C2_imprinted_id_validation _ H)).
    constructor; [|constructor]. right.
    exists (py "1"), (py "2"), (py "3"). repeat split.
Defined.

(** ** The matcher *)

Module ReFacts.

Section Greedy.

Context {A : Type} (cls : ascii -> bool) (k : str -> option A).

(** A repetition that matches has taken a prefix in the class and left
    the rest of the pattern a suffix it matches. *)
Lemma greedy_sound (s : str) (r : A) :
  greedy cls k s = Some r ->
  exists a b, s = a ++ b /\ forallb cls a = true /\ k b = Some r.
Proof.
  induction s as [|c t IH]; simpl; intros H.
  - exists [], []. auto.
  - destruct (cls c) eqn:Ec.
    + destruct (greedy cls k t) as [r0|] eqn:Et.
      * injection H as ->. destruct (IH eq_refl) as (a & b & -> & Ha & Hb).
        exists (c :: a), b. simpl. rewrite Ec. auto.
      * exists [], (c :: t). auto.
    + exists [], (c :: t). auto.
Qed.

Lemma greedy_here (b : str) (r : A) :
  k b = Some r -> exists r', greedy cls k b = Some r'.
Proof.
  intros H. destruct b as [|c t]; simpl; [eauto|].
  destruct (cls c); [|eauto].
  destruct (greedy cls k t); eauto.
Qed.

(** Where the rest of the pattern matches after some prefix in the
    class, the repetition matches. *)
Lemma greedy_complete (a b : str) (r : A) :
  forallb cls a = true -> k b = Some r ->
  exists r', greedy cls k (a ++ b) = Some r'.
Proof.
  induction a as [|x a IH]; simpl; intros Ha Hb.
  - eapply greedy_here; eauto.
  - apply andb_prop in Ha. destruct Ha as [Hx Ha]. rewrite Hx.
    destruct (IH Ha Hb) as [r' ->]. eauto.
Qed.

End Greedy.

Section Search.

Variable p : pattern.

Lemma search_from_inv (s : str) : forall i m,
  search_from p i s = Some m ->
  exists a b g rest,
    s = a ++ b /\ rmatch p b [] [] = Some (g, rest)
    /\ m_start m = i + length a /\ m_groups m = g.
Proof.
  induction s as [|c t IH]; intros i m H; simpl in H.
  - destruct (rmatch p [] [] []) as [[g rest]|] eqn:E; [|discriminate].
    injection H as <-. exists [], [], g, rest. simpl. auto.
  - destruct (rmatch p (c :: t) [] []) as [[g rest]|] eqn:E.
    + injection H as <-. exists [], (c :: t), g, rest. simpl. auto.
    + destruct (IH _ _ H) as (a & b & g & rest & -> & Hm & Hs & Hg).
      exists (c :: a), b, g, rest. simpl. repeat split; auto. lia.
Qed.

(** The search returns the match at the first position that has one. *)
Lemma search_from_first (a b : str) (g : list str) (rest : str) : forall i,
  (forall a1 a2, a = a1 ++ a2 -> a2 <> [] -> rmatch p (a2 ++ b) [] [] = None) ->
  rmatch p b [] [] = Some (g, rest) ->
  search_from p i (a ++ b)
  = Some (MkMatch (i + length a) (i + length a + (length b - length rest)) g).
Proof.
  induction a as [|x a IH]; intros i Hbefore Hb.
  - simpl. destruct b; simpl; rewrite Hb; rewrite !Nat.add_0_r; reflexivity.
  - assert (E : rmatch p ((x :: a) ++ b) [] [] = None).
    { apply (Hbefore [] (x :: a)); [reflexivity|discriminate]. }
    simpl in E. simpl. rewrite E.
    rewrite IH; auto.
    + simpl length. rewrite <- !Nat.add_succ_comm. reflexivity.
    + intros a1 a2 -> Hne. apply (Hbefore (x :: a1) a2); auto.
Qed.

Lemma search_from_none (s : str) : forall i,
  (forall a b, s = a ++ b -> rmatch p b [] [] = None) ->
  search_from p i s = None.
Proof.
  induction s as [|c t IH]; intros i H; simpl.
  - rewrite (H [] [] eq_refl). reflexivity.
  - rewrite (H [] (c :: t) eq_refl). apply IH.
    intros a b ->. apply (H (c :: a) b). reflexivity.
Qed.

End Search.

Lemma firstn_consumed {A} (a b : list A) :
  firstn (length (a ++ b) - length b) (a ++ b) = a.
Proof.
  rewrite length_app, Nat.add_sub. rewrite firstn_app, Nat.sub_diag, firstn_all.
  simpl. apply app_nil_r.
Qed.

End ReFacts.

(** ** The term suffix *)

Module TermFacts.

Import SccText ReFacts TermSpec.

Lemma at_end_spec (e : str) : at_end e = true <-> tail_ok e.
Proof.
  unfold tail_ok. destruct e as [|c [|d e]]; simpl; split; intros H; auto;
    try discriminate.
  - apply Ascii.eqb_eq in H. subst. auto.
  - destruct H as [H|H]; [discriminate|]. injection H as ->. apply Ascii.eqb_refl.
  - destruct H as [H|H]; discriminate.
Qed.

Lemma rmatch_term_re (u : str) :
  rmatch term_re u [] []
  = match strip_prefix (py ", ") u with
    | Some s0 => greedy not_comma (term_tail s0) s0
    | None => None
    end.
Proof.
  unfold term_re. cbn [rmatch].
  destruct (strip_prefix (py ", ") u) as [s0|]; reflexivity.
Qed.

Lemma term_tail_inv (s0 s : str) (g : list str) (rest : str) :
  term_tail s0 s = Some (g, rest) ->
  s = py " Term" ++ rest /\ tail_ok rest
  /\ g = [firstn (length s0 - length s) s0].
Proof.
  unfold term_tail. destruct (strip_prefix (py " Term") s) as [e|] eqn:E; [|discriminate].
  destruct (at_end e) eqn:Ee; [|discriminate].
  intros H. injection H as <- <-.
  apply strip_prefix_inv in E. apply at_end_spec in Ee. auto.
Qed.

(** The pattern matches at the start of [u] only when [u] is a comma, a
    space, a label without comma and [ Term], up to a final newline. *)
Lemma term_match_inv (u : str) (g : list str) (rest : str) :
  rmatch term_re u [] [] = Some (g, rest) ->
  exists t, forallb not_comma t = true /\ g = [t] /\ tail_ok rest
            /\ u = py ", " ++ t ++ py " Term" ++ rest.
Proof.
  rewrite rmatch_term_re.
  destruct (strip_prefix (py ", ") u) as [s0|] eqn:E; [|discriminate].
  apply strip_prefix_inv in E. intros H.
  apply greedy_sound in H. destruct H as (a & b & -> & Ha & Hb).
  apply term_tail_inv in Hb. destruct Hb as (-> & He & ->).
  exists a. rewrite firstn_consumed. auto.
Qed.

Lemma last_char_differs (x y : str) (c d : ascii) :
  c <> d -> x ++ [c] <> y ++ [d].
Proof.
  intros Hcd H. apply app_inj_tail in H. destruct H as [_ H]. auto.
Qed.

Lemma term_suffix_unique (a t e1 e2 : str) :
  tail_ok e1 -> tail_ok e2 ->
  a ++ py " Term" ++ e1 = t ++ py " Term" ++ e2 -> a = t /\ e1 = e2.
Proof.
  intros [->| ->] [->| ->] H.
  - rewrite !app_nil_r in H. apply app_inv_tail in H. auto.
  - exfalso.
    change (py " Term" ++ []) with (py " Ter" ++ ["m"%char]) in H.
    change (py " Term" ++ [newline]) with (py " Term" ++ [newline]) in H.
    rewrite !app_assoc in H. revert H. apply last_char_differs. discriminate.
  - exfalso.
    change (py " Term" ++ []) with (py " Ter" ++ ["m"%char]) in H.
    rewrite !app_assoc in H. revert H. apply last_char_differs. discriminate.
  - apply app_inv_tail in H. auto.
Qed.

(** Conversely the pattern matches such a string, with the label as its
    group. *)
Lemma term_match_here (t e : str) :
  forallb not_comma t = true -> tail_ok e ->
  rmatch term_re (py ", " ++ t ++ py " Term" ++ e) [] [] = Some ([t], e).
Proof.
  intros Ht He. rewrite rmatch_term_re, strip_prefix_app.
  assert (Hk : term_tail (t ++ py " Term" ++ e) (py " Term" ++ e)
               = Some ([t], e)).
  { unfold term_tail. rewrite strip_prefix_app.
    apply at_end_spec in He. rewrite He, firstn_consumed. reflexivity. }
  destruct (greedy_complete not_comma _ _ _ _ Ht Hk) as [[g rest] Hg].
  rewrite Hg. pose proof Hg as Hs.
  apply greedy_sound in Hs. destruct Hs as (a & b & Hab & Ha & Hb).
  apply term_tail_inv in Hb. destruct Hb as (-> & Hrest & ->).
  apply term_suffix_unique in Hab; auto. destruct Hab as [<- <-].
  rewrite firstn_consumed. reflexivity.
Qed.

Lemma not_comma_suffix (t e : str) :
  forallb not_comma t = true -> tail_ok e ->
  forallb not_comma (t ++ py " Term" ++ e) = true.
Proof.
  intros Ht [->| ->]; rewrite forallb_app, Ht; reflexivity.
Qed.

(** No earlier position matches: its comma would have to be followed by
    another comma-free label, which the comma of the suffix forbids. *)
Lemma no_match_before (a2 t e : str) :
  a2 <> [] -> forallb not_comma t = true ->
  rmatch term_re (a2 ++ py ", " ++ t ++ py " Term" ++ e) [] [] = None.
Proof.
  intros Hne Ht.
  destruct (rmatch term_re (a2 ++ py ", " ++ t ++ py " Term" ++ e) [] [])
    as [[g rest]|] eqn:E; [|reflexivity].
  exfalso. apply term_match_inv in E.
  destruct E as (t' & Ht' & _ & Hrest & Hu).
  destruct a2 as [|c a2]; [congruence|].
  change (py ", " ++ t' ++ py " Term" ++ rest)
    with (","%char :: (" "%char :: t' ++ py " Term" ++ rest)) in Hu.
  change ((c :: a2) ++ py ", " ++ t ++ py " Term" ++ e)
    with (c :: (a2 ++ py ", " ++ t ++ py " Term" ++ e)) in Hu.
  injection Hu as _ Hu.
  assert (Hc : forallb not_comma (a2 ++ py ", " ++ t ++ py " Term" ++ e) = true).
  { simpl. simpl in Hu. rewrite Hu.
    change (forallb not_comma ((" "%char :: t') ++ py " Term" ++ rest) = true).
    apply not_comma_suffix; [|assumption].
    cbn [forallb]. rewrite Ht'. reflexivity. }
  rewrite forallb_app in Hc. apply andb_prop in Hc. destruct Hc as [_ Hc].
  change (py ", " ++ t ++ py " Term" ++ e)
    with (","%char :: (" "%char :: t ++ py " Term" ++ e)) in Hc.
  cbn [forallb] in Hc. discriminate.
Qed.

(** Step 3 on a string with the suffix. *)
Lemma split_term_suffix (p t e : str) :
  forallb not_comma t = true -> tail_ok e ->
  split_term (p ++ py ", " ++ t ++ py " Term" ++ e) = (t, p).
Proof.
  intros Ht He. unfold split_term, search.
  rewrite (search_from_first term_re p (py ", " ++ t ++ py " Term" ++ e) [t] e).
  - unfold group. simpl. f_equal.
    rewrite firstn_app, Nat.sub_diag, firstn_all. simpl. apply app_nil_r.
  - intros a1 a2 _ Hne. apply no_match_before; assumption.
  - apply term_match_here; assumption.
Qed.

(** Step 3 on a string without the suffix. *)
Lemma split_term_full (s : str) :
  ~ has_term_suffix s -> split_term s = (py "Full", s).
Proof.
  intros Hno. unfold split_term, search.
  rewrite search_from_none; [reflexivity|].
  intros a b ->.
  destruct (rmatch term_re b [] []) as [[g rest]|] eqn:E; [|reflexivity].
  exfalso. apply Hno. apply term_match_inv in E.
  destruct E as (t & Ht & _ & Hrest & ->).
  exists a, t, rest. auto.
Qed.

(** What step 3 returns in either case. *)
Lemma split_term_cases (s : str) :
  (exists p t e, forallb not_comma t = true /\ tail_ok e
                 /\ s = p ++ py ", " ++ t ++ py " Term" ++ e
                 /\ split_term s = (t, p))
  \/ split_term s = (py "Full", s).
Proof.
  unfold split_term, search.
  destruct (search_from term_re 0 s) as [m|] eqn:E; [left|right; reflexivity].
  pose proof E as E'. apply search_from_inv in E'.
  destruct E' as (a & b & g & rest & -> & Hm & Hs & Hg).
  apply term_match_inv in Hm. destruct Hm as (t & Ht & -> & Hrest & ->).
  exists a, t, rest. repeat split; auto.
  pose proof (split_term_suffix a t rest Ht Hrest) as F.
  unfold split_term, search in F. rewrite E in F. exact F.
Qed.

End TermFacts.

(** ** The vote-for suffix and the chain *)

Module StandardizeFacts.

Import SccText ReFacts TermSpec TermFacts.

Lemma rmatch_vote_for_re (u : str) :
  rmatch vote_for_re u [] []
  = match strip_prefix (py " (Vote For=") u with
    | Some (c :: t) =>
        if digit c then greedy digit (vote_tail (c :: t)) t else None
    | _ => None
    end.
Proof.
  unfold vote_for_re. cbn [rmatch].
  destruct (strip_prefix (py " (Vote For=") u) as [[|c t]|]; reflexivity.
Qed.

(** The first pattern matches at the start of [u] only when [u] is
    [ (Vote For=], digits and the closing parenthesis, up to a final
    newline. *)
Lemma vote_match_inv (u : str) (g : list str) (rest : str) :
  rmatch vote_for_re u [] [] = Some (g, rest) ->
  exists ds, forallb digit ds = true /\ ds <> [] /\ g = [ds] /\ tail_ok rest
             /\ u = py " (Vote For=" ++ ds ++ py ")" ++ rest.
Proof.
  rewrite rmatch_vote_for_re.
  destruct (strip_prefix (py " (Vote For=") u) as [[|c t]|] eqn:E; try discriminate.
  apply strip_prefix_inv in E.
  destruct (digit c) eqn:Ec; [|discriminate]. intros H.
  apply greedy_sound in H. destruct H as (a & b & -> & Ha & Hb).
  unfold vote_tail in Hb.
  destruct (strip_prefix (py ")") b) as [e|] eqn:Eb; [|discriminate].
  destruct (at_end e) eqn:Ee; [|discriminate].
  injection Hb as <- <-. apply strip_prefix_inv in Eb. subst b.
  apply at_end_spec in Ee.
  exists (c :: a). repeat split.
  - simpl. rewrite Ec. exact Ha.
  - discriminate.
  - exact (f_equal (fun x => [x]) (firstn_consumed (c :: a) (py ")" ++ e))).
  - exact Ee.
  - exact E.
Qed.

Lemma digit_value (c : ascii) :
  is_digit c = true -> (0 <= Z.of_nat (nat_of_ascii c) - 48)%Z.
Proof.
  unfold is_digit. intros H. apply andb_prop in H. destruct H as [H _].
  apply Nat.leb_le in H. lia.
Qed.

Lemma int_of_digits_from (ds : str) : forall acc,
  forallb is_digit ds = true -> (0 <= acc)%Z ->
  (0 <= fold_left (fun acc c => 10 * acc + (Z.of_nat (nat_of_ascii c) - 48)) ds acc)%Z.
Proof.
  induction ds as [|c ds IH]; cbn [fold_left forallb]; intros acc H Hacc;
    [assumption|].
  apply andb_prop in H. destruct H as [Hc Hds].
  apply IH; [assumption|]. pose proof (digit_value c Hc). lia.
Qed.

(** [int] of a string of digits is not negative. *)
Lemma int_of_digits_nonneg (ds : str) :
  forallb is_digit ds = true -> (0 <= int_of_digits ds)%Z.
Proof.
  intros H. apply int_of_digits_from; [assumption|lia].
Qed.

Lemma split_vote_for_inv (c : str) (v : Z) (rest : str) :
  split_vote_for c = Ok (v, rest) ->
  exists ds e, forallb digit ds = true /\ ds <> [] /\ tail_ok e
               /\ c = rest ++ py " (Vote For=" ++ ds ++ py ")" ++ e
               /\ v = int_of_digits ds.
Proof.
  unfold split_vote_for, search.
  destruct (search_from vote_for_re 0 c) as [m|] eqn:E; [|discriminate].
  intros H. injection H as <- <-.
  apply search_from_inv in E.
  destruct E as (a & b & g & e & -> & Hm & Hs & Hg).
  apply vote_match_inv in Hm. destruct Hm as (ds & Hds & Hne & -> & He & ->).
  exists ds, e. repeat split; auto.
  - rewrite Hs. simpl. rewrite firstn_app, Nat.sub_diag, firstn_all. simpl.
    rewrite app_nil_r. reflexivity.
  - unfold group. rewrite Hg. reflexivity.
Qed.

(** A tuple that [transform] returns is the answer of a transformer of
    the chain. *)
Lemma transform_ok_inv (ts : list transformer) (s : str) (key : office_key) :
  transform s ts = Ok key -> exists t, In t ts /\ t s = Some key.
Proof.
  induction ts as [|t ts IH]; simpl; [discriminate|].
  destruct (t s) as [k|] eqn:E.
  - intros H. injection H as <-. exists t. auto.
  - intros H. destruct (IH H) as (t' & Hin & Ht'). exists t'. auto.
Qed.

(** [transform] raises exactly when every transformer declines. *)
Lemma transform_raise_iff (ts : list transformer) (s : str) :
  (forall t, In t ts -> t s = None)
  <-> transform s ts = Raise (UnrecognizedContestFormat s).
Proof.
  induction ts as [|t ts IH]; simpl.
  - split; [reflexivity|]. intros _ t [].
  - split.
    + intros H. rewrite (H t) by auto. apply IH. intros t' Ht'. apply H. auto.
    + destruct (t s) eqn:E; [discriminate|]. intros H t' [<-|Hin]; [exact E|].
      apply IH; assumption.
Qed.

(** [standardize] as steps 1 to 4 in a row. *)
Lemma standardize_steps (ts : list transformer) (c : str) (v : Z) (rest : str) :
  split_vote_for (collapse_spaces c) = Ok (v, rest) ->
  standardize ts c
  = rbind (transform (snd (split_term rest)) ts)
          (fun key => let '(l, j, o, d) := key in
                      Ok (l, j, o, d, fst (split_term rest), v)).
Proof.
  intros H. unfold standardize. rewrite H.
  destruct (split_term rest) as [t p]. simpl.
  destruct (transform p ts) as [[[[l j] o] d]|e]; reflexivity.
Qed.

End StandardizeFacts.

(** C5 (counterexample).  [City Council, Short Term] followed by a
    newline does not end with a term suffix, and yet the term is [Short],
    not [Full]: [$] also matches just before a newline that ends the
    string.  The description is what is left of
    [City Council, Short Term\n (Vote For=1)] after step 2. *)
Lemma C5_term_before_final_newline :
  (forall p t, TermSpec.short_term_newline <> p ++ py ", " ++ t ++ py " Term")
  /\ SccText.split_vote_for
       (SccText.collapse_spaces (TermSpec.short_term_newline ++ py " (Vote For=1)"))
     = Ok (1%Z, TermSpec.short_term_newline)
  /\ SccText.split_term TermSpec.short_term_newline = (py "Short", py "City Council")
  /\ SccText.standardize [TermSpec.county_office]
       (TermSpec.short_term_newline ++ py " (Vote For=1)")
     = Ok (py "County", py "Santa Clara", py "City Council", py "At Large",
           py "Short", 1%Z).
Proof.
  split; [|repeat split; reflexivity].
  intros p t H. unfold TermSpec.short_term_newline in H.
  change (py " Term") with (py " Ter" ++ ["m"%char]) in H.
  rewrite !app_assoc in H. revert H.
  apply TermFacts.last_char_differs. discriminate.
Qed.

(** C5 (amended).  After the vote-for suffix is stripped: if what remains
    ends with [, <Term> Term], where [<Term>] holds no comma, at its very
    end or just before a final newline, then [<Term>] is the term and the
    office parsing gets the text before the suffix; if it has no such
    suffix the term is [Full] and the office parsing gets it whole. *)
Theorem C5_term_suffix (ts : list transformer) (c : str) (v : Z) (rest : str) :
  SccText.split_vote_for (SccText.collapse_spaces c) = Ok (v, rest) ->
  (forall p t e,
      forallb not_comma t = true -> TermSpec.tail_ok e ->
      rest = p ++ py ", " ++ t ++ py " Term" ++ e ->
      SccText.split_term rest = (t, p)
      /\ SccText.standardize ts c
         = rbind (transform p ts)
                 (fun key => let '(l, j, o, d) := key in Ok (l, j, o, d, t, v)))
  /\ (~ TermSpec.has_term_suffix rest ->
      SccText.split_term rest = (py "Full", rest)
      /\ SccText.standardize ts c
         = rbind (transform rest ts)
                 (fun key => let '(l, j, o, d) := key in
                             Ok (l, j, o, d, py "Full", v))).
Proof.
  intros H. pose proof (StandardizeFacts.standardize_steps ts c v rest H) as S.
  split.
  - intros p t e Ht He ->.
    pose proof (TermFacts.split_term_suffix p t e Ht He) as E.
    rewrite E in S. split; [exact E|exact S].
  - intros Hno. pose proof (TermFacts.split_term_full rest Hno) as E.
    rewrite E in S. split; [exact E|exact S].
Qed.

Lemma C5_term_suffix_witness :
  SccText.split_vote_for
    (SccText.collapse_spaces (py "City Council, Short Term (Vote For=1)"))
  = Ok (1%Z, py "City Council, Short Term")
  /\ SccText.split_term (py "City Council, Short Term")
     = (py "Short", py "City Council")
  /\ SccText.standardize [TermSpec.county_office]
       (py "City Council, Short Term (Vote For=1)")
     = Ok (py "County", py "Santa Clara", py "City Council", py "At Large",
           py "Short", 1%Z).
Proof.
  assert (H : SccText.split_vote_for
                (SccText.collapse_spaces (py "City Council, Short Term (Vote For=1)"))
              = Ok (1%Z, py "City Council, Short Term")) by reflexivity.
  split; [exact H|].
  destruct (C5_term_suffix [TermSpec.county_office] _ _ _ H) as [Hs _].
  destruct (Hs (py "City Council") (py "Short") [] eq_refl (or_introl eq_refl) eq_refl)
    as [E S].
  split; [exact E|]. rewrite S. reflexivity.
Defined.

(** C4 (counterexample).  [Measure A (Vote For=0)] is accepted with
    vote_for 0, which is not positive; a description whose term suffix
    has nothing between the comma and [ Term] (three spaces in the raw
    text, two after step 1) is accepted with an empty term; and with a
    transformer that returns an empty district the description is
    accepted with that empty district, for [standardize] passes on what
    the chain returns. *)
Lemma C4_vote_for_zero_and_empty_term :
  SccText.standardize [TermSpec.county_office] (py "Measure A (Vote For=0)")
  = Ok (py "County", py "Santa Clara", py "Measure A", py "At Large",
        py "Full", 0%Z)
  /\ SccText.standardize [TermSpec.county_office]
       (py "Council,   Term (Vote For=1)")
     = Ok (py "County", py "Santa Clara", py "Council", py "At Large", [], 1%Z)
  /\ SccText.standardize [TermSpec.no_district] (py "Sheriff (Vote For=1)")
     = Ok (py "County", py "Santa Clara", py "Sheriff", [], py "Full", 1%Z).
Proof. repeat split; reflexivity. Qed.

(** C4 (amended).  For every contest description the pipeline accepts,
    the returned vote_for is an integer that is not negative (zero when
    the suffix reads [Vote For=0]); level, jurisdiction, office and
    district are the fields that the first transformer of the chain to
    accept the text left after steps 1 to 3 returns for it, as they are,
    so they are non-empty when every transformer of the chain returns
    non-empty fields; and the term is non-empty unless the term suffix
    has an empty label, that is unless what is left after step 2 ends
    with a comma, two spaces and [Term]. *)
Theorem C4_standardized_fields (ts : list transformer) (c : str)
    (l j o d t : str) (v : Z) :
  SccText.standardize ts c = Ok (l, j, o, d, t, v) ->
  (0 <= v)%Z
  /\ (exists rest,
        SccText.split_vote_for (SccText.collapse_spaces c) = Ok (v, rest)
        /\ t = fst (SccText.split_term rest)
        /\ transform (snd (SccText.split_term rest)) ts = Ok (l, j, o, d))
  /\ (TermSpec.nonempty_fields ts -> l <> [] /\ j <> [] /\ o <> [] /\ d <> [])
  /\ (t = [] ->
      exists rest p e,
        SccText.split_vote_for (SccText.collapse_spaces c) = Ok (v, rest)
        /\ TermSpec.tail_ok e /\ rest = p ++ py ",  Term" ++ e).
Proof.
  intros H. unfold SccText.standardize in H.
  destruct (SccText.split_vote_for (SccText.collapse_spaces c))
    as [[v' rest]|] eqn:V; [|discriminate].
  destruct (SccText.split_term rest) as [t' p] eqn:T.
  destruct (transform p ts) as [[[[l' j'] o'] d']|] eqn:X; [|discriminate].
  injection H as <- <- <- <- <- <-.
  split; [|split; [|split]].
  - pose proof V as V'. apply StandardizeFacts.split_vote_for_inv in V'.
    destruct V' as (ds & e & Hds & _ & _ & _ & ->).
    apply StandardizeFacts.int_of_digits_nonneg. exact Hds.
  - exists rest. rewrite T. cbn [fst snd]. auto.
  - intros Hts. apply StandardizeFacts.transform_ok_inv in X.
    destruct X as (f & Hin & Hf). exact (Hts f p l' j' o' d' Hin Hf).
  - intros ->. exists rest.
    destruct (TermFacts.split_term_cases rest)
      as [(p0 & t0 & e & Ht0 & He & Hrest & Hs) | Hfull].
    + rewrite Hs in T. injection T as -> ->.
      exists p, e. repeat split; assumption.
    + rewrite Hfull in T. discriminate.
Qed.

Lemma C4_standardized_fields_witness :
  SccText.standardize [TermSpec.county_office] (py "Governor (Vote For=1)")
  = Ok (py "County", py "Santa Clara", py "Governor", py "At Large",
        py "Full", 1%Z)
  /\ (0 <= 1)%Z
  /\ TermSpec.nonempty_fields [TermSpec.county_office]
  /\ py "County" <> [] /\ py "Santa Clara" <> [] /\ py "Governor" <> []
  /\ py "At Large" <> [].
Proof.
  assert (Hts : TermSpec.nonempty_fields [TermSpec.county_office]).
  { intros f s l j o d [<-|[]] H. unfold TermSpec.county_office in H.
    destruct s as [|x s]; [discriminate|]. injection H as <- <- <- <-.
    repeat split; discriminate. }
  assert (H : SccText.standardize [TermSpec.county_office]
                (py "Governor (Vote For=1)")
              = Ok (py "County", py "Santa Clara", py "Governor", py "At Large",
                    py "Full", 1%Z)) by reflexivity.
  destruct (C4_standardized_fields _ _ _ _ _ _ _ _ H) as (Hv & _ & Hf & _).
  split; [exact H|]. split; [exact Hv|]. split; [exact Hts|]. exact (Hf Hts).
Defined.

(** ** Lists, sorting and casts *)

Module ListFacts.

Lemma in_map2 {A B C} (f : A -> B -> C) (xs : list A) (ys : list B) (z : C) :
  In z (map2 f xs ys) -> exists x y, In x xs /\ In y ys /\ z = f x y.
Proof.
  unfold map2. intros H. apply in_map_iff in H. destruct H as ([x y] & <- & H).
  exists x, y. simpl. split; [|split]; [| |reflexivity].
  - eapply in_combine_l; eauto.
  - eapply in_combine_r; eauto.
Qed.

Lemma length_map2 {A B C} (f : A -> B -> C) (xs : list A) (ys : list B) :
  length (map2 f xs ys) = Nat.min (length xs) (length ys).
Proof. unfold map2. rewrite length_map, length_combine. reflexivity. Qed.

Lemma map2_fst {A B C D} (f : A -> B -> C) (g : C -> D) (h : A -> D)
    (xs : list A) (ys : list B) :
  (forall x y, g (f x y) = h x) -> length xs <= length ys ->
  map g (map2 f xs ys) = map h xs.
Proof.
  intros Hg. unfold map2. revert ys.
  induction xs as [|x xs IH]; intros [|y ys] Hlen; simpl in *; try reflexivity;
    try lia.
  rewrite Hg, IH by lia. reflexivity.
Qed.

Lemma map2_snd {A B C D} (f : A -> B -> C) (g : C -> D) (h : B -> D)
    (xs : list A) (ys : list B) :
  (forall x y, g (f x y) = h y) -> length ys <= length xs ->
  map g (map2 f xs ys) = map h ys.
Proof.
  intros Hg. unfold map2. revert xs.
  induction ys as [|y ys IH]; intros [|x xs] Hlen; simpl in *; try reflexivity;
    try lia.
  rewrite Hg, IH by lia. reflexivity.
Qed.

Section Sorting.

Context {A : Type} (leb : A -> A -> bool).

Lemma insert_by_perm (x : A) (l : list A) : Permutation (insert_by leb x l) (x :: l).
Proof.
  induction l as [|y l IH]; simpl; [reflexivity|].
  destruct (leb x y); [reflexivity|].
  rewrite IH. apply perm_swap.
Qed.

(** Sorting neither loses nor invents a row. *)
Lemma sort_by_perm (l : list A) : Permutation (sort_by leb l) l.
Proof.
  induction l as [|x l IH]; simpl; [reflexivity|].
  rewrite insert_by_perm, IH. reflexivity.
Qed.

Lemma in_sort_by (x : A) (l : list A) : In x (sort_by leb l) <-> In x l.
Proof.
  split; apply Permutation_in; [|symmetry]; apply sort_by_perm.
Qed.

Lemma length_sort_by (l : list A) : length (sort_by leb l) = length l.
Proof. apply Permutation_length, sort_by_perm. Qed.

End Sorting.

Lemma map_result_ok {A B} (f : A -> result B) (xs : list A) (ys : list B) :
  map_result f xs = Ok ys -> Forall2 (fun x y => f x = Ok y) xs ys.
Proof.
  revert ys. induction xs as [|x xs IH]; simpl; intros ys H.
  - injection H as <-. constructor.
  - destruct (f x) as [y|] eqn:E; [|discriminate].
    destruct (map_result f xs) as [ys'|]; [|discriminate].
    injection H as <-. constructor; auto.
Qed.

Lemma map_result_length {A B} (f : A -> result B) (xs : list A) (ys : list B) :
  map_result f xs = Ok ys -> length ys = length xs.
Proof.
  intros H. apply map_result_ok in H. symmetry. eapply Forall2_length; eauto.
Qed.

(** A comprehension raises as soon as one of its calls does. *)
Lemma map_result_raise {A B} (f : A -> result B) (xs : list A) (x : A) (e : exn) :
  In x xs -> f x = Raise e -> exists e', map_result f xs = Raise e'.
Proof.
  induction xs as [|y xs IH]; simpl; [intros []|].
  intros [->|Hin] Hx.
  - rewrite Hx. eauto.
  - destruct (f y); [|eauto].
    destruct (IH Hin Hx) as [e' ->]. eauto.
Qed.

(** A value that fits the width is left as it is by the cast. *)
Lemma wrap_fits (w z : Z) : (0 < w)%Z -> fits w z -> wrap w z = z.
Proof.
  unfold fits, wrap. intros Hw Hz.
  assert (E : (2 ^ w = 2 * 2 ^ (w - 1))%Z).
  { rewrite <- Z.pow_succ_r by lia. f_equal. lia. }
  assert (Hp : (0 < 2 ^ (w - 1))%Z) by (apply Z.pow_pos_nonneg; lia).
  cbv zeta. rewrite E. set (m := (2 ^ (w - 1))%Z) in *.
  destruct (Z.lt_ge_cases z 0) as [Hneg|Hpos].
  - assert (R : (z mod (2 * m) = z + 2 * m)%Z).
    { rewrite <- (Z_mod_plus_full z 1 (2 * m)).
      rewrite Z.mod_small by lia. lia. }
    rewrite R. destruct (Z.ltb_spec (z + 2 * m) m); lia.
  - rewrite Z.mod_small by lia.
    destruct (Z.ltb_spec z m); lia.
Qed.

Lemma int8_fits (z : Z) : fits 8 z -> int8 z = z.
Proof. apply wrap_fits. lia. Qed.

Lemma int16_fits (z : Z) : fits 16 z -> int16 z = z.
Proof. apply wrap_fits. lia. Qed.

Lemma int32_fits (z : Z) : fits 32 z -> int32 z = z.
Proof. apply wrap_fits. lia. Qed.

End ListFacts.

(** ** Vendor B: the tables of [preprocess] *)

Module SfFacts.

Import Sf ListFacts.

(** The tables of a run that returns. *)
Lemma sf_preprocess_ok_inv (ts : list transformer) (cvr_data : list (Z * str))
    (cd : list JContestDef) (nd : list JCandidateDef) (md : list MarkRow)
    (t : Tables) :
  preprocess ts cvr_data cd nd md = Ok t ->
  exists standardized,
    map_result (standardize ts) (sorted_contests cd) = Ok standardized
    /\ cd <> [] /\ nd <> []
    /\ t = MkTables
             (map (fun r => MkCvrRow (int32 (fst r)) (snd r)) cvr_data)
             (map2 (fun r o => with_office_id o (snd r))
                   (join_on_index
                      (combine (map (fun r => t_contest_id (snd r)) (sorted_contests cd))
                               standardized)
                      (sorted_contests cd))
                   (Scc.office_ids
                      (map fst
                         (join_on_index
                            (combine (map (fun r => t_contest_id (snd r))
                                          (sorted_contests cd))
                                     standardized)
                            (sorted_contests cd)))))
             (Scc.office_table
                (map fst
                   (join_on_index
                      (combine (map (fun r => t_contest_id (snd r)) (sorted_contests cd))
                               standardized)
                      (sorted_contests cd)))
                (Scc.office_ids
                   (map fst
                      (join_on_index
                         (combine (map (fun r => t_contest_id (snd r))
                                       (sorted_contests cd))
                                  standardized)
                         (sorted_contests cd)))))
             (sorted_candidates nd)
             (sorted_marks md).
Proof.
  unfold preprocess. destruct cd as [|c0 cd0]; [discriminate|].
  destruct (map_result (standardize ts) (sorted_contests (c0 :: cd0)))
    as [standardized|] eqn:E; [|discriminate].
  simpl rbind. destruct nd as [|n0 nd0]; [discriminate|].
  intros H. injection H as <-. exists standardized.
  repeat split; discriminate.
Qed.

Lemma in_join_on_index {A} (left : list (Z * A)) (right : list (str * ContestRow))
    (x : A * ContestRow) :
  In x (join_on_index left right) -> exists r, In r right /\ snd x = snd r.
Proof.
  unfold join_on_index. intros H. apply in_flat_map in H.
  destruct H as (l & _ & H). apply in_map_iff in H. destruct H as (r & <- & H).
  apply filter_In in H. destruct H as [H _]. exists r. auto.
Qed.

(** Every row of the Contest table is a record of the manifest, typed. *)
Lemma contest_rows (ts : list transformer) (cvr_data : list (Z * str))
    (cd : list JContestDef) (nd : list JCandidateDef) (md : list MarkRow)
    (t : Tables) (row : ContestRow) :
  preprocess ts cvr_data cd nd md = Ok t -> In row (df_contest t) ->
  exists c o, In c cd /\ row = with_office_id o (snd (typed_contest c)).
Proof.
  intros H Hin. apply sf_preprocess_ok_inv in H.
  destruct H as (standardized & _ & _ & _ & ->). simpl in Hin.
  apply in_map2 in Hin. destruct Hin as (r & o & Hr & _ & ->).
  apply in_join_on_index in Hr. destruct Hr as (x & Hx & ->).
  unfold sorted_contests in Hx. apply in_sort_by in Hx.
  apply in_map_iff in Hx. destruct Hx as (c & <- & Hc).
  exists c, o. auto.
Qed.

End SfFacts.

(** C10 (counterexample).  A contest whose record has NumOfRanks 200 is
    not flagged as ranked and keeps its VoteFor 1 as vote_for, although
    200 is greater than 1; and a contest that is not ranked with VoteFor
    130 has vote_for -126: both columns are cast to [np.int8] before they
    are compared and copied, and 200 is stored as -56. *)
Lemma C10_ranks_beyond_int8 :
  SfSpec.wide_run = Ok SfSpec.wide_tables
  /\ Sf.df_contest SfSpec.wide_tables
     = [Sf.MkContestRow 1 10 3 1 (-56) false false 0;
        Sf.MkContestRow 2 11 3 (-126) 1 false false 1]
  /\ (exists row,
        In row (Sf.df_contest SfSpec.wide_tables)
        /\ Sf.t_contest_id row = Sf.cd_Id SfSpec.ranks_200
        /\ (1 < Sf.cd_NumOfRanks SfSpec.ranks_200)%Z
        /\ Sf.t_ranked row = false
        /\ Sf.t_vote_for row <> Sf.cd_NumOfRanks SfSpec.ranks_200)
  /\ (exists row,
        In row (Sf.df_contest SfSpec.wide_tables)
        /\ Sf.t_contest_id row = Sf.cd_Id SfSpec.vote_for_130
        /\ ~ (1 < Sf.cd_NumOfRanks SfSpec.vote_for_130)%Z
        /\ Sf.t_ranked row = false
        /\ Sf.t_vote_for row <> Sf.cd_VoteFor SfSpec.vote_for_130).
Proof.
  split; [vm_compute; reflexivity|]. split; [reflexivity|]. split.
  - exists (Sf.MkContestRow 1 10 3 1 (-56) false false 0).
    split; [left; reflexivity|]. cbn. repeat split; try reflexivity; discriminate.
  - exists (Sf.MkContestRow 2 11 3 (-126) 1 false false 1).
    split; [right; left; reflexivity|]. cbn.
    repeat split; try reflexivity; discriminate.
Qed.

(** C10 (amended).  In the tables of the nested per-ballot path every
    row of the Contest table comes from a record of the contest manifest,
    with NumOfRanks and VoteFor as the code types them, cast to
    [np.int8]: its ranked flag is true exactly when NumOfRanks as
    [np.int8] is greater than 1, and its vote_for is NumOfRanks as
    [np.int8] when it is ranked and VoteFor as [np.int8] when it is not.
    When both fields of the record are within the range of [np.int8],
    these are the raw fields: ranked exactly when NumOfRanks is greater
    than 1, vote_for the raw NumOfRanks of a ranked contest and the raw
    VoteFor of another. *)
Theorem C10_ranked_vote_for (ts : list transformer) (cvr_data : list (Z * str))
    (cd : list Sf.JContestDef) (nd : list Sf.JCandidateDef)
    (md : list Sf.MarkRow) (t : Sf.Tables) (row : Sf.ContestRow) :
  Sf.preprocess ts cvr_data cd nd md = Ok t ->
  In row (Sf.df_contest t) ->
  exists c,
    In c cd /\ SfSpec.from_record row c
    /\ (Sf.t_ranked row = true <-> (1 < int8 (Sf.cd_NumOfRanks c))%Z)
    /\ (fits 8 (Sf.cd_NumOfRanks c) -> fits 8 (Sf.cd_VoteFor c) ->
        (Sf.t_ranked row = true <-> (1 < Sf.cd_NumOfRanks c)%Z)
        /\ Sf.t_vote_for row
           = (if Sf.t_ranked row then Sf.cd_NumOfRanks c else Sf.cd_VoteFor c)).
Proof.
  intros H Hin. destruct (SfFacts.contest_rows _ _ _ _ _ _ _ H Hin) as (c & o & Hc & ->).
  exists c. split; [exact Hc|].
  unfold SfSpec.from_record. simpl.
  split; [repeat split|]. split.
  - apply Z.ltb_lt.
  - intros Hn Hv. rewrite (ListFacts.int8_fits _ Hn), (ListFacts.int8_fits _ Hv).
    split; [apply Z.ltb_lt|reflexivity].
Qed.

Lemma C10_ranked_vote_for_witness :
  SfSpec.run = Ok SfSpec.tables
  /\ In SfSpec.mayor_row (Sf.df_contest SfSpec.tables)
  /\ exists c, In c SfSpec.contests /\ SfSpec.from_record SfSpec.mayor_row c.
Proof.
  assert (H : SfSpec.run = Ok SfSpec.tables) by (vm_compute; reflexivity).
  assert (Hin : In SfSpec.mayor_row (Sf.df_contest SfSpec.tables)).
  { simpl. right. left. reflexivity. }
  split; [exact H|]. split; [exact Hin|].
  destruct (C10_ranked_vote_for _ _ _ _ _ _ _ H Hin) as (c & Hc & Hfrom & _).
  exists c. split; assumption.
Defined.

(** ** Vendor A: the stages of [check_and_clean_id_invariants] *)

Module IdFacts.

Import SccId ImprintedSpec ImprintedId ListFacts.

(** The frame [df'] has the column [f] of [df] unchanged. *)
Definition keeps {X} (f : IdRow -> X) (df df' : df_id) : Prop :=
  map f df' = map f df.

Lemma keeps_refl {X} (f : IdRow -> X) (df : df_id) : keeps f df df.
Proof. reflexivity. Qed.

Lemma keeps_trans {X} (f : IdRow -> X) (d1 d2 d3 : df_id) :
  keeps f d1 d2 -> keeps f d2 d3 -> keeps f d1 d3.
Proof. unfold keeps. congruence. Qed.

Lemma keeps_map {X} (f : IdRow -> X) (g : IdRow -> IdRow) (df : df_id) :
  (forall r, f (g r) = f r) -> keeps f df (map g df).
Proof.
  intros H. unfold keeps. rewrite map_map. apply map_ext. exact H.
Qed.

Lemma keeps_map2 {X V} (f : IdRow -> X) (upd : V -> IdRow -> IdRow)
    (df : df_id) (values : list V) :
  length values = length df -> (forall v r, f (upd v r) = f r) ->
  keeps f df (map2 (fun r v => upd v r) df values).
Proof.
  intros Hlen H. unfold keeps. apply map2_fst.
  - intros r v. apply H.
  - lia.
Qed.

Lemma keeps_length {X} (f : IdRow -> X) (df df' : df_id) :
  keeps f df df' -> length df' = length df.
Proof.
  unfold keeps. intros H. apply (f_equal (@length X)) in H.
  rewrite !length_map in H. exact H.
Qed.

Lemma bind_ok_inv {A B} (c : M A) (f : A -> M B) (df df' : df_id) (b : B) :
  bind c f df = (Ok b, df') ->
  exists a d, c df = (Ok a, d) /\ f a d = (Ok b, df').
Proof.
  unfold bind. destruct (c df) as [[a|e] d]; [|discriminate].
  intros H. exists a, d. auto.
Qed.

(** An exception of a step is the exception of the whole. *)
Lemma bind_raise {A B} (c : M A) (f : A -> M B) (df df' : df_id) (e : exn) :
  c df = (Raise e, df') -> bind c f df = (Raise e, df').
Proof. unfold bind. intros ->. reflexivity. Qed.

Lemma present_inv (f : IdRow -> option cell) (df : df_id) (cells : list cell) :
  present (map f df) = Some cells ->
  has_column f df /\ cells = map (fun r => cell_or_nan (f r)) df.
Proof.
  revert cells. induction df as [|r df IH]; simpl; intros cells H.
  - injection H as <-. split; [constructor|reflexivity].
  - destruct (f r) as [c|] eqn:E; [|discriminate].
    destruct (present (map f df)) as [cs|]; [|discriminate].
    injection H as <-. destruct (IH cs eq_refl) as [Hc ->].
    split; [|reflexivity]. constructor; [congruence|exact Hc].
Qed.

Lemma column_ok_inv (name : string) (f : IdRow -> option cell)
    (df df' : df_id) (cells : list cell) :
  column name f df = (Ok cells, df') ->
  df' = df /\ has_column f df /\ cells = map (fun r => cell_or_nan (f r)) df.
Proof.
  unfold column, bind, get.
  destruct (present (map f df)) as [cs|] eqn:E; [|discriminate].
  unfold ret. intros H. injection H as <- <-.
  apply present_inv in E. tauto.
Qed.

(** Lines 71 to 75, when they return. *)
Lemma check_imprinted_id_ok (df df' : df_id) :
  check_imprinted_id df = (Ok tt, df') ->
  Forall imprinted_matches df /\ df' = map (with_ImprintedId None) df.
Proof.
  intros H.
  assert (Hc : has_column ImprintedId df).
  { unfold check_imprinted_id in H. apply bind_ok_inv in H.
    destruct H as (d0 & d & Hget & H). unfold get in Hget. injection Hget as <- <-.
    apply bind_ok_inv in H. destruct H as (cells & d & Hcol & _).
    apply column_ok_inv in Hcol. tauto. }
  rewrite (check_imprinted_id_eq df Hc) in H.
  destruct (forallb row_ok df) eqn:B; [|discriminate].
  injection H as <-. split; [|reflexivity]. apply forallb_rows_ok. exact B.
Qed.

(** Lines 76 and 77, when they return. *)
Lemma cast_tabulator_batch_ok (df df' : df_id) :
  cast_tabulator_batch df = (Ok tt, df') ->
  exists tab batch,
    length tab = length df /\ length batch = length df
    /\ df' = map2 (fun r v => with_BatchId v r)
                  (map2 (fun r v => with_TabulatorNum v r) df tab) batch.
Proof.
  unfold cast_tabulator_batch, bind, get, lift, assign, put.
  destruct (map_result (astype_int 16) (map TabulatorNum df)) as [tab|] eqn:Et;
    [|discriminate].
  destruct (map_result (astype_int 16) (map BatchId df)) as [batch|] eqn:Eb;
    [|discriminate].
  intros H. injection H as <-. exists tab, batch.
  apply map_result_length in Et, Eb. rewrite length_map in Et, Eb. auto.
Qed.

(** Lines 79 to 83, when they return. *)
Lemma check_ballot_type_ok (df df' : df_id) :
  check_ballot_type df = (Ok tt, df') ->
  all (ballot_type_ok df) = true
  /\ df' = map2 (fun r v => with_BallotType v r) df
                (map (fun g => nth 0 g NaN) (ballot_type_groups df)).
Proof.
  unfold check_ballot_type, bind, get, lift, assert_, assign, put.
  destruct (str_accessor (map BallotType df)); [|discriminate].
  destruct (all (ballot_type_ok df)); [|discriminate].
  unfold ret. intros H. injection H as <-. auto.
Qed.

(** Lines 85 to 93, when they return. *)
Lemma check_precinct_portion_ok (df df' : df_id) :
  check_precinct_portion df = (Ok tt, df') ->
  has_column PrecinctPortion df
  /\ all (precinct_ok (map (extract precinct_regex 3)
                           (map (fun r => cell_or_nan (PrecinctPortion r)) df)))
     = true
  /\ df' = map2 (fun r g => with_Precincts (nth 1 g NaN) (nth 2 g NaN) r)
                (map (with_PrecinctPortion None) df)
                (map (extract precinct_regex 3)
                     (map (fun r => cell_or_nan (PrecinctPortion r)) df)).
Proof.
  unfold check_precinct_portion. intros H. apply bind_ok_inv in H.
  destruct H as (cells & d & Hcol & H). apply column_ok_inv in Hcol.
  destruct Hcol as (-> & Hc & ->). split; [exact Hc|].
  unfold bind, lift, assert_, drop, get, put in H.
  destruct (str_accessor _); [|discriminate].
  destruct (all (precinct_ok _)); [|discriminate].
  unfold ret in H. injection H as <-. auto.
Qed.

(** Lines 95 and 96, when they return. *)
Lemma cast_record_id_ok (df df' : df_id) :
  cast_record_id df = (Ok tt, df') ->
  exists rec, length rec = length df
              /\ df' = map2 (fun r v => with_RecordId v r) df rec.
Proof.
  unfold cast_record_id, bind, get, lift, assign, put.
  destruct (map_result (astype_int 32) (map RecordId df)) as [rec|] eqn:E;
    [|discriminate].
  intros H. injection H as <-. exists rec.
  apply map_result_length in E. rewrite length_map in E. auto.
Qed.

(** The five stages of a call that returns. *)
Lemma stages (df df' : df_id) :
  check_and_clean_id_invariants df = (Ok tt, df') ->
  exists d1 d2 d3 d4,
    check_imprinted_id df = (Ok tt, d1)
    /\ cast_tabulator_batch d1 = (Ok tt, d2)
    /\ check_ballot_type d2 = (Ok tt, d3)
    /\ check_precinct_portion d3 = (Ok tt, d4)
    /\ cast_record_id d4 = (Ok tt, df').
Proof.
  unfold check_and_clean_id_invariants. intros H.
  apply bind_ok_inv in H. destruct H as ([] & d1 & H1 & H).
  apply bind_ok_inv in H. destruct H as ([] & d2 & H2 & H).
  apply bind_ok_inv in H. destruct H as ([] & d3 & H3 & H).
  apply bind_ok_inv in H. destruct H as ([] & d4 & H4 & H).
  exists d1, d2, d3, d4. auto.
Qed.

End IdFacts.

Module IdKeeps.

Import SccId ImprintedSpec ListFacts IdFacts.

Section Column.

Context {X : Type} (f : IdRow -> X).

Lemma stage1_keeps (df d1 : df_id) :
  (forall v r, f (with_ImprintedId v r) = f r) ->
  check_imprinted_id df = (Ok tt, d1) -> keeps f df d1.
Proof.
  intros Hf H. apply check_imprinted_id_ok in H. destruct H as [_ ->].
  apply keeps_map. intros r. apply Hf.
Qed.

Lemma stage2_keeps (df d2 : df_id) :
  (forall v r, f (with_TabulatorNum v r) = f r) ->
  (forall v r, f (with_BatchId v r) = f r) ->
  cast_tabulator_batch df = (Ok tt, d2) -> keeps f df d2.
Proof.
  intros Ht Hb H. apply cast_tabulator_batch_ok in H.
  destruct H as (tab & batch & Lt & Lb & ->).
  eapply keeps_trans.
  - apply (keeps_map2 f with_TabulatorNum df tab Lt Ht).
  - apply keeps_map2; [|exact Hb].
    rewrite length_map2, Lt, Nat.min_id. exact Lb.
Qed.

Lemma stage3_keeps (df d3 : df_id) :
  (forall v r, f (with_BallotType v r) = f r) ->
  check_ballot_type df = (Ok tt, d3) -> keeps f df d3.
Proof.
  intros Hf H. apply check_ballot_type_ok in H. destruct H as [_ ->].
  apply keeps_map2; [|exact Hf].
  unfold ballot_type_groups. rewrite !length_map. reflexivity.
Qed.

Lemma stage4_keeps (df d4 : df_id) :
  (forall v r, f (with_PrecinctPortion v r) = f r) ->
  (forall p1 p2 r, f (with_Precincts p1 p2 r) = f r) ->
  check_precinct_portion df = (Ok tt, d4) -> keeps f df d4.
Proof.
  intros Hp Hq H. apply check_precinct_portion_ok in H. destruct H as (_ & _ & ->).
  eapply keeps_trans.
  - apply (keeps_map f (with_PrecinctPortion None)). intros r. apply Hp.
  - apply (keeps_map2 f (fun g r => with_Precincts (nth 1 g NaN) (nth 2 g NaN) r)).
    + rewrite !length_map. reflexivity.
    + intros g r. apply Hq.
Qed.

Lemma stage5_keeps (df d5 : df_id) :
  (forall v r, f (with_RecordId v r) = f r) ->
  cast_record_id df = (Ok tt, d5) -> keeps f df d5.
Proof.
  intros Hf H. apply cast_record_id_ok in H. destruct H as (rec & L & ->).
  apply keeps_map2; assumption.
Qed.

End Column.

(** The ballot ids are the same before and after the checks. *)
Lemma clean_keeps_cvr_id (df df' : df_id) :
  check_and_clean_id_invariants df = (Ok tt, df') -> keeps cvr_id df df'.
Proof.
  intros H. apply stages in H. destruct H as (d1 & d2 & d3 & d4 & H1 & H2 & H3 & H4 & H5).
  apply (keeps_trans _ df d1); [apply (stage1_keeps cvr_id df d1); auto|].
  apply (keeps_trans _ d1 d2); [apply (stage2_keeps cvr_id d1 d2); auto|].
  apply (keeps_trans _ d2 d3); [apply (stage3_keeps cvr_id d2 d3); auto|].
  apply (keeps_trans _ d3 d4); [apply (stage4_keeps cvr_id d3 d4); auto|].
  apply (stage5_keeps cvr_id d4 df'); auto.
Qed.

End IdKeeps.

(** ** Vendor A: the steps of [preprocess] *)

Module SccFacts.

Import SccId Scc ListFacts.

(** What [reformat_strings] returns is the frame with the slices. *)
Lemma reformat_strings_ok (df df' : RawFrame) :
  reformat_strings df = Ok df' -> df' = sliced df.
Proof.
  unfold reformat_strings.
  destruct (map_result _ reformat_cols); cbn [rbind]; [|discriminate].
  intros H. injection H as <-. reflexivity.
Qed.

(** The ballot numbers are read when the slices are taken and the first
    column is cast. *)
Lemma reformat_set_index (df : RawFrame) (index : list Z) :
  rbind (reformat_strings df) set_index = Ok index
  <-> reformat_strings df = Ok (sliced df) /\ set_index (sliced df) = Ok index.
Proof.
  split.
  - destruct (reformat_strings df) as [df'|] eqn:E; cbn [rbind]; [|discriminate].
    apply reformat_strings_ok in E. subst df'. auto.
  - intros [-> H]. exact H.
Qed.

(** The steps of a run that returns. *)
Lemma scc_preprocess_ok_inv (ts : list transformer) (df : RawFrame) (t : Tables) :
  preprocess ts df = Ok t ->
  exists index cvr wide df_contest df_office long2 df_candidate long3,
    rbind (reformat_strings df) set_index = Ok index
    /\ check_and_clean_id_invariants (fst (split_cvr index (sliced df)))
       = (Ok tt, cvr)
    /\ update_column_index (snd (split_cvr index (sliced df))) = Ok wide
    /\ split_contest ts (tidy wide) = Ok (df_contest, df_office, long2)
    /\ split_candidate long2 = Ok (df_candidate, long3)
    /\ t = MkTables cvr df_contest df_office df_candidate (index_marks long3).
Proof.
  unfold preprocess.
  destruct (reformat_strings df) as [df'|] eqn:E0; [|discriminate].
  apply reformat_strings_ok in E0. subst df'. cbn [rbind].
  destruct (set_index (sliced df)) as [index|] eqn:E1; [|discriminate].
  cbn [rbind]. destruct (split_cvr index (sliced df)) as [cvr0 wide0] eqn:E2.
  destruct (check_and_clean_id_invariants cvr0) as [[[]|] cvr] eqn:E3; [|discriminate].
  destruct (update_column_index wide0) as [wide|] eqn:E4; [|discriminate].
  cbn [rbind].
  destruct (split_contest ts (tidy wide)) as [[[df_contest df_office] long2]|] eqn:E5;
    [|discriminate].
  cbn [rbind].
  destruct (split_candidate long2) as [[df_candidate long3]|] eqn:E6; [|discriminate].
  cbn [rbind]. intros H. injection H as <-.
  exists index, cvr, wide, df_contest, df_office, long2, df_candidate, long3.
  rewrite E2. cbn [fst snd]. repeat split; assumption.
Qed.

Lemma set_index_length (df : RawFrame) (index : list Z) :
  set_index df = Ok index -> length index = length (raw_ids df).
Proof.
  unfold set_index.
  destruct (map_result (astype_int 32) (map raw_CvrNumber (raw_ids df)))
    as [cells|] eqn:E; [|discriminate].
  simpl. intros H. injection H as <-.
  apply map_result_length in E. rewrite !length_map in *. exact E.
Qed.

(** The ballot ids of [df_cvr] are the first column of the raw frame, as
    [set_index] reads it. *)
Lemma cvr_ids (ts : list transformer) (df : RawFrame) (t : Tables) :
  preprocess ts df = Ok t ->
  rbind (reformat_strings df) set_index = Ok (map cvr_id (df_cvr t)).
Proof.
  intros H. apply scc_preprocess_ok_inv in H.
  destruct H as (index & cvr & wide & dc & do & l2 & dn & l3
                 & H1 & H2 & _ & _ & _ & ->).
  rewrite H1. f_equal. simpl. apply reformat_set_index in H1. destruct H1 as [_ H1].
  apply IdKeeps.clean_keeps_cvr_id in H2. unfold IdFacts.keeps in H2.
  rewrite H2. unfold split_cvr. cbn [fst].
  transitivity (map (fun i : Z => i) index); [symmetry; apply map_id|].
  symmetry. apply map2_fst.
  - reflexivity.
  - apply set_index_length in H1. lia.
Qed.

End SccFacts.

(** ** Vendor B: the ballot counter of [read_raw] *)

Module CounterFacts.

Import Sf CounterSpec.

Lemma read_card_counted (file : str) (st : ReadState) (card : JCard) :
  counted st -> counted (read_card file st card).
Proof.
  unfold counted, read_card. simpl. intros [Hn Hm].
  rewrite length_app, map_app, Nat.add_1_r, seq_S, map_app, <- Hm, Hn.
  simpl. split; [lia|reflexivity].
Qed.

Lemma read_cards_counted (file : str) (cards : list JCard) : forall st,
  counted st -> counted (fold_left (read_card file) cards st).
Proof.
  induction cards as [|c cards IH]; simpl; intros st H; [exact H|].
  apply IH, read_card_counted, H.
Qed.

Lemma read_sessions_counted (file : str) (sessions : list JSession) : forall st,
  counted st ->
  counted (fold_left (fun st sess => fold_left (read_card file) (Cards sess) st)
                     sessions st).
Proof.
  induction sessions as [|s sessions IH]; simpl; intros st H; [exact H|].
  apply IH, read_cards_counted, H.
Qed.

Lemma read_export_counted (f : ZipEntry) (st : ReadState) :
  counted st -> counted (read_export f st).
Proof. apply read_sessions_counted. Qed.

Lemma read_files_counted (nfiles : option nat) (files : list ZipEntry) :
  forall idx st, counted st -> counted (read_files nfiles idx files st).
Proof.
  induction files as [|f files IH]; cbn [read_files]; intros idx st H;
    [exact H|].
  destruct (match nfiles with Some n => Nat.eqb idx n | None => false end);
    [exact H|].
  destruct (negb (startswith (filename f) (py "CvrExport_"))).
  - apply IH, H.
  - apply IH, read_export_counted, H.
Qed.

(** The ballot ids [read_raw] hands on are 0, 1, 2, ... in read order. *)
Lemma read_raw_ids (files : list ZipEntry) (nfiles : option nat) :
  map fst (fst (read_raw files nfiles))
  = map Z.of_nat (seq 0 (length (fst (read_raw files nfiles)))).
Proof.
  unfold read_raw. cbn [fst].
  apply (read_files_counted nfiles files 0 (MkReadState 0 [] [])).
  split; reflexivity.
Qed.

Lemma NoDup_map_injective {A B} (f : A -> B) (l : list A) :
  (forall x y, In x l -> In y l -> f x = f y -> x = y) ->
  NoDup l -> NoDup (map f l).
Proof.
  intros Hinj H. induction H as [|x l Hx Hl IH]; simpl; constructor.
  - intros Hin. apply in_map_iff in Hin. destruct Hin as (y & Hy & Hin).
    apply Hx. rewrite (Hinj x y); simpl; auto.
  - apply IH. intros a b Ha Hb. apply Hinj; simpl; auto.
Qed.

(** Below [2^31] the cast to [np.int32] keeps the numbers apart. *)
Lemma int32_seq_NoDup (n : nat) :
  (Z.of_nat n <= 2 ^ 31)%Z ->
  NoDup (map (fun i => int32 (Z.of_nat i)) (seq 0 n)).
Proof.
  intros Hn. apply NoDup_map_injective; [|apply seq_NoDup].
  intros x y Hx Hy. apply in_seq in Hx, Hy.
  rewrite !ListFacts.int32_fits by (unfold fits; simpl; lia).
  apply Nat2Z.inj.
Qed.

End CounterFacts.

(** C8 (counterexample).  In the wide-spreadsheet path two ballots whose
    first raw column holds the same number 1 get the same ballot id: the
    run returns its tables and the ballot ids of CvrRecord are 1 and 1. *)
Lemma C8_same_ballot_number_twice :
  SccSpec.run = Ok SccSpec.tables
  /\ map SccId.cvr_id (Scc.df_cvr SccSpec.tables) = [1%Z; 1%Z]
  /\ ~ NoDup (map SccId.cvr_id (Scc.df_cvr SccSpec.tables)).
Proof.
  split; [vm_compute; reflexivity|]. split; [reflexivity|].
  intros H. simpl in H. inversion H as [|x l Hx _]. apply Hx. left. reflexivity.
Qed.

(** C8 (amended).  In the nested per-ballot path the ballot ids of
    CvrRecord are 0, 1, 2, ... (as [np.int32]) in the order the cards
    were read, hence unique for up to [2^31] cards.  In the
    wide-spreadsheet path the ballot ids are the first raw column, read
    as [np.int32], row by row: they are in the rows' order and are unique
    only when that column is. *)
Theorem C8_ballot_ids :
  (forall ts files nfiles cd nd t,
      Sf.preprocess ts (fst (Sf.read_raw files nfiles)) cd nd
                    (snd (Sf.read_raw files nfiles)) = Ok t ->
      map Sf.c_cvr_id (Sf.df_cvr t)
      = map (fun i => int32 (Z.of_nat i)) (seq 0 (length (Sf.df_cvr t)))
      /\ ((Z.of_nat (length (Sf.df_cvr t)) <= 2 ^ 31)%Z ->
          NoDup (map Sf.c_cvr_id (Sf.df_cvr t))))
  /\ (forall ts df t,
         Scc.preprocess ts df = Ok t ->
         rbind (Scc.reformat_strings df) Scc.set_index
         = Ok (map SccId.cvr_id (Scc.df_cvr t))).
Proof.
  split.
  - intros ts files nfiles cd nd t H.
    apply SfFacts.sf_preprocess_ok_inv in H. destruct H as (st & _ & _ & _ & ->).
    cbn [Sf.df_cvr].
    assert (E : map Sf.c_cvr_id
                    (map (fun r => Sf.MkCvrRow (int32 (fst r)) (snd r))
                         (fst (Sf.read_raw files nfiles)))
                = map (fun i => int32 (Z.of_nat i))
                      (seq 0 (length (fst (Sf.read_raw files nfiles))))).
    { rewrite map_map. cbn [Sf.c_cvr_id].
      rewrite <- (map_map fst int32), CounterFacts.read_raw_ids, map_map.
      reflexivity. }
    rewrite length_map. split; [exact E|].
    intros Hn. rewrite E. apply CounterFacts.int32_seq_NoDup. exact Hn.
  - intros ts df t H. apply SccFacts.cvr_ids with (ts := ts). exact H.
Qed.

Lemma C8_ballot_ids_witness :
  SfSpec.run = Ok SfSpec.tables
  /\ map Sf.c_cvr_id (Sf.df_cvr SfSpec.tables) = [0%Z; 1%Z]
  /\ NoDup (map Sf.c_cvr_id (Sf.df_cvr SfSpec.tables))
  /\ SccSpec.run = Ok SccSpec.tables
  /\ rbind (Scc.reformat_strings SccSpec.same_number) Scc.set_index
     = Ok (map SccId.cvr_id (Scc.df_cvr SccSpec.tables)).
Proof.
  destruct C8_ballot_ids as [Hsf Hscc].
  split; [vm_compute; reflexivity|].
  split; [vm_compute; reflexivity|]. split.
  - apply (Hsf SfSpec.chain SfSpec.archive None SfSpec.contests SfSpec.candidates).
    + vm_compute. reflexivity.
    + vm_compute. discriminate.
  - split; [vm_compute; reflexivity|].
    apply (Hscc SccSpec.chain). vm_compute. reflexivity.
Defined.

(** ** Levels, codes and the office table *)

Module PandasFacts.

Import Scc ListFacts.

Section IndexOf.

Context {A : Type} (eqb : A -> A -> bool).
Hypothesis eqb_eq : forall x y, eqb x y = true <-> x = y.

Lemma index_of_bound (x : A) (l : list A) (i : nat) :
  index_of eqb x l = Some i -> i < length l /\ nth_error l i = Some x.
Proof.
  revert i. induction l as [|y l IH]; simpl; intros i H; [discriminate|].
  destruct (eqb x y) eqn:E.
  - injection H as <-. apply eqb_eq in E. subst. split; [lia|reflexivity].
  - destruct (index_of eqb x l) as [j|]; [|discriminate].
    injection H as <-. destruct (IH j eq_refl). split; [lia|assumption].
Qed.

Lemma index_of_in (x : A) (l : list A) :
  In x l -> exists i, index_of eqb x l = Some i.
Proof.
  induction l as [|y l IH]; simpl; [intros []|].
  intros H. destruct (eqb x y) eqn:E; [eauto|].
  destruct H as [->|H].
  - assert (eqb x x = true) by (apply eqb_eq; reflexivity). congruence.
  - destruct (IH H) as [i ->]. simpl. eauto.
Qed.

Lemma index_of_none (x : A) (l : list A) :
  index_of eqb x l = None -> ~ In x l.
Proof.
  intros H Hin. destruct (index_of_in x l Hin). congruence.
Qed.

Lemma factorize_from_length (xs : list A) : forall u,
  length (fst (factorize_from eqb u xs)) = length xs.
Proof.
  induction xs as [|x xs IH]; intros u; simpl; [reflexivity|].
  destruct (index_of eqb x u).
  - specialize (IH u). destruct (factorize_from eqb u xs). simpl in *. lia.
  - specialize (IH (u ++ [x])). destruct (factorize_from eqb (u ++ [x]) xs).
    simpl in *. lia.
Qed.

Hypothesis eqb_refl : forall x, eqb x x = true.

(** Every row has an equal row in what [drop_duplicates] keeps. *)
Lemma drop_duplicates_from_covers (xs : list A) : forall seen x,
  In x xs ->
  exists y, (In y seen \/ In y (drop_duplicates_from eqb seen xs))
            /\ eqb x y = true.
Proof.
  induction xs as [|a xs IH]; simpl; intros seen x; [intros []|].
  intros [->|Hin].
  - destruct (existsb (eqb x) seen) eqn:E.
    + apply existsb_exists in E. destruct E as (y & Hy & Hxy). eauto.
    + exists x. split; [right; left; reflexivity|apply eqb_refl].
  - destruct (existsb (eqb a) seen) eqn:E.
    + apply IH. exact Hin.
    + destruct (IH (a :: seen) x Hin) as (y & [[<-|Hy]|Hy] & Hxy).
      * exists a. split; [right; left; reflexivity|exact Hxy].
      * eauto.
      * exists y. split; [right; right; exact Hy|exact Hxy].
Qed.

Lemma drop_duplicates_covers (xs : list A) (x : A) :
  In x xs -> exists y, In y (drop_duplicates eqb xs) /\ eqb x y = true.
Proof.
  intros H. destruct (drop_duplicates_from_covers xs [] x H) as (y & [[]|Hy] & E).
  eauto.
Qed.

End IndexOf.

Lemma levels_in (xs : list str) (x : str) : In x (levels xs) <-> In x xs.
Proof.
  unfold levels. rewrite in_sort_by. apply nodup_In.
Qed.

Lemma length_range (n : nat) : length (range n) = n.
Proof. apply length_seq. Qed.

(** A description of the column has a code, and the code a value in the
    new level. *)
Lemma relevel_in (xs : list str) (ids : list Z) (x : str) :
  length ids = length (levels xs) -> In x xs ->
  In (relevel (levels xs) ids x) ids.
Proof.
  intros Hlen Hx. unfold relevel, code_of.
  apply levels_in in Hx.
  destruct (index_of_in str_eqb str_eqb_eq x (levels xs) Hx) as [i Hi].
  rewrite Hi. apply index_of_bound in Hi; [|exact str_eqb_eq].
  apply nth_In. lia.
Qed.

Lemma key_eqb_eq (a b : office_key) : key_eqb a b = true <-> a = b.
Proof.
  destruct a as [[[l1 j1] o1] d1], b as [[[l2 j2] o2] d2]. unfold key_eqb.
  rewrite !andb_true_iff, !str_eqb_eq. split.
  - intros [[[-> ->] ->] ->]. reflexivity.
  - intros H. injection H as -> -> -> ->. auto.
Qed.

Lemma office_row_eqb_refl (r : OfficeRow) : office_row_eqb r r = true.
Proof.
  unfold office_row_eqb. rewrite Z.eqb_refl, andb_true_r.
  apply key_eqb_eq. reflexivity.
Qed.

Lemma office_row_eqb_id (a b : OfficeRow) :
  office_row_eqb a b = true -> o_office_id a = o_office_id b.
Proof.
  unfold office_row_eqb. intros H. apply andb_prop in H. destruct H as [_ H].
  apply Z.eqb_eq. exact H.
Qed.

Lemma length_office_ids (keys : list office_key) :
  length (office_ids keys) = length keys.
Proof.
  unfold office_ids, factorize. rewrite length_map.
  apply factorize_from_length.
Qed.

(** Every office id given to a contest is the id of a row of the Office
    table. *)
Lemma office_id_resolves (keys : list office_key) (o : Z) :
  In o (office_ids keys) ->
  In o (map o_office_id (office_table keys (office_ids keys))).
Proof.
  intros H. unfold office_table.
  assert (Hrow : exists r,
             In r (map2 (fun k o => let '(l, j, f, d) := k in MkOfficeRow o l j f d)
                        keys (office_ids keys))
             /\ o_office_id r = o).
  { apply In_nth_error in H. destruct H as [i Hi].
    assert (Hlt : i < length keys).
    { rewrite <- length_office_ids. apply nth_error_Some. congruence. }
    destruct (nth_error keys i) as [k|] eqn:Hk;
      [|apply nth_error_None in Hk; lia].
    exists (let '(l, j, f, d) := k in MkOfficeRow o l j f d). split.
    - unfold map2. apply in_map_iff. exists (k, o). split; [reflexivity|].
      apply (nth_error_In _ i).
      revert Hk Hi. generalize (office_ids keys). revert i Hlt.
      induction keys as [|k0 keys IH]; intros [|i] Hlt [|o0 os] Hk Hi;
        simpl in *; try discriminate; try lia.
      + injection Hk as ->. injection Hi as ->. reflexivity.
      + apply IH; [lia|assumption|assumption].
    - destruct k as [[[l j] f] d]. reflexivity. }
  destruct Hrow as (r & Hr & <-).
  destruct (drop_duplicates_covers office_row_eqb office_row_eqb_refl _ r Hr)
    as (y & Hy & E).
  apply office_row_eqb_id in E. rewrite E. apply in_map. exact Hy.
Qed.

End PandasFacts.

(** ** Vendor A: what [split_contest] and [split_candidate] return *)

Module SplitFacts.

Import Scc SccText ListFacts PandasFacts.

Lemma set_levels_ok (ids ids' : list Z) : set_levels ids = Ok ids' -> ids' = ids.
Proof.
  unfold set_levels. destruct (is_unique ids); [|discriminate].
  intros H. injection H as <-. reflexivity.
Qed.

Lemma split_contest_inv (ts : list transformer) (df : list (Long str str))
    (dc : list ContestRow) (dof : list OfficeRow) (l2 : list (Long Z str)) :
  split_contest ts df = Ok (dc, dof, l2) ->
  exists contest_data,
    map_result (standardize ts) (levels (map (@l_contest _ _) df)) = Ok contest_data
    /\ dc = map2 contest_row (level_ids (length contest_data))
                 (combine contest_data
                          (office_ids (map office_key_of contest_data)))
    /\ dof = office_table (map office_key_of contest_data)
                          (office_ids (map office_key_of contest_data))
    /\ l2 = map (fun m => MkLong (l_cvr_id m)
                            (relevel (levels (map (@l_contest _ _) df))
                                     (level_ids (length contest_data))
                                     (l_contest m))
                            (l_candidate m) (l_rank m)) df.
Proof.
  unfold split_contest.
  destruct (map_result (standardize ts) (levels (map (@l_contest _ _) df)))
    as [contest_data|] eqn:E; [|discriminate].
  cbn [rbind]. destruct contest_data as [|c0 rest] eqn:D; [discriminate|].
  rewrite <- D in *.
  destruct (set_levels (level_ids (length contest_data))) as [ids|] eqn:S;
    [|discriminate].
  apply set_levels_ok in S. subst ids. cbn [rbind].
  intros H. injection H as <- <- <-. exists contest_data. auto.
Qed.

Lemma split_candidate_inv (df : list (Long Z str))
    (dn : list CandidateRow) (l3 : list (Long Z Z)) :
  split_candidate df = Ok (dn, l3) ->
  forallb (fun parts => Nat.eqb (length parts) 2)
          (map (split_on ";") (levels (map (@l_candidate _ _) df))) = true
  /\ dn = map2 candidate_row
               (level_ids (length (levels (map (@l_candidate _ _) df))))
               (map (split_on ";") (levels (map (@l_candidate _ _) df)))
  /\ l3 = map (fun m => MkLong (l_cvr_id m) (l_contest m)
                          (relevel (levels (map (@l_candidate _ _) df))
                                   (level_ids
                                      (length (levels (map (@l_candidate _ _) df))))
                                   (l_candidate m))
                          (l_rank m)) df.
Proof.
  unfold split_candidate.
  destruct (forallb _ (map (split_on ";") (levels (map (@l_candidate _ _) df))))
    eqn:F; [|discriminate].
  rewrite length_map.
  destruct (set_levels (level_ids (length (levels (map (@l_candidate _ _) df)))))
    as [ids|] eqn:S; [|discriminate].
  apply set_levels_ok in S. subst ids. cbn [rbind].
  intros H. injection H as <- <-. auto.
Qed.

Lemma length_level_ids (n : nat) : length (level_ids n) = n.
Proof. unfold level_ids. rewrite length_map. apply length_range. Qed.

(** The index of [df_contest] is the new contest level. *)
Lemma contest_ids (contest_data : list (str * str * str * str * str * Z)) :
  map contest_id
      (map2 contest_row (level_ids (length contest_data))
            (combine contest_data (office_ids (map office_key_of contest_data))))
  = level_ids (length contest_data).
Proof.
  rewrite <- (map_id (level_ids (length contest_data))) at 2.
  apply map2_fst.
  - intros i [[[[[[l j] o] d] t] v] oid]. reflexivity.
  - rewrite length_level_ids, length_combine, length_office_ids, length_map.
    rewrite Nat.min_id. apply Nat.le_refl.
Qed.

(** The index of [df_candidate] is the new candidate level. *)
Lemma candidate_ids (lv : list str) :
  map candidate_id (map2 candidate_row (level_ids (length lv)) (map (split_on ";") lv))
  = level_ids (length lv).
Proof.
  rewrite <- (map_id (level_ids (length lv))) at 2.
  apply map2_fst.
  - reflexivity.
  - rewrite length_level_ids, length_map. apply Nat.le_refl.
Qed.

(** The office ids of [df_contest] are office ids of the factorization. *)
Lemma contest_office_ids (contest_data : list (str * str * str * str * str * Z))
    (c : ContestRow) :
  In c (map2 contest_row (level_ids (length contest_data))
             (combine contest_data (office_ids (map office_key_of contest_data)))) ->
  In (office_id c) (office_ids (map office_key_of contest_data)).
Proof.
  intros H. apply in_map2 in H. destruct H as (i & d & _ & Hd & ->).
  destruct d as [[[[[[l j] o] dd] t] v] oid]. cbn.
  apply in_combine_r in Hd. exact Hd.
Qed.

End SplitFacts.

(** C1 (counterexample).  In the nested per-ballot path a ballot that
    marks candidate 6 in contest 2, where the manifests know neither, is
    read and handed to the writer: the Mark table has a row whose contest
    id and candidate id are in no row of Contest and Candidate.  Nothing
    in either path asserts that the keys resolve. *)
Lemma C1_orphan_mark_is_written :
  Sf.preprocess_path SfSpec.chain SfSpec.archive SfSpec.contests
                     SfSpec.candidates None []
  = (Ok tt, [SfSpec.tables])
  /\ exists m,
       In m (Sf.df_mark SfSpec.tables)
       /\ ~ In (Sf.contest_id m) (map Sf.t_contest_id (Sf.df_contest SfSpec.tables))
       /\ ~ In (Sf.candidate_id m)
               (map Sf.n_candidate_id (Sf.df_candidate SfSpec.tables)).
Proof.
  split; [vm_compute; reflexivity|].
  exists (Sf.MkMarkRow 0 2 6 1 true false). split; [|split].
  - simpl. right. left. reflexivity.
  - simpl. intros [H|[H|[]]]; discriminate.
  - simpl. intros [H|[]]; discriminate.
Qed.

(** C1 (amended).  No assertion checks the foreign keys.  In the
    wide-spreadsheet path they resolve by construction: every Mark row's
    contest id and candidate id are ids of the Contest and Candidate
    tables, and every Contest row's office id is an id of the Office
    table.  In the nested per-ballot path every Contest row's office id is
    an id of the Office table; the contest and candidate ids of Mark are
    copied from the ballots as they are. *)
Theorem C1_foreign_keys :
  (forall ts df t,
      Scc.preprocess ts df = Ok t ->
      (forall m, In m (Scc.df_mark t) ->
                 In (Scc.l_contest m) (map Scc.contest_id (Scc.df_contest t))
                 /\ In (Scc.l_candidate m)
                       (map Scc.candidate_id (Scc.df_candidate t)))
      /\ (forall c, In c (Scc.df_contest t) ->
                    In (Scc.office_id c) (map Scc.o_office_id (Scc.df_office t))))
  /\ (forall ts cvr_data cd nd md t,
         Sf.preprocess ts cvr_data cd nd md = Ok t ->
         forall c, In c (Sf.df_contest t) ->
                   In (Sf.t_office_id c) (map Scc.o_office_id (Sf.df_office t))).
Proof.
  split.
  - intros ts df t H. apply SccFacts.scc_preprocess_ok_inv in H.
    destruct H as (index & cvr & wide & dc & dof & l2 & dn & l3
                   & _ & _ & _ & Hc & Hn & ->).
    apply SplitFacts.split_contest_inv in Hc.
    destruct Hc as (contest_data & Hstd & -> & -> & ->).
    apply SplitFacts.split_candidate_inv in Hn. destruct Hn as (_ & -> & ->).
    cbn [Scc.df_mark Scc.df_contest Scc.df_candidate Scc.df_office].
    split.
    + intros m Hm. unfold Scc.index_marks in Hm. apply ListFacts.in_sort_by in Hm.
      apply in_map_iff in Hm. destruct Hm as (m2 & <- & Hm2).
      cbn [Scc.l_contest Scc.l_candidate].
      rewrite SplitFacts.contest_ids, SplitFacts.candidate_ids. split.
      * apply in_map_iff in Hm2. destruct Hm2 as (m1 & <- & Hm1).
        cbn [Scc.l_contest].
        apply PandasFacts.relevel_in.
        -- rewrite SplitFacts.length_level_ids.
           apply ListFacts.map_result_length in Hstd. exact Hstd.
        -- apply in_map. exact Hm1.
      * apply PandasFacts.relevel_in.
        -- apply SplitFacts.length_level_ids.
        -- apply in_map. exact Hm2.
    + intros c Hc. apply PandasFacts.office_id_resolves.
      apply SplitFacts.contest_office_ids. exact Hc.
  - intros ts cvr_data cd nd md t H c Hc.
    apply SfFacts.sf_preprocess_ok_inv in H. destruct H as (st & _ & _ & _ & ->).
    cbn [Sf.df_contest Sf.df_office] in *.
    apply PandasFacts.office_id_resolves.
    apply ListFacts.in_map2 in Hc. destruct Hc as (r & o & _ & Ho & ->).
    exact Ho.
Qed.

Lemma C1_foreign_keys_witness :
  SccSpec.run = Ok SccSpec.tables
  /\ (forall m, In m (Scc.df_mark SccSpec.tables) ->
                In (Scc.l_contest m) (map Scc.contest_id (Scc.df_contest SccSpec.tables))
                /\ In (Scc.l_candidate m)
                      (map Scc.candidate_id (Scc.df_candidate SccSpec.tables)))
  /\ SfSpec.run = Ok SfSpec.tables
  /\ (forall c, In c (Sf.df_contest SfSpec.tables) ->
                In (Sf.t_office_id c)
                   (map Scc.o_office_id (Sf.df_office SfSpec.tables))).
Proof.
  destruct C1_foreign_keys as [Hscc Hsf].
  split; [vm_compute; reflexivity|]. split.
  - apply (Hscc SccSpec.chain SccSpec.same_number). vm_compute. reflexivity.
  - split; [vm_compute; reflexivity|].
    apply (Hsf SfSpec.chain (fst (Sf.read_raw SfSpec.archive None)) SfSpec.contests
               SfSpec.candidates (snd (Sf.read_raw SfSpec.archive None))).
    vm_compute. reflexivity.
Defined.

(** ** Write-in columns *)

Module WriteInFacts.

Import Scc ListFacts PandasFacts ReFacts.

Lemma split_on_length (sep : ascii) (s : str) :
  length (split_on sep s) = S (count_occ ascii_dec s sep).
Proof.
  induction s as [|c s IH]; [reflexivity|]. cbn [split_on count_occ].
  destruct (Ascii.eqb_spec c sep) as [->|Hne].
  - destruct (ascii_dec sep sep); [|congruence]. simpl. rewrite IH. reflexivity.
  - destruct (ascii_dec c sep); [congruence|].
    destruct (split_on sep s) as [|w ws]; simpl in *; [discriminate|exact IH].
Qed.

Lemma split_on_first (sep : ascii) (a b : str) :
  count_occ ascii_dec a sep = 0 ->
  split_on sep (a ++ sep :: b) = a :: split_on sep b.
Proof.
  induction a as [|c a IH]; cbn [app split_on count_occ].
  - intros _. rewrite Ascii.eqb_refl. reflexivity.
  - destruct (ascii_dec c sep) as [->|Hne]; [discriminate|].
    intros H. rewrite IH by exact H.
    destruct (Ascii.eqb_spec c sep); [congruence|reflexivity].
Qed.

(** A description of two parts is split at its one delimiter. *)
Lemma split_two_parts (sep : ascii) (a b : str) :
  length (split_on sep (a ++ sep :: b)) = 2 ->
  nth 0 (split_on sep (a ++ sep :: b)) [] = a.
Proof.
  rewrite split_on_length, count_occ_app. cbn [count_occ].
  destruct (ascii_dec sep sep); [|congruence]. intros H.
  rewrite split_on_first by lia. reflexivity.
Qed.

Definition no_yes_no (c : ascii) : bool :=
  negb (Ascii.eqb c "Y") && negb (Ascii.eqb c "N").

Lemma bonds_groups (s : str) (g : list str) (rest : str) :
  rmatch bonds_re s [] [] = Some (g, rest) -> g = [py "YES"] \/ g = [py "NO"].
Proof.
  unfold bonds_re. cbn [rmatch].
  destruct (strip_prefix (py "BONDS—") s) as [s1|]; [|discriminate].
  cbn [first_alt].
  destruct (strip_prefix (py "YES") s1) as [s2|] eqn:E1.
  - apply strip_prefix_inv in E1. subst s1. cbn [rev app].
    rewrite firstn_consumed. intros H. injection H as <- _. auto.
  - destruct (strip_prefix (py "NO") s1) as [s2|] eqn:E2; [|discriminate].
    apply strip_prefix_inv in E2. subst s1. cbn [rev app].
    rewrite firstn_consumed. intros H. injection H as <- _. auto.
Qed.

(** A text without [Y] and [N] after the replacement is a text the
    replacement has not touched. *)
Lemma sub_bonds_untouched (s : str) :
  forallb no_yes_no (sub bonds_re (fun g => nth 0 g []) s) = true ->
  sub bonds_re (fun g => nth 0 g []) s = s.
Proof.
  unfold sub. induction s as [|c s IH]; [reflexivity|]. cbn [sub_from].
  destruct (rmatch bonds_re (c :: s) [] []) as [[g rest]|] eqn:E.
  - destruct (length (c :: s) - length rest) as [|k].
    + cbn [forallb]. intros H. apply andb_prop in H. destruct H as [_ H].
      rewrite IH by exact H. reflexivity.
    + apply bonds_groups in E. destruct E as [-> | ->]; cbn; discriminate.
  - cbn [forallb]. intros H. apply andb_prop in H. destruct H as [_ H].
    rewrite IH by exact H. reflexivity.
Qed.

Lemma blank_unnamed_cases (x : str) : blank_unnamed x = [] \/ blank_unnamed x = x.
Proof. unfold blank_unnamed. destruct (contains x (py "Unnamed")); auto. Qed.

(** The new candidate label of a column is not [Write-in] unless its
    header is. *)
Lemma relabel_not_write_in (h : Header) :
  is_write_in h = false ->
  exists cand party,
    snd (relabel h) = cand ++ ";"%char :: party /\ cand <> py "Write-in".
Proof.
  intros Hw. unfold relabel. cbn [snd].
  exists (sub bonds_re (fun g => nth 0 g []) (blank_unnamed (h_candidate h))),
         (blank_unnamed (h_party h)).
  split; [reflexivity|]. intros E.
  assert (U : sub bonds_re (fun g => nth 0 g []) (blank_unnamed (h_candidate h))
              = blank_unnamed (h_candidate h)).
  { apply sub_bonds_untouched. rewrite E. reflexivity. }
  rewrite U in E. unfold is_write_in in Hw. apply str_eqb_neq in Hw.
  destruct (blank_unnamed_cases (h_candidate h)) as [B|B]; rewrite B in E.
  - discriminate.
  - contradiction.
Qed.

Lemma update_column_index_inv (wf : WideFrame)
    (wide : list Z * list (str * str * list (option Z))) :
  update_column_index wf = Ok wide ->
  wide = (w_index wf,
          map (fun c => (relabel (fst c), snd c))
              (filter (fun c => negb (is_write_in (fst c))) (w_columns wf))).
Proof.
  unfold update_column_index.
  destruct (existsb _ (w_columns wf)); [|discriminate].
  intros H. injection H as <-. reflexivity.
Qed.

(** Every row of the long frame comes from a column that is kept. *)
Lemma tidy_candidates (wf : WideFrame)
    (wide : list Z * list (str * str * list (option Z))) (m : Long str str) :
  update_column_index wf = Ok wide -> In m (tidy wide) ->
  exists h cells,
    In (h, cells) (w_columns wf) /\ is_write_in h = false
    /\ l_contest m = fst (relabel h) /\ l_candidate m = snd (relabel h).
Proof.
  intros H Hm. apply update_column_index_inv in H. subst wide.
  unfold tidy in Hm. apply in_sort_by in Hm. cbn [fst snd] in Hm.
  apply in_flat_map in Hm. destruct Hm as (c & Hc & Hm).
  apply in_map_iff in Hc. destruct Hc as ([h cells] & <- & Hc).
  apply filter_In in Hc. destruct Hc as [Hin Hw].
  exists h, cells. split; [exact Hin|]. split.
  - cbn [fst] in Hw. destruct (is_write_in h); [discriminate|reflexivity].
  - unfold melt_column in Hm. apply in_flat_map in Hm.
    destruct Hm as (p & _ & Hp). destruct (snd p); [|destruct Hp].
    destruct Hp as [<-|[]]. cbn. auto.
Qed.

End WriteInFacts.

(** C7 (counterexample).  In the nested per-ballot path nothing excludes
    write-in choices: the ballot that marks candidate 5, the write-in
    line of contest 1, gives a Mark row that references it, and the
    tables are handed to the writer. *)
Lemma C7_write_in_mark_is_kept :
  Sf.preprocess_path SfSpec.chain SfSpec.archive SfSpec.contests
                     SfSpec.candidates None []
  = (Ok tt, [SfSpec.tables])
  /\ exists m c,
       In m (Sf.df_mark SfSpec.tables)
       /\ In c (Sf.df_candidate SfSpec.tables)
       /\ Sf.candidate_id m = Sf.n_candidate_id c
       /\ Sf.n_name c = py "Write-in" /\ Sf.n_Type c = py "WriteIn".
Proof.
  split; [vm_compute; reflexivity|].
  exists (Sf.MkMarkRow 0 1 5 1 true false),
         (Sf.MkCandidateRow 5 (py "Write-in") [] 1 (py "WriteIn") false None).
  repeat split; simpl; auto.
Qed.

(** C7 (amended).  In the wide-spreadsheet path the columns whose
    candidate header is [Write-in] are dropped before the frame is
    reshaped: no row of the Candidate table is named [Write-in], so no
    Mark row references a write-in choice.  The nested per-ballot path
    keeps every mark of the ballots, write-in or not. *)
Theorem C7_no_write_in_candidate (ts : list transformer) (df : Scc.RawFrame)
    (t : Scc.Tables) :
  Scc.preprocess ts df = Ok t ->
  (forall c, In c (Scc.df_candidate t) -> Scc.name c <> Some (py "Write-in"))
  /\ (forall m c, In m (Scc.df_mark t) -> In c (Scc.df_candidate t) ->
                  Scc.candidate_id c = Scc.l_candidate m ->
                  Scc.name c <> Some (py "Write-in")).
Proof.
  intros H.
  assert (Hc : forall c, In c (Scc.df_candidate t) ->
                         Scc.name c <> Some (py "Write-in")).
  { apply SccFacts.scc_preprocess_ok_inv in H.
    destruct H as (index & cvr & wide & dc & dof & l2 & dn & l3
                   & _ & _ & Hu & Hs & Hn & ->).
    apply SplitFacts.split_contest_inv in Hs.
    destruct Hs as (contest_data & _ & _ & _ & ->).
    apply SplitFacts.split_candidate_inv in Hn. destruct Hn as (Hparts & -> & _).
    cbn [Scc.df_candidate]. intros c Hin.
    apply ListFacts.in_map2 in Hin. destruct Hin as (i & parts & _ & Hp & ->).
    rewrite forallb_forall in Hparts. specialize (Hparts parts Hp).
    apply Nat.eqb_eq in Hparts.
    apply in_map_iff in Hp. destruct Hp as (desc & <- & Hd).
    apply (proj1 (PandasFacts.levels_in _ _)) in Hd.
    rewrite map_map in Hd. cbn [Scc.l_candidate] in Hd.
    apply in_map_iff in Hd. destruct Hd as (m & <- & Hm).
    destruct (WriteInFacts.tidy_candidates _ _ m Hu Hm) as (h & cells & _ & Hw & _ & E).
    destruct (WriteInFacts.relabel_not_write_in h Hw) as (cand & party & E' & Hne).
    rewrite E, E' in Hparts |- *. cbn [Scc.candidate_row Scc.name].
    rewrite WriteInFacts.split_two_parts by exact Hparts.
    destruct cand as [|x cand]; cbn [Scc.none_if_empty]; [discriminate|].
    intros F. apply Hne.
    exact (f_equal (fun o => match o with Some s => s | None => [] end) F). }
  split; [exact Hc|]. intros m c _ Hin _. apply Hc. exact Hin.
Qed.

Lemma C7_no_write_in_candidate_witness :
  SccSpec.run = Ok SccSpec.tables
  /\ exists h cells,
       In (h, cells) (Scc.raw_marks SccSpec.same_number)
       /\ Scc.is_write_in h = true
       /\ forall c, In c (Scc.df_candidate SccSpec.tables) ->
                    Scc.name c <> Some (py "Write-in").
Proof.
  split; [vm_compute; reflexivity|].
  exists (SccSpec.header "Mayor (Vote For=1)" "Write-in" "Unnamed: 10_level_2"),
         [None; Some 1%Z].
  split; [simpl; auto|]. split; [reflexivity|].
  apply (C7_no_write_in_candidate SccSpec.chain SccSpec.same_number).
  vm_compute. reflexivity.
Defined.

(** ** The checks a run has passed *)

Module ChecksFacts.

Import SccId Scc ImprintedSpec ChecksSpec ListFacts IdFacts IdKeeps.

Lemma map_result_each {A B} (f : A -> result B) (xs : list A) (ys : list B) (x : A) :
  map_result f xs = Ok ys -> In x xs -> exists y, f x = Ok y.
Proof.
  intros H. apply map_result_ok in H.
  induction H as [|a b xs ys Hab _ IH]; intros Hin; [destruct Hin|].
  destruct Hin as [<-|Hin]; eauto.
Qed.

(** The validator returns only when its three assertions hold on the
    frame it was given. *)
Lemma clean_ok_checks (df df' : df_id) :
  check_and_clean_id_invariants df = (Ok tt, df') ->
  imprinted_check df /\ ballot_type_check df /\ precinct_check df.
Proof.
  intros H. apply stages in H.
  destruct H as (d1 & d2 & d3 & d4 & H1 & H2 & H3 & H4 & _).
  assert (K2 : keeps BallotType df d2).
  { apply (keeps_trans _ df d1 d2).
    - apply (stage1_keeps BallotType df d1); auto.
    - apply (stage2_keeps BallotType d1 d2); auto. }
  assert (K3 : keeps (fun r => cell_or_nan (PrecinctPortion r)) df d3).
  { apply (keeps_trans _ df d1 d3).
    - apply (stage1_keeps (fun r => cell_or_nan (PrecinctPortion r)) df d1); auto.
    - apply (keeps_trans _ d1 d2 d3).
      + apply (stage2_keeps (fun r => cell_or_nan (PrecinctPortion r)) d1 d2); auto.
      + apply (stage3_keeps (fun r => cell_or_nan (PrecinctPortion r)) d2 d3); auto. }
  split; [|split].
  - apply check_imprinted_id_ok in H1. exact (proj1 H1).
  - apply check_ballot_type_ok in H3. destruct H3 as [H3 _].
    unfold ballot_type_check, ballot_type_ok, ballot_type_groups in *.
    unfold keeps in K2. rewrite <- K2. exact H3.
  - apply check_precinct_portion_ok in H4. destruct H4 as (_ & H4 & _).
    unfold precinct_check. unfold keeps in K3. rewrite <- K3. exact H4.
Qed.

(** A run of vendor A returns only when every check has passed. *)
Lemma scc_ok_checks (ts : list transformer) (df : RawFrame) (t : Tables) :
  preprocess ts df = Ok t ->
  exists index,
    rbind (reformat_strings df) set_index = Ok index /\ scc_checks ts df index.
Proof.
  intros H. apply SccFacts.scc_preprocess_ok_inv in H.
  destruct H as (index & cvr & wide & dc & dof & l2 & dn & l3
                 & Hi & Hc & Hu & Hs & _ & _).
  exists index. split; [exact Hi|].
  destruct (clean_ok_checks _ _ Hc) as (A & B & C).
  unfold scc_checks, id_frame, wide_frame. repeat (split; [assumption|]).
  intros wide' Hu'. rewrite Hu in Hu'. injection Hu' as <-.
  apply SplitFacts.split_contest_inv in Hs. destruct Hs as (cdata & Hstd & _).
  intros c Hin. eapply map_result_each; eauto.
Qed.

(** A run of vendor B returns only when every description of the
    manifest is recognized. *)
Lemma sf_ok_checks (ts : list transformer) (cvr_data : list (Z * str))
    (cd : list Sf.JContestDef) (nd : list Sf.JCandidateDef)
    (md : list Sf.MarkRow) (t : Sf.Tables) :
  Sf.preprocess ts cvr_data cd nd md = Ok t -> sf_checks ts cd.
Proof.
  intros H. apply SfFacts.sf_preprocess_ok_inv in H.
  destruct H as (st & Hstd & _). intros c Hc.
  assert (Hin : In (Sf.typed_contest c) (Sf.sorted_contests cd)).
  { unfold Sf.sorted_contests. apply in_sort_by. apply in_map. exact Hc. }
  destruct (map_result_each _ _ _ _ Hstd Hin) as [key Hkey].
  exists key. exact Hkey.
Qed.

End ChecksFacts.

(** C9.  A run hands its five tables to the writer, once and after every
    check has passed, or ends with an exception and hands the writer
    nothing.  In the wide-spreadsheet path a failed check of the imprinted
    id, of the ballot type or of the precinct portion, and a contest
    description that is not standardized, end the run with an exception;
    in the nested per-ballot path a contest description that no
    transformer recognizes does. *)
Theorem C9_fail_fast :
  (forall ts df written,
      (exists t index,
          Scc.preprocess_path ts df written = (Ok tt, written ++ [t])
          /\ rbind (Scc.reformat_strings df) Scc.set_index = Ok index
          /\ ChecksSpec.scc_checks ts df index)
      \/ (exists e, Scc.preprocess_path ts df written = (Raise e, written)))
  /\ (forall ts df written index,
         rbind (Scc.reformat_strings df) Scc.set_index = Ok index ->
         ~ ChecksSpec.scc_checks ts df index ->
         exists e, Scc.preprocess_path ts df written = (Raise e, written))
  /\ (forall ts df written index wide c e0,
         rbind (Scc.reformat_strings df) Scc.set_index = Ok index ->
         Scc.update_column_index (ChecksSpec.wide_frame df index) = Ok wide ->
         In c (levels (map (@Scc.l_contest _ _) (Scc.tidy wide))) ->
         SccText.standardize ts c = Raise e0 ->
         exists e, Scc.preprocess_path ts df written = (Raise e, written))
  /\ (forall ts files cd nd nfiles written,
         (exists t,
             Sf.preprocess_path ts files cd nd nfiles written
             = (Ok tt, written ++ [t])
             /\ ChecksSpec.sf_checks ts cd)
         \/ (exists e,
                Sf.preprocess_path ts files cd nd nfiles written
                = (Raise e, written)))
  /\ (forall ts files cd nd nfiles written,
         ~ ChecksSpec.sf_checks ts cd ->
         exists e,
           Sf.preprocess_path ts files cd nd nfiles written = (Raise e, written)).
Proof.
  assert (A : forall ts df written,
             (exists t index,
                 Scc.preprocess_path ts df written = (Ok tt, written ++ [t])
                 /\ rbind (Scc.reformat_strings df) Scc.set_index = Ok index
                 /\ ChecksSpec.scc_checks ts df index)
             \/ (exists e, Scc.preprocess_path ts df written = (Raise e, written))).
  { intros ts df written. unfold Scc.preprocess_path, Scc.write.
    destruct (Scc.preprocess ts df) as [t|e] eqn:E; [left|right; eauto].
    destruct (ChecksFacts.scc_ok_checks ts df t E) as (index & Hi & Hc).
    exists t, index. auto. }
  assert (B : forall ts df written index,
             rbind (Scc.reformat_strings df) Scc.set_index = Ok index ->
             ~ ChecksSpec.scc_checks ts df index ->
             exists e, Scc.preprocess_path ts df written = (Raise e, written)).
  { intros ts df written index Hi Hn.
    destruct (A ts df written) as [(t & index' & _ & Hi' & Hc)|H]; [|exact H].
    rewrite Hi in Hi'. injection Hi' as <-. contradiction. }
  assert (C : forall ts files cd nd nfiles written,
             (exists t,
                 Sf.preprocess_path ts files cd nd nfiles written
                 = (Ok tt, written ++ [t])
                 /\ ChecksSpec.sf_checks ts cd)
             \/ (exists e,
                    Sf.preprocess_path ts files cd nd nfiles written
                    = (Raise e, written))).
  { intros ts files cd nd nfiles written. unfold Sf.preprocess_path, Sf.write.
    destruct (Sf.read_raw files nfiles) as [cvr_data mark_data].
    destruct (Sf.preprocess ts cvr_data cd nd mark_data) as [t|e] eqn:E;
      [left|right; eauto].
    exists t. split; [reflexivity|].
    exact (ChecksFacts.sf_ok_checks _ _ _ _ _ _ E). }
  split; [exact A|]. split; [exact B|]. split; [|split; [exact C|]].
  - intros ts df written index wide c e0 Hi Hu Hc He.
    apply (B ts df written index Hi).
    intros (_ & _ & _ & Hr). destruct (Hr wide Hu c Hc) as [r Hr'].
    congruence.
  - intros ts files cd nd nfiles written Hn.
    destruct (C ts files cd nd nfiles written) as [(t & _ & Hc)|H]; [|exact H].
    contradiction.
Qed.

Lemma C9_fail_fast_witness :
  Scc.preprocess_path SccSpec.chain ChecksSpec.bad_ballot_type []
  = (Raise (AssertionError "BallotType mismatch"), [])
  /\ exists e,
       Scc.preprocess_path SccSpec.chain ChecksSpec.bad_ballot_type [] = (Raise e, []).
Proof.
  split; [vm_compute; reflexivity|].
  destruct C9_fail_fast as (_ & B & _).
  apply (B SccSpec.chain ChecksSpec.bad_ballot_type [] [1%Z]).
  - vm_compute. reflexivity.
  - intros (_ & Hb & _). vm_compute in Hb. discriminate.
Defined.

(** ** [factorize]: codes in first-seen order *)

Module FactorizeFacts.

Import PandasFacts.

Section Codes.

Context {A : Type} (eqb : A -> A -> bool).
Hypothesis eqb_eq : forall x y, eqb x y = true <-> x = y.

Lemma index_of_app_some (x : A) (u v : list A) (i : nat) :
  index_of eqb x u = Some i -> index_of eqb x (u ++ v) = Some i.
Proof.
  revert i. induction u as [|y u IH]; simpl; intros i H; [discriminate|].
  destruct (eqb x y); [exact H|].
  destruct (index_of eqb x u) as [j|]; [|discriminate].
  rewrite (IH j eq_refl). exact H.
Qed.

Lemma index_of_app_none (x : A) (u v : list A) :
  index_of eqb x u = None ->
  index_of eqb x (u ++ v) = option_map (Nat.add (length u)) (index_of eqb x v).
Proof.
  induction u as [|y u IH]; simpl; intros H.
  - destruct (index_of eqb x v); reflexivity.
  - destruct (eqb x y); [discriminate|].
    destruct (index_of eqb x u); [discriminate|].
    rewrite IH by reflexivity. destruct (index_of eqb x v); reflexivity.
Qed.

Lemma index_of_self (x : A) (v : list A) : index_of eqb x (x :: v) = Some 0.
Proof.
  simpl. assert (E : eqb x x = true) by (apply eqb_eq; reflexivity).
  rewrite E. reflexivity.
Qed.

(** The distinct values are those met before, followed by new ones. *)
Lemma factorize_from_extends (xs : list A) : forall u,
  exists ext, snd (factorize_from eqb u xs) = u ++ ext.
Proof.
  induction xs as [|x xs IH]; intros u; simpl.
  - exists []. symmetry. apply app_nil_r.
  - destruct (index_of eqb x u).
    + destruct (IH u) as [ext E].
      destruct (factorize_from eqb u xs). simpl in *. eauto.
    + destruct (IH (u ++ [x])) as [ext E].
      destruct (factorize_from eqb (u ++ [x]) xs). simpl in *.
      exists (x :: ext). rewrite E, <- app_assoc. reflexivity.
Qed.

(** The code of a value is its position among the distinct values. *)
Lemma factorize_from_codes (xs : list A) : forall u,
  Forall2 (fun x c => index_of eqb x (snd (factorize_from eqb u xs)) = Some c)
          xs (fst (factorize_from eqb u xs)).
Proof.
  induction xs as [|x xs IH]; intros u; simpl; [constructor|].
  destruct (index_of eqb x u) as [i|] eqn:E.
  - specialize (IH u). destruct (factorize_from_extends xs u) as [ext X].
    destruct (factorize_from eqb u xs) as [codes u']. simpl in *.
    constructor; [|exact IH]. subst u'. apply index_of_app_some. exact E.
  - specialize (IH (u ++ [x])).
    destruct (factorize_from_extends xs (u ++ [x])) as [ext X].
    destruct (factorize_from eqb (u ++ [x]) xs) as [codes u']. simpl in *.
    constructor; [|exact IH]. subst u'. apply index_of_app_some.
    rewrite index_of_app_none by exact E. rewrite index_of_self. simpl.
    rewrite Nat.add_0_r. reflexivity.
Qed.

(** The distinct values hold no value twice, and exactly the values met. *)
Lemma factorize_from_uniques (xs : list A) : forall u,
  NoDup u ->
  NoDup (snd (factorize_from eqb u xs))
  /\ forall x, In x (snd (factorize_from eqb u xs)) <-> In x u \/ In x xs.
Proof.
  induction xs as [|x xs IH]; intros u Hu; simpl.
  - split; [exact Hu|]. intros y. tauto.
  - destruct (index_of eqb x u) as [i|] eqn:E.
    + destruct (IH u Hu) as [N I].
      destruct (factorize_from eqb u xs) as [codes u']. simpl in *.
      split; [exact N|]. intros y. rewrite I.
      apply (index_of_bound eqb eqb_eq) in E. destruct E as [_ E].
      apply nth_error_In in E. split; [tauto|].
      intros [H|[<-|H]]; auto.
    + assert (Hx : ~ In x u) by (apply (index_of_none eqb eqb_eq); exact E).
      assert (Hu' : NoDup (u ++ [x])).
      { apply NoDup_app; [exact Hu|repeat constructor; intros []|].
        intros y Hy [<-|[]]. contradiction. }
      destruct (IH (u ++ [x]) Hu') as [N I].
      destruct (factorize_from eqb (u ++ [x]) xs) as [codes u']. simpl in *.
      split; [exact N|]. intros y. rewrite I, in_app_iff. simpl. tauto.
Qed.

End Codes.

End FactorizeFacts.

Module FactorizeOrder.

Import PandasFacts FactorizeFacts.

Lemma Forall2_nth_error {A B} (R : A -> B -> Prop) (l : list A) (l' : list B) :
  Forall2 R l l' ->
  forall i x y, nth_error l i = Some x -> nth_error l' i = Some y -> R x y.
Proof.
  induction 1 as [|a b l l' Hab _ IH]; intros [|i] x y Hx Hy; simpl in *;
    try discriminate.
  - injection Hx as <-. injection Hy as <-. exact Hab.
  - eapply IH; eauto.
Qed.

Section Order.

Context {A : Type} (eqb : A -> A -> bool).
Hypothesis eqb_eq : forall x y, eqb x y = true <-> x = y.

Lemma index_of_not_in (x : A) (u : list A) : ~ In x u -> index_of eqb x u = None.
Proof.
  intros H. destruct (index_of eqb x u) as [i|] eqn:E; [|reflexivity].
  apply (index_of_bound eqb eqb_eq) in E. destruct E as [_ E].
  apply nth_error_In in E. contradiction.
Qed.

(** A value that was not met before the call gets a code past the ones
    given before the call. *)
Lemma code_lower_bound (xs u : list A) (j : nat) (x : A) (c : nat) :
  nth_error xs j = Some x ->
  nth_error (fst (factorize_from eqb u xs)) j = Some c ->
  ~ In x u -> length u <= c.
Proof.
  intros Hx Hc Hu.
  pose proof (Forall2_nth_error _ _ _ (factorize_from_codes eqb eqb_eq xs u)
                                j x c Hx Hc) as E.
  destruct (factorize_from_extends eqb xs u) as [ext X]. rewrite X in E.
  rewrite (index_of_app_none eqb) in E by (apply index_of_not_in; exact Hu).
  destruct (index_of eqb x ext) as [k|]; [|discriminate].
  simpl in E. injection E as <-. lia.
Qed.

(** Of two values met for the first time, the one met first has the
    smaller code. *)
Lemma first_seen_from (xs : list A) : forall u i j x y ci cj,
  i < j ->
  nth_error xs i = Some x -> nth_error xs j = Some y ->
  nth_error (fst (factorize_from eqb u xs)) i = Some ci ->
  nth_error (fst (factorize_from eqb u xs)) j = Some cj ->
  ~ In x u -> ~ In y u ->
  (forall k, k < i -> nth_error xs k <> Some x) ->
  (forall k, k < j -> nth_error xs k <> Some y) ->
  ci < cj.
Proof.
  induction xs as [|a xs IH]; intros u i j x y ci cj Hij Hx Hy Hci Hcj Hxu Hyu Fx Fy.
  - destruct i; discriminate.
  - destruct j as [|j]; [lia|].
    assert (Hya : y <> a).
    { intros ->. apply (Fy 0); [lia|reflexivity]. }
    cbn [factorize_from] in Hci, Hcj.
    destruct (index_of eqb a u) as [c0|] eqn:E.
    + destruct (factorize_from eqb u xs) as [codes u'] eqn:F.
      cbn [fst] in Hci, Hcj. destruct i as [|i].
      * exfalso. simpl in Hx. injection Hx as <-.
        apply Hxu. apply (index_of_bound eqb eqb_eq) in E. destruct E as [_ E].
        apply nth_error_In in E. exact E.
      * simpl in Hx, Hy, Hci, Hcj.
        apply (IH u i j x y ci cj); try assumption; try lia.
        -- rewrite F. exact Hci.
        -- rewrite F. exact Hcj.
        -- intros k Hk. apply (Fx (S k)). lia.
        -- intros k Hk. apply (Fy (S k)). lia.
    + destruct (factorize_from eqb (u ++ [a]) xs) as [codes u'] eqn:F.
      cbn [fst] in Hci, Hcj.
      assert (Hyu' : ~ In y (u ++ [a])).
      { rewrite in_app_iff. simpl. intros [H|[H|[]]]; [contradiction|congruence]. }
      simpl in Hy, Hcj. destruct i as [|i].
      * simpl in Hci. injection Hci as <-.
        assert (B : length (u ++ [a]) <= cj).
        { apply (code_lower_bound xs (u ++ [a]) j y cj Hy); [|exact Hyu'].
          rewrite F. exact Hcj. }
        rewrite length_app in B. simpl in B. lia.
      * simpl in Hx, Hci.
        assert (Hxa : x <> a).
        { intros ->. apply (Fx 0); [lia|reflexivity]. }
        apply (IH (u ++ [a]) i j x y ci cj); try assumption; try lia.
        -- rewrite F. exact Hci.
        -- rewrite F. exact Hcj.
        -- rewrite in_app_iff. simpl. intros [H|[H|[]]]; [contradiction|congruence].
        -- intros k Hk. apply (Fx (S k)). lia.
        -- intros k Hk. apply (Fy (S k)). lia.
Qed.

End Order.

End FactorizeOrder.

(** ** The offices of the contests *)

Module OfficeFacts.

Import Scc ListFacts PandasFacts FactorizeFacts FactorizeOrder OfficeSpec.

Lemma factorize_from_count {A} (eqb : A -> A -> bool) (xs : list A) : forall u,
  length (snd (factorize_from eqb u xs)) <= length u + length xs.
Proof.
  induction xs as [|x xs IH]; intros u; cbn [factorize_from].
  - simpl. lia.
  - destruct (index_of eqb x u).
    + specialize (IH u). destruct (factorize_from eqb u xs). simpl in *. lia.
    + specialize (IH (u ++ [x])). destruct (factorize_from eqb (u ++ [x]) xs).
      rewrite length_app in IH. simpl in *. lia.
Qed.

Lemma distinct_keys_count (keys : list office_key) :
  length (distinct_keys keys) <= length keys.
Proof. apply (factorize_from_count key_eqb keys []). Qed.

(** The office id at a position is the cast of the code at the
    position, and the code is the place of the tuple among the distinct
    tuples. *)
Lemma office_id_code (keys : list office_key) (i : nat) (k : office_key) (o : Z) :
  nth_error keys i = Some k -> nth_error (office_ids keys) i = Some o ->
  exists c, nth_error (fst (factorize key_eqb keys)) i = Some c
            /\ index_of key_eqb k (distinct_keys keys) = Some c
            /\ o = int16 (Z.of_nat c).
Proof.
  intros Hk Ho. unfold office_ids in Ho. rewrite nth_error_map in Ho.
  destruct (nth_error (fst (factorize key_eqb keys)) i) as [c|] eqn:Hc;
    [|discriminate].
  injection Ho as <-. exists c. split; [reflexivity|]. split; [|reflexivity].
  exact (Forall2_nth_error _ _ _ (factorize_from_codes key_eqb key_eqb_eq keys [])
                           i k c Hk Hc).
Qed.

Lemma small_code (keys : list office_key) (k : office_key) (c : nat) :
  (Z.of_nat (length keys) <= 32768)%Z ->
  index_of key_eqb k (distinct_keys keys) = Some c ->
  int16 (Z.of_nat c) = Z.of_nat c.
Proof.
  intros Hn Hc. apply (index_of_bound key_eqb key_eqb_eq) in Hc.
  destruct Hc as [Hc _]. pose proof (distinct_keys_count keys).
  apply int16_fits. unfold fits. change (2 ^ (16 - 1))%Z with 32768%Z. lia.
Qed.

Lemma office_row_id (k : office_key) (o : Z) : o_office_id (office_row k o) = o.
Proof. destruct k as [[[l j] f] d]. reflexivity. Qed.

Lemma office_row_key (k : office_key) (o : Z) :
  (o_level (office_row k o), o_jurisdiction (office_row k o),
   o_office (office_row k o), o_district (office_row k o)) = k.
Proof. destruct k as [[[l j] f] d]. reflexivity. Qed.

Lemma office_row_eqb_eq (a b : OfficeRow) : office_row_eqb a b = true <-> a = b.
Proof.
  unfold office_row_eqb. rewrite andb_true_iff, key_eqb_eq, Z.eqb_eq.
  destruct a, b; cbn. split.
  - intros [H ->]. injection H as -> -> -> ->. reflexivity.
  - intros H. injection H as -> -> -> -> ->. auto.
Qed.

Lemma existsb_row (r : OfficeRow) (seen : list OfficeRow) :
  existsb (office_row_eqb r) seen = true <-> In r seen.
Proof.
  rewrite existsb_exists. split.
  - intros (y & Hy & E). apply office_row_eqb_eq in E. subst. exact Hy.
  - intros H. exists r. split; [exact H|apply office_row_eqb_refl].
Qed.

Lemma rows_of_next (u : list office_key) (seen : list OfficeRow) (x : office_key) :
  rows_of u seen -> index_of key_eqb x u = None ->
  rows_of (u ++ [x]) (office_row x (int16 (Z.of_nat (length u))) :: seen).
Proof.
  intros R E y o. cbn [In]. rewrite (R y o). split.
  - intros [H|(c & Hc & ->)].
    + assert (K := f_equal (fun r => (o_level r, o_jurisdiction r, o_office r,
                                       o_district r)) H).
      cbn beta in K. rewrite !office_row_key in K. subst y.
      apply (f_equal o_office_id) in H. rewrite !office_row_id in H. subst o.
      exists (length u). split; [|reflexivity].
      rewrite (index_of_app_none key_eqb) by exact E.
      rewrite (index_of_self key_eqb key_eqb_eq). cbn. rewrite Nat.add_0_r.
      reflexivity.
    + exists c. split; [|reflexivity]. apply index_of_app_some. exact Hc.
  - intros (c & Hc & ->). destruct (index_of key_eqb y u) as [c'|] eqn:Ey.
    + right. exists c'. split; [reflexivity|].
      rewrite (index_of_app_some key_eqb y u [x] c' Ey) in Hc. congruence.
    + left. rewrite (index_of_app_none key_eqb) in Hc by exact Ey.
      cbn [index_of] in Hc. destruct (key_eqb y x) eqn:Eyx.
      * apply key_eqb_eq in Eyx. subst y. cbn in Hc. injection Hc as <-.
        rewrite Nat.add_0_r. reflexivity.
      * discriminate.
Qed.

(** What [drop_duplicates] keeps of the rows of the contests: the rows
    of the tuples that are new, numbered from the number of tuples met
    before. *)
Lemma office_table_from (xs : list office_key) : forall u seen,
  rows_of u seen ->
  exists ext,
    snd (factorize_from key_eqb u xs) = u ++ ext
    /\ drop_duplicates_from office_row_eqb seen
         (map2 office_row xs
               (map (fun c => int16 (Z.of_nat c)) (fst (factorize_from key_eqb u xs))))
       = map2 office_row ext
              (map (fun c => int16 (Z.of_nat c)) (seq (length u) (length ext))).
Proof.
  induction xs as [|x xs IH]; intros u seen R.
  - exists []. split; [symmetry; apply app_nil_r|reflexivity].
  - cbn [factorize_from]. destruct (index_of key_eqb x u) as [c|] eqn:E.
    + destruct (IH u seen R) as (ext & EU & ED).
      destruct (factorize_from key_eqb u xs) as [codes U]. cbn [fst snd] in *.
      exists ext. split; [exact EU|].
      unfold map2 in *. cbn [map combine fst snd drop_duplicates_from].
      assert (S : existsb (office_row_eqb (office_row x (int16 (Z.of_nat c)))) seen
                  = true).
      { apply existsb_row. apply R. exists c. auto. }
      rewrite S. exact ED.
    + destruct (IH (u ++ [x]) _ (rows_of_next u seen x R E)) as (ext & EU & ED).
      destruct (factorize_from key_eqb (u ++ [x]) xs) as [codes U].
      cbn [fst snd] in *. exists (x :: ext). split.
      * rewrite EU, <- app_assoc. reflexivity.
      * unfold map2 in *. cbn [map combine fst snd drop_duplicates_from length seq].
        assert (S : existsb (office_row_eqb
                               (office_row x (int16 (Z.of_nat (length u))))) seen
                    = false).
        { apply not_true_is_false. intros H. apply existsb_row in H.
          apply R in H. destruct H as (c & Hc & _). congruence. }
        rewrite S. f_equal. rewrite ED, length_app. cbn [length].
        rewrite Nat.add_1_r. reflexivity.
Qed.

Lemma nth_error_map2 {A B C} (f : A -> B -> C) (xs : list A) (ys : list B) (i : nat) :
  nth_error (map2 f xs ys) i
  = match nth_error xs i, nth_error ys i with
    | Some x, Some y => Some (f x y)
    | _, _ => None
    end.
Proof.
  unfold map2. revert ys i.
  induction xs as [|x xs IH]; intros [|y ys] [|i]; cbn; try reflexivity.
  - destruct (nth_error xs i); reflexivity.
  - apply IH.
Qed.

Lemma office_table_eq (keys : list office_key) :
  office_table keys (office_ids keys)
  = map2 office_row (distinct_keys keys) (level_ids (length (distinct_keys keys))).
Proof.
  assert (R : rows_of [] []).
  { intros x o. cbn. split; [intros []|]. intros (c & Hc & _). discriminate. }
  destruct (office_table_from keys [] [] R) as (ext & EU & ED).
  cbn [app length] in EU, ED. unfold distinct_keys, factorize. rewrite EU.
  exact ED.
Qed.

Lemma nth_error_level_ids (n c : nat) :
  c < n -> nth_error (level_ids n) c = Some (int16 (Z.of_nat c)).
Proof.
  intros H. unfold level_ids, range. rewrite nth_error_map.
  rewrite (nth_error_nth' (seq 0 n) 0) by (rewrite length_seq; exact H).
  rewrite seq_nth by exact H. reflexivity.
Qed.

(** The office id at a position is the id of a row of the Office table,
    and the row holds the tuple at the position. *)
Lemma office_row_in (keys : list office_key) (i : nat) (k : office_key) (o : Z) :
  nth_error keys i = Some k -> nth_error (office_ids keys) i = Some o ->
  In (office_row k o) (office_table keys (office_ids keys)).
Proof.
  intros Hk Ho. destruct (office_id_code keys i k o Hk Ho) as (c & _ & Hc & ->).
  apply (index_of_bound key_eqb key_eqb_eq) in Hc. destruct Hc as [Lc Uc].
  apply (nth_error_In _ c). rewrite office_table_eq, nth_error_map2, Uc.
  rewrite (nth_error_level_ids _ _ Lc). reflexivity.
Qed.

(** The row at a place of the Office table. *)
Lemma office_table_nth (keys : list office_key) (n : nat) (r : OfficeRow) :
  nth_error (office_table keys (office_ids keys)) n = Some r ->
  exists k, nth_error (distinct_keys keys) n = Some k
            /\ r = office_row k (int16 (Z.of_nat n)).
Proof.
  rewrite office_table_eq, nth_error_map2.
  destruct (nth_error (distinct_keys keys) n) as [k|] eqn:Hk; [|discriminate].
  assert (Hn : n < length (distinct_keys keys)).
  { apply nth_error_Some. congruence. }
  rewrite (nth_error_level_ids _ _ Hn). intros H. injection H as <-.
  exists k. auto.
Qed.

End OfficeFacts.

(** X1.  Two contests have the same office id exactly when they have
    the same (level, jurisdiction, office, district); this for up to
    32768 contests, the range of [np.int16]. *)
Theorem X1_office_id_same_key (keys : list office_key) (i j : nat)
    (k1 k2 : office_key) (o1 o2 : Z) :
  (Z.of_nat (length keys) <= 32768)%Z ->
  nth_error keys i = Some k1 -> nth_error keys j = Some k2 ->
  nth_error (Scc.office_ids keys) i = Some o1 ->
  nth_error (Scc.office_ids keys) j = Some o2 ->
  o1 = o2 <-> k1 = k2.
Proof.
  intros Hn Hk1 Hk2 Ho1 Ho2.
  destruct (OfficeFacts.office_id_code keys i k1 o1 Hk1 Ho1) as (c1 & _ & Hc1 & ->).
  destruct (OfficeFacts.office_id_code keys j k2 o2 Hk2 Ho2) as (c2 & _ & Hc2 & ->).
  rewrite (OfficeFacts.small_code keys k1 c1 Hn Hc1).
  rewrite (OfficeFacts.small_code keys k2 c2 Hn Hc2).
  split.
  - intros H. apply Nat2Z.inj in H. subst c2.
    apply (PandasFacts.index_of_bound Scc.key_eqb PandasFacts.key_eqb_eq) in Hc1, Hc2.
    destruct Hc1 as [_ Hc1]. destruct Hc2 as [_ Hc2]. congruence.
  - intros <-. congruence.
Qed.

Lemma X1_office_id_same_key_witness :
  (0 = 0 <-> nth 0 OfficeSpec.three_contests ([], [], [], [])
             = nth 2 OfficeSpec.three_contests ([], [], [], []))%Z.
Proof.
  apply (X1_office_id_same_key OfficeSpec.three_contests 0 2); try reflexivity.
  vm_compute. discriminate.
Defined.

(** X2.  Office ids follow the order in which the offices are first met:
    of two contests that are each the first of their office, the earlier
    one has the smaller office id. *)
Theorem X2_office_ids_first_seen (keys : list office_key) (i j : nat)
    (k1 k2 : office_key) (o1 o2 : Z) :
  (Z.of_nat (length keys) <= 32768)%Z -> i < j ->
  nth_error keys i = Some k1 -> nth_error keys j = Some k2 ->
  nth_error (Scc.office_ids keys) i = Some o1 ->
  nth_error (Scc.office_ids keys) j = Some o2 ->
  (forall n, n < i -> nth_error keys n <> Some k1) ->
  (forall n, n < j -> nth_error keys n <> Some k2) ->
  (o1 < o2)%Z.
Proof.
  intros Hn Hij Hk1 Hk2 Ho1 Ho2 F1 F2.
  destruct (OfficeFacts.office_id_code keys i k1 o1 Hk1 Ho1) as (c1 & Hd1 & Hc1 & ->).
  destruct (OfficeFacts.office_id_code keys j k2 o2 Hk2 Ho2) as (c2 & Hd2 & Hc2 & ->).
  rewrite (OfficeFacts.small_code keys k1 c1 Hn Hc1).
  rewrite (OfficeFacts.small_code keys k2 c2 Hn Hc2).
  apply Nat2Z.inj_lt.
  apply (FactorizeOrder.first_seen_from Scc.key_eqb PandasFacts.key_eqb_eq
           keys [] i j k1 k2 c1 c2); auto.
Qed.

Lemma X2_office_ids_first_seen_witness :
  (nth 0 (Scc.office_ids OfficeSpec.three_contests) 0
   < nth 1 (Scc.office_ids OfficeSpec.three_contests) 0)%Z.
Proof.
  apply (X2_office_ids_first_seen OfficeSpec.three_contests 0 1
           (nth 0 OfficeSpec.three_contests ([], [], [], []))
           (nth 1 OfficeSpec.three_contests ([], [], [], [])));
    try reflexivity.
  - vm_compute. discriminate.
  - lia.
  - intros n Hn. lia.
  - intros [|n] Hn; [|lia]. vm_compute. discriminate.
Defined.

(** X3.  The Office table lists the distinct (level, jurisdiction,
    office, district) tuples of the contests, every tuple once and in the
    order in which the tuples are first met, with the ids 0, 1, 2, ...
    as [np.int16]. *)
Theorem X3_office_table (keys : list office_key) :
  Scc.office_table keys (Scc.office_ids keys)
  = map2 OfficeSpec.office_row (OfficeSpec.distinct_keys keys)
         (Scc.level_ids (length (OfficeSpec.distinct_keys keys)))
  /\ NoDup (OfficeSpec.distinct_keys keys)
  /\ forall k, In k (OfficeSpec.distinct_keys keys) <-> In k keys.
Proof.
  split; [apply OfficeFacts.office_table_eq|].
  destruct (FactorizeFacts.factorize_from_uniques Scc.key_eqb PandasFacts.key_eqb_eq
              keys [] (NoDup_nil _)) as [N I].
  split; [exact N|]. intros k. unfold OfficeSpec.distinct_keys, factorize.
  rewrite I. cbn. tauto.
Qed.

(** X4.  The office id of a contest leads to one row of the Office
    table, and that row holds the (level, jurisdiction, office, district)
    of the contest; this for up to 32768 contests. *)
Theorem X4_office_of_contest (keys : list office_key) (i : nat)
    (k : office_key) (o : Z) :
  (Z.of_nat (length keys) <= 32768)%Z ->
  nth_error keys i = Some k -> nth_error (Scc.office_ids keys) i = Some o ->
  In (OfficeSpec.office_row k o) (Scc.office_table keys (Scc.office_ids keys))
  /\ forall r, In r (Scc.office_table keys (Scc.office_ids keys)) ->
               Scc.o_office_id r = o -> r = OfficeSpec.office_row k o.
Proof.
  intros Hn Hk Ho.
  destruct (OfficeFacts.office_id_code keys i k o Hk Ho) as (c & _ & Hc & ->).
  pose proof (OfficeFacts.small_code keys k c Hn Hc) as Sc.
  pose proof (OfficeFacts.distinct_keys_count keys) as Cn.
  apply (PandasFacts.index_of_bound Scc.key_eqb PandasFacts.key_eqb_eq) in Hc.
  destruct Hc as [Lc Uc]. split.
  - apply (nth_error_In _ c). rewrite OfficeFacts.office_table_eq.
    rewrite OfficeFacts.nth_error_map2, Uc.
    rewrite (OfficeFacts.nth_error_level_ids _ _ Lc). reflexivity.
  - intros r Hr Hid. apply In_nth_error in Hr. destruct Hr as [n Hr].
    apply OfficeFacts.office_table_nth in Hr. destruct Hr as (k' & Hk' & ->).
    rewrite OfficeFacts.office_row_id in Hid.
    assert (Ln : n < length (OfficeSpec.distinct_keys keys)).
    { apply nth_error_Some. congruence. }
    assert (Sn : int16 (Z.of_nat n) = Z.of_nat n).
    { apply ListFacts.int16_fits. unfold fits.
      change (2 ^ (16 - 1))%Z with 32768%Z. lia. }
    assert (n = c) by lia. subst n. congruence.
Qed.

Lemma X4_office_of_contest_witness :
  In (OfficeSpec.office_row (nth 2 OfficeSpec.three_contests ([], [], [], [])) 0)
     (Scc.office_table OfficeSpec.three_contests
                       (Scc.office_ids OfficeSpec.three_contests))
  /\ forall r, In r (Scc.office_table OfficeSpec.three_contests
                                      (Scc.office_ids OfficeSpec.three_contests)) ->
               Scc.o_office_id r = 0%Z ->
               r = OfficeSpec.office_row
                     (nth 2 OfficeSpec.three_contests ([], [], [], [])) 0.
Proof.
  apply (X4_office_of_contest OfficeSpec.three_contests 2); try reflexivity.
  vm_compute. discriminate.
Defined.

(** ** Sorting *)

Module SortFacts.

Import Scc ListFacts LevelSpec.

Section Sorting.

Context {A : Type} (leb : A -> A -> bool).
Hypothesis leb_total : forall a b, leb a b = true \/ leb b a = true.

Lemma insert_by_hd (x a : A) (l : list A) :
  leb a x = true -> HdRel (fun a b => leb a b = true) a l ->
  HdRel (fun a b => leb a b = true) a (insert_by leb x l).
Proof.
  intros Hax H. destruct l as [|y t]; cbn [insert_by].
  - constructor. exact Hax.
  - destruct (leb x y); constructor; [exact Hax|].
    inversion H. assumption.
Qed.

Lemma insert_by_sorted (x : A) (l : list A) :
  sorted_by leb l -> sorted_by leb (insert_by leb x l).
Proof.
  unfold sorted_by. induction 1 as [|y t St IH Hd]; cbn [insert_by].
  - repeat constructor.
  - destruct (leb x y) eqn:E.
    + constructor; [constructor; assumption|constructor; exact E].
    + constructor; [exact IH|]. apply insert_by_hd; [|exact Hd].
      destruct (leb_total x y); congruence.
Qed.

Lemma sort_by_sorted (l : list A) : sorted_by leb (sort_by leb l).
Proof.
  induction l as [|x l IH]; [constructor|]. apply insert_by_sorted. exact IH.
Qed.

End Sorting.

Lemma pair_leb_total {A B} (lea eqa : A -> A -> bool) (leb : B -> B -> bool) :
  (forall a b, lea a b = true \/ lea b a = true) ->
  (forall a b, eqa a b = eqa b a) ->
  (forall a b, leb a b = true \/ leb b a = true) ->
  forall x y, pair_leb lea eqa leb x y = true \/ pair_leb lea eqa leb y x = true.
Proof.
  intros Ta Se Tb x y. unfold pair_leb. rewrite (Se (fst y) (fst x)).
  destruct (eqa (fst x) (fst y)); [apply Tb|apply Ta].
Qed.

Lemma Z_leb_total (a b : Z) : (a <=? b)%Z = true \/ (b <=? a)%Z = true.
Proof. rewrite !Z.leb_le. lia. Qed.

Lemma mark_leb_total (a b : MarkRow) : mark_leb a b = true \/ mark_leb b a = true.
Proof.
  unfold mark_leb. apply pair_leb_total.
  - exact Z_leb_total.
  - exact Z.eqb_sym.
  - apply pair_leb_total; [exact Z_leb_total|exact Z.eqb_sym|exact Z_leb_total].
Qed.

(** *** The order of strings *)

Lemma nat_of_ascii_inj (a b : ascii) : nat_of_ascii a = nat_of_ascii b -> a = b.
Proof.
  intros H. rewrite <- (ascii_nat_embedding a), <- (ascii_nat_embedding b), H.
  reflexivity.
Qed.

Lemma str_compare_eq (a : str) : forall b, str_compare a b = Eq -> a = b.
Proof.
  induction a as [|x a IH]; intros [|y b]; cbn [str_compare]; try discriminate;
    [reflexivity|].
  destruct (Nat.compare_spec (nat_of_ascii x) (nat_of_ascii y)) as [E|E|E];
    try discriminate.
  intros H. apply nat_of_ascii_inj in E. rewrite E, (IH b H). reflexivity.
Qed.

Lemma str_compare_refl (a : str) : str_compare a a = Eq.
Proof.
  induction a as [|x a IH]; cbn [str_compare]; [reflexivity|].
  rewrite Nat.compare_refl. exact IH.
Qed.

Lemma str_compare_antisym (a : str) : forall b,
  str_compare b a = CompOpp (str_compare a b).
Proof.
  induction a as [|x a IH]; intros [|y b]; cbn [str_compare]; try reflexivity.
  rewrite (Nat.compare_antisym (nat_of_ascii x) (nat_of_ascii y)).
  destruct (Nat.compare (nat_of_ascii x) (nat_of_ascii y)); cbn; auto.
Qed.

Lemma str_compare_lt_trans (a : str) : forall b c,
  str_compare a b = Lt -> str_compare b c = Lt -> str_compare a c = Lt.
Proof.
  induction a as [|x a IH]; intros [|y b] [|z c]; cbn [str_compare];
    try discriminate; try reflexivity.
  destruct (Nat.compare_spec (nat_of_ascii x) (nat_of_ascii y)) as [E|E|E];
    try discriminate;
    destruct (Nat.compare_spec (nat_of_ascii y) (nat_of_ascii z)) as [F|F|F];
    try discriminate; intros H1 H2.
  - rewrite E, F, Nat.compare_refl. eapply IH; eauto.
  - rewrite E. apply Nat.compare_lt_iff in F. rewrite F. reflexivity.
  - rewrite <- F. apply Nat.compare_lt_iff in E. rewrite E. reflexivity.
  - assert (G : nat_of_ascii x < nat_of_ascii z) by lia.
    apply Nat.compare_lt_iff in G. rewrite G. reflexivity.
Qed.

Lemma str_leb_total (a b : str) : str_leb a b = true \/ str_leb b a = true.
Proof.
  unfold str_leb. rewrite (str_compare_antisym a b).
  destruct (str_compare a b); cbn; auto.
Qed.

Lemma str_lt_irrefl (a : str) : ~ str_lt a a.
Proof. unfold str_lt, str_ltb. rewrite str_compare_refl. discriminate. Qed.

Lemma str_lt_trans (a b c : str) : str_lt a b -> str_lt b c -> str_lt a c.
Proof.
  unfold str_lt, str_ltb.
  destruct (str_compare a b) eqn:E1; try discriminate.
  destruct (str_compare b c) eqn:E2; try discriminate.
  rewrite (str_compare_lt_trans a b c E1 E2). reflexivity.
Qed.

Lemma str_lt_asym (a b : str) : str_lt a b -> ~ str_lt b a.
Proof. intros H1 H2. exact (str_lt_irrefl a (str_lt_trans a b a H1 H2)). Qed.

Lemma str_leb_lt (a b : str) : str_leb a b = true -> a <> b -> str_lt a b.
Proof.
  unfold str_leb, str_lt, str_ltb. destruct (str_compare a b) eqn:E;
    try discriminate; try reflexivity.
  intros _ H. apply str_compare_eq in E. contradiction.
Qed.

Lemma str_leb_trans (a b c : str) :
  str_leb a b = true -> str_leb b c = true -> str_leb a c = true.
Proof.
  intros H1 H2. destruct (list_eq_dec ascii_dec a b) as [->|Nab]; [exact H2|].
  destruct (list_eq_dec ascii_dec b c) as [<-|Nbc]; [exact H1|].
  pose proof (str_lt_trans a b c (str_leb_lt a b H1 Nab) (str_leb_lt b c H2 Nbc)) as H.
  unfold str_lt, str_ltb in H. unfold str_leb.
  destruct (str_compare a c); [reflexivity|reflexivity|discriminate].
Qed.

(** The levels are in strictly increasing order. *)
Lemma levels_sorted (xs : list str) : StronglySorted str_lt (levels xs).
Proof.
  assert (N : NoDup (levels xs)).
  { unfold levels. eapply Permutation_NoDup.
    - symmetry. apply sort_by_perm.
    - apply NoDup_nodup. }
  assert (S : StronglySorted (fun a b => str_leb a b = true) (levels xs)).
  { apply Sorted_StronglySorted.
    - intros a b c. apply str_leb_trans.
    - apply (sort_by_sorted str_leb str_leb_total). }
  induction S as [|a l S IH F]; [constructor|].
  inversion N as [|a' l' Ha Nl]; subst. constructor; [apply IH; exact Nl|].
  rewrite Forall_forall in *. intros b Hb. apply str_leb_lt; [apply F; exact Hb|].
  intros ->. contradiction.
Qed.

(** In levels in increasing order the codes are in the order of the
    values. *)
Lemma index_of_sorted (lv : list str) :
  StronglySorted str_lt lv ->
  forall x y i j,
    index_of str_eqb x lv = Some i -> index_of str_eqb y lv = Some j ->
    (i < j <-> str_lt x y).
Proof.
  induction 1 as [|a l S IH F]; intros x y i j Hx Hy; [discriminate|].
  cbn [index_of] in Hx, Hy. rewrite Forall_forall in F.
  destruct (str_eqb x a) eqn:Ex; destruct (str_eqb y a) eqn:Ey.
  - apply str_eqb_eq in Ex, Ey. subst. injection Hx as <-. injection Hy as <-.
    split; [lia|]. intros H. exfalso. exact (str_lt_irrefl a H).
  - apply str_eqb_eq in Ex. subst x. injection Hx as <-.
    destruct (index_of str_eqb y l) as [j'|] eqn:Ej; [|discriminate].
    injection Hy as <-. split; [|lia]. intros _. apply F.
    apply (PandasFacts.index_of_bound str_eqb str_eqb_eq) in Ej.
    destruct Ej as [_ Ej]. apply nth_error_In in Ej. exact Ej.
  - apply str_eqb_eq in Ey. subst y. injection Hy as <-.
    destruct (index_of str_eqb x l) as [i'|] eqn:Ei; [|discriminate].
    injection Hx as <-. split; [lia|]. intros H. exfalso.
    apply (PandasFacts.index_of_bound str_eqb str_eqb_eq) in Ei.
    destruct Ei as [_ Ei]. apply nth_error_In in Ei.
    exact (str_lt_asym x a H (F x Ei)).
  - destruct (index_of str_eqb x l) as [i'|] eqn:Ei; [|discriminate].
    destruct (index_of str_eqb y l) as [j'|] eqn:Ej; [|discriminate].
    injection Hx as <-. injection Hy as <-.
    rewrite <- (IH x y i' j' Ei Ej). lia.
Qed.

End SortFacts.

(** ** The ids of contests and candidates *)

Module LevelFacts.

Import Scc SccText ListFacts PandasFacts SplitFacts SortFacts LevelSpec OfficeSpec.

Lemma map_result_nth {A B} (f : A -> result B) (xs : list A) : forall ys i x,
  map_result f xs = Ok ys -> nth_error xs i = Some x ->
  exists y, nth_error ys i = Some y /\ f x = Ok y.
Proof.
  induction xs as [|a xs IH]; intros ys i x H Hx; [destruct i; discriminate|].
  cbn [map_result] in H. destruct (f a) as [b|] eqn:Ea; [|discriminate].
  destruct (map_result f xs) as [bs|]; [|discriminate]. injection H as <-.
  destruct i as [|i]; cbn in *.
  - injection Hx as <-. eauto.
  - apply (IH bs i x eq_refl Hx).
Qed.

(** The value a description gets from the new level is its code, as
    [np.int16]. *)
Lemma relevel_code (lv : list str) (x : str) (i : nat) :
  index_of str_eqb x lv = Some i ->
  relevel lv (level_ids (length lv)) x = int16 (Z.of_nat i).
Proof.
  intros H. unfold relevel, code_of. rewrite H.
  apply (index_of_bound str_eqb str_eqb_eq) in H. destruct H as [H _].
  apply nth_error_nth. apply OfficeFacts.nth_error_level_ids. exact H.
Qed.

Lemma small_id (n i : nat) :
  (Z.of_nat n <= 32768)%Z -> i < n -> int16 (Z.of_nat i) = Z.of_nat i.
Proof.
  intros Hn Hi. apply int16_fits. unfold fits.
  change (2 ^ (16 - 1))%Z with 32768%Z. lia.
Qed.

Lemma level_ids_small (n : nat) :
  (Z.of_nat n <= 32768)%Z -> level_ids n = map Z.of_nat (seq 0 n).
Proof.
  intros Hn. unfold level_ids, range. apply map_ext_in.
  intros i Hi. apply in_seq in Hi. apply (small_id n); [exact Hn|lia].
Qed.

(** The new ids are in the order of the values they stand for. *)
Lemma relevel_order (xs : list str) (x y : str) :
  (Z.of_nat (length (levels xs)) <= 32768)%Z -> In x xs -> In y xs ->
  (relevel (levels xs) (level_ids (length (levels xs))) x
   < relevel (levels xs) (level_ids (length (levels xs))) y)%Z
  <-> str_lt x y.
Proof.
  intros Hn Hx Hy. apply levels_in in Hx, Hy.
  destruct (index_of_in str_eqb str_eqb_eq x _ Hx) as [i Hi].
  destruct (index_of_in str_eqb str_eqb_eq y _ Hy) as [j Hj].
  rewrite (relevel_code _ _ _ Hi), (relevel_code _ _ _ Hj).
  rewrite <- (index_of_sorted _ (levels_sorted xs) x y i j Hi Hj).
  apply (index_of_bound str_eqb str_eqb_eq) in Hi, Hj.
  rewrite (small_id _ i Hn) by tauto. rewrite (small_id _ j Hn) by tauto. lia.
Qed.

Lemma contest_data_length (ts : list transformer) (lv : list str)
    (contest_data : list (str * str * str * str * str * Z)) :
  map_result (standardize ts) lv = Ok contest_data ->
  length contest_data = length lv.
Proof. intros H. apply map_result_length in H. exact H. Qed.

Lemma length_contest_table (contest_data : list (str * str * str * str * str * Z)) :
  length (map2 contest_row (level_ids (length contest_data))
               (combine contest_data (office_ids (map office_key_of contest_data))))
  = length contest_data.
Proof.
  rewrite length_map2, length_level_ids, length_combine, length_office_ids, length_map.
  rewrite !Nat.min_id. reflexivity.
Qed.

Lemma nth_error_combine {A B} (xs : list A) (ys : list B) (i : nat) (x : A) (y : B) :
  nth_error xs i = Some x -> nth_error ys i = Some y ->
  nth_error (combine xs ys) i = Some (x, y).
Proof.
  revert ys i. induction xs as [|a xs IH]; intros [|b ys] [|i]; cbn;
    try discriminate.
  - intros H1 H2. injection H1 as <-. injection H2 as <-. reflexivity.
  - apply IH.
Qed.

Lemma nth_error_exists {A} (l : list A) (i : nat) :
  i < length l -> exists x, nth_error l i = Some x.
Proof.
  intros H. destruct (nth_error l i) as [x|] eqn:E; [eauto|].
  apply nth_error_None in E. lia.
Qed.

(** A text with one delimiter is two parts without delimiter around
    it. *)
Lemma count_one_split (sep : ascii) (s : str) :
  count_occ ascii_dec s sep = 1 ->
  exists a b, s = a ++ sep :: b
              /\ count_occ ascii_dec a sep = 0 /\ count_occ ascii_dec b sep = 0.
Proof.
  induction s as [|c s IH]; cbn [count_occ]; [discriminate|].
  destruct (ascii_dec c sep) as [->|Hne]; intros H.
  - exists [], s. repeat split. lia.
  - destruct (IH H) as (a & b & -> & Ha & Hb). exists (c :: a), b.
    repeat split; [|exact Hb]. cbn [count_occ].
    destruct (ascii_dec c sep); [contradiction|exact Ha].
Qed.

Lemma split_on_none (sep : ascii) (s : str) :
  count_occ ascii_dec s sep = 0 -> split_on sep s = [s].
Proof.
  induction s as [|c s IH]; cbn [count_occ split_on]; [reflexivity|].
  destruct (ascii_dec c sep) as [->|Hne]; [discriminate|]. intros H.
  rewrite (IH H). destruct (Ascii.eqb_spec c sep); [contradiction|reflexivity].
Qed.

(** The two parts of a label that [split] cuts in two. *)
Lemma split_in_two (sep : ascii) (s : str) :
  length (split_on sep s) = 2 ->
  exists a b, s = a ++ sep :: b /\ split_on sep s = [a; b]
              /\ count_occ ascii_dec a sep = 0 /\ count_occ ascii_dec b sep = 0.
Proof.
  rewrite WriteInFacts.split_on_length. intros H.
  destruct (count_one_split sep s) as (a & b & -> & Ha & Hb); [lia|].
  exists a, b. repeat split; try assumption.
  rewrite (WriteInFacts.split_on_first sep a b Ha), (split_on_none sep b Hb).
  reflexivity.
Qed.

(** The rows of the Contest and Office tables that the contest id of a
    row of the long frame leads to. *)
Lemma contest_of_mark (ts : list transformer)
    (df : list (Scc.Long str str)) (dc : list Scc.ContestRow)
    (dof : list Scc.OfficeRow) (l2 : list (Scc.Long Z str)) (m : Scc.Long str str) :
  Scc.split_contest ts df = Ok (dc, dof, l2) -> In m df ->
  exists l j o d t v oid,
    SccText.standardize ts (Scc.l_contest m) = Ok (l, j, o, d, t, v)
    /\ In (Scc.MkContestRow (LevelSpec.contest_id_of df (Scc.l_contest m))
                            t (int8 v) false oid) dc
    /\ In (Scc.MkOfficeRow oid l j o d) dof.
Proof.
  intros H Hm. apply SplitFacts.split_contest_inv in H.
  destruct H as (cd & Hcd & -> & -> & _).
  pose proof (contest_data_length _ _ _ Hcd) as L.
  assert (Hx : In (Scc.l_contest m) (levels (map (@Scc.l_contest _ _) df))).
  { apply PandasFacts.levels_in. apply in_map. exact Hm. }
  destruct (PandasFacts.index_of_in str_eqb str_eqb_eq _ _ Hx) as [i Hi].
  pose proof (relevel_code _ _ _ Hi) as Hid.
  apply (PandasFacts.index_of_bound str_eqb str_eqb_eq) in Hi.
  destruct Hi as [Li Hi].
  destruct (map_result_nth _ _ _ _ _ Hcd Hi) as (data & Hdata & Hs).
  destruct (nth_error_exists
              (Scc.office_ids (map Scc.office_key_of cd)) i) as [oid Hoid].
  { rewrite PandasFacts.length_office_ids, length_map, L. exact Li. }
  destruct data as [[[[[l j] o] d] t] v]. exists l, j, o, d, t, v, oid.
  split; [exact Hs|]. split.
  - apply (nth_error_In _ i). rewrite OfficeFacts.nth_error_map2.
    rewrite (OfficeFacts.nth_error_level_ids _ _ (eq_ind_r (fun n => i < n) Li L)).
    rewrite (nth_error_combine _ _ i _ _ Hdata Hoid).
    unfold LevelSpec.contest_id_of. rewrite Hid. reflexivity.
  - assert (Hk : nth_error (map Scc.office_key_of cd) i = Some (l, j, o, d)).
    { rewrite nth_error_map, Hdata. reflexivity. }
    destruct (OfficeFacts.office_id_code _ i _ oid Hk Hoid) as (c & _ & Hc & ->).
    apply (PandasFacts.index_of_bound Scc.key_eqb PandasFacts.key_eqb_eq) in Hc.
    destruct Hc as [Lc Uc]. apply (nth_error_In _ c).
    rewrite OfficeFacts.office_table_eq, OfficeFacts.nth_error_map2, Uc.
    rewrite (OfficeFacts.nth_error_level_ids _ _ Lc). reflexivity.
Qed.

(** The row of the Candidate table that the candidate id of a row of the
    long frame leads to. *)
Lemma candidate_of_mark (df : list (Scc.Long Z str))
    (dn : list Scc.CandidateRow) (l3 : list (Scc.Long Z Z)) (m : Scc.Long Z str) :
  Scc.split_candidate df = Ok (dn, l3) -> In m df ->
  exists nm pt,
    Scc.l_candidate m = nm ++ py ";" ++ pt
    /\ ~ In ";"%char nm /\ ~ In ";"%char pt
    /\ In (Scc.MkCandidateRow (LevelSpec.candidate_id_of df (Scc.l_candidate m))
                              (Scc.none_if_empty nm) (Scc.none_if_empty pt)) dn.
Proof.
  intros H Hm. apply SplitFacts.split_candidate_inv in H.
  destruct H as (F & -> & _).
  assert (Hx : In (Scc.l_candidate m) (levels (map (@Scc.l_candidate _ _) df))).
  { apply PandasFacts.levels_in. apply in_map. exact Hm. }
  rewrite forallb_forall in F.
  assert (L2 : length (split_on ";" (Scc.l_candidate m)) = 2).
  { apply Nat.eqb_eq. apply F. apply in_map. exact Hx. }
  destruct (split_in_two _ _ L2) as (nm & pt & E & Sp & Hn & Hp).
  exists nm, pt. split; [exact E|].
  split; [apply (count_occ_not_In ascii_dec); exact Hn|].
  split; [apply (count_occ_not_In ascii_dec); exact Hp|].
  destruct (PandasFacts.index_of_in str_eqb str_eqb_eq _ _ Hx) as [i Hi].
  pose proof (relevel_code _ _ _ Hi) as Hid.
  apply (PandasFacts.index_of_bound str_eqb str_eqb_eq) in Hi.
  destruct Hi as [Li Hi]. apply (nth_error_In _ i).
  rewrite OfficeFacts.nth_error_map2, (OfficeFacts.nth_error_level_ids _ _ Li).
  rewrite nth_error_map, Hi. cbn [option_map]. rewrite Sp.
  unfold LevelSpec.candidate_id_of. rewrite Hid. reflexivity.
Qed.

End LevelFacts.

(** X5.  The contest ids of the wide-spreadsheet path follow the sorted
    order of the contest descriptions: the Contest table has the ids
    0, 1, 2, ..., the long frame carries for every description the id
    [contest_id_of], and of two descriptions the smaller one in the order
    of strings has the smaller id; this for up to 32768 contests. *)
Theorem X5_contest_ids_sorted (ts : list transformer)
    (df : list (Scc.Long str str)) (dc : list Scc.ContestRow)
    (dof : list Scc.OfficeRow) (l2 : list (Scc.Long Z str)) :
  Scc.split_contest ts df = Ok (dc, dof, l2) ->
  (Z.of_nat (length dc) <= 32768)%Z ->
  map Scc.contest_id dc = map Z.of_nat (seq 0 (length dc))
  /\ l2 = map (fun m => Scc.MkLong (Scc.l_cvr_id m)
                          (LevelSpec.contest_id_of df (Scc.l_contest m))
                          (Scc.l_candidate m) (Scc.l_rank m)) df
  /\ forall m1 m2, In m1 df -> In m2 df ->
       (LevelSpec.contest_id_of df (Scc.l_contest m1)
        < LevelSpec.contest_id_of df (Scc.l_contest m2))%Z
       <-> LevelSpec.str_lt (Scc.l_contest m1) (Scc.l_contest m2).
Proof.
  intros H Hn. apply SplitFacts.split_contest_inv in H.
  destruct H as (cd & Hcd & -> & _ & ->).
  pose proof (LevelFacts.contest_data_length _ _ _ Hcd) as L.
  rewrite LevelFacts.length_contest_table in *. split; [|split].
  - rewrite SplitFacts.contest_ids. apply LevelFacts.level_ids_small. exact Hn.
  - unfold LevelSpec.contest_id_of. rewrite L. reflexivity.
  - intros m1 m2 H1 H2. unfold LevelSpec.contest_id_of.
    apply LevelFacts.relevel_order.
    + rewrite <- L. exact Hn.
    + apply in_map. exact H1.
    + apply in_map. exact H2.
Qed.

Lemma X5_contest_ids_sorted_witness :
  map Scc.contest_id (fst (fst LevelSpec.contest_split)) = [0%Z; 1%Z]
  /\ snd LevelSpec.contest_split
     = map (fun m => Scc.MkLong (Scc.l_cvr_id m)
                       (LevelSpec.contest_id_of LevelSpec.long_frame (Scc.l_contest m))
                       (Scc.l_candidate m) (Scc.l_rank m)) LevelSpec.long_frame
  /\ forall m1 m2, In m1 LevelSpec.long_frame -> In m2 LevelSpec.long_frame ->
       (LevelSpec.contest_id_of LevelSpec.long_frame (Scc.l_contest m1)
        < LevelSpec.contest_id_of LevelSpec.long_frame (Scc.l_contest m2))%Z
       <-> LevelSpec.str_lt (Scc.l_contest m1) (Scc.l_contest m2).
Proof.
  apply (X5_contest_ids_sorted [TermSpec.county_office] LevelSpec.long_frame
           (fst (fst LevelSpec.contest_split)) (snd (fst LevelSpec.contest_split))
           (snd LevelSpec.contest_split)).
  - vm_compute. reflexivity.
  - vm_compute. discriminate.
Defined.

(** X6.  The contest id a row of the long frame gets leads to the row of
    the Contest table made from its description: the term and the vote-for
    number that [standardize] returns for the description, and an office
    id whose row of the Office table holds the level, jurisdiction, office
    and district that [standardize] returns. *)
Theorem X6_contest_of_mark (ts : list transformer)
    (df : list (Scc.Long str str)) (dc : list Scc.ContestRow)
    (dof : list Scc.OfficeRow) (l2 : list (Scc.Long Z str)) (m : Scc.Long str str) :
  Scc.split_contest ts df = Ok (dc, dof, l2) -> In m df ->
  exists l j o d t v oid,
    SccText.standardize ts (Scc.l_contest m) = Ok (l, j, o, d, t, v)
    /\ In (Scc.MkContestRow (LevelSpec.contest_id_of df (Scc.l_contest m))
                            t (int8 v) false oid) dc
    /\ In (Scc.MkOfficeRow oid l j o d) dof.
Proof. exact (LevelFacts.contest_of_mark ts df dc dof l2 m). Qed.

Lemma X6_contest_of_mark_witness :
  exists l j o d t v oid,
    SccText.standardize [TermSpec.county_office]
      (py "Auditor, Short Term (Vote For=2)") = Ok (l, j, o, d, t, v)
    /\ In (Scc.MkContestRow
             (LevelSpec.contest_id_of LevelSpec.long_frame
                (py "Auditor, Short Term (Vote For=2)"))
             t (int8 v) false oid)
          (fst (fst LevelSpec.contest_split))
    /\ In (Scc.MkOfficeRow oid l j o d) (snd (fst LevelSpec.contest_split)).
Proof.
  apply (X6_contest_of_mark [TermSpec.county_office] LevelSpec.long_frame
           (fst (fst LevelSpec.contest_split)) (snd (fst LevelSpec.contest_split))
           (snd LevelSpec.contest_split)
           (Scc.MkLong 2%Z (py "Auditor, Short Term (Vote For=2)") (py "Ann;") 1%Z)).
  - vm_compute. reflexivity.
  - right. left. reflexivity.
Defined.

(** X7.  The candidate ids of the wide-spreadsheet path follow the sorted
    order of the candidate labels (name, semicolon, party): the Candidate
    table has the ids 0, 1, 2, ..., the long frame carries for every label
    the id [candidate_id_of], and of two labels the smaller one in the
    order of strings has the smaller id; this for up to 32768 labels. *)
Theorem X7_candidate_ids_sorted (df : list (Scc.Long Z str))
    (dn : list Scc.CandidateRow) (l3 : list (Scc.Long Z Z)) :
  Scc.split_candidate df = Ok (dn, l3) ->
  (Z.of_nat (length dn) <= 32768)%Z ->
  map Scc.candidate_id dn = map Z.of_nat (seq 0 (length dn))
  /\ l3 = map (fun m => Scc.MkLong (Scc.l_cvr_id m) (Scc.l_contest m)
                          (LevelSpec.candidate_id_of df (Scc.l_candidate m))
                          (Scc.l_rank m)) df
  /\ forall m1 m2, In m1 df -> In m2 df ->
       (LevelSpec.candidate_id_of df (Scc.l_candidate m1)
        < LevelSpec.candidate_id_of df (Scc.l_candidate m2))%Z
       <-> LevelSpec.str_lt (Scc.l_candidate m1) (Scc.l_candidate m2).
Proof.
  intros H Hn. apply SplitFacts.split_candidate_inv in H.
  destruct H as (_ & -> & ->).
  rewrite ListFacts.length_map2, SplitFacts.length_level_ids, length_map,
    Nat.min_id in *.
  split; [|split].
  - rewrite SplitFacts.candidate_ids. apply LevelFacts.level_ids_small. exact Hn.
  - reflexivity.
  - intros m1 m2 H1 H2. apply LevelFacts.relevel_order.
    + exact Hn.
    + apply in_map. exact H1.
    + apply in_map. exact H2.
Qed.

Lemma X7_candidate_ids_sorted_witness :
  map Scc.candidate_id (fst LevelSpec.candidate_split) = [0%Z; 1%Z]
  /\ snd LevelSpec.candidate_split
     = map (fun m => Scc.MkLong (Scc.l_cvr_id m) (Scc.l_contest m)
                       (LevelSpec.candidate_id_of (snd LevelSpec.contest_split)
                          (Scc.l_candidate m))
                       (Scc.l_rank m)) (snd LevelSpec.contest_split)
  /\ forall m1 m2,
       In m1 (snd LevelSpec.contest_split) -> In m2 (snd LevelSpec.contest_split) ->
       (LevelSpec.candidate_id_of (snd LevelSpec.contest_split) (Scc.l_candidate m1)
        < LevelSpec.candidate_id_of (snd LevelSpec.contest_split) (Scc.l_candidate m2))%Z
       <-> LevelSpec.str_lt (Scc.l_candidate m1) (Scc.l_candidate m2).
Proof.
  apply (X7_candidate_ids_sorted (snd LevelSpec.contest_split)
           (fst LevelSpec.candidate_split) (snd LevelSpec.candidate_split)).
  - vm_compute. reflexivity.
  - vm_compute. discriminate.
Defined.

(** X8.  The candidate id a row of the long frame gets leads to the row
    of the Candidate table made from its label: the label is a name and a
    party around one semicolon, and the row holds the two, an empty one
    as a missing value. *)
Theorem X8_candidate_of_mark (df : list (Scc.Long Z str))
    (dn : list Scc.CandidateRow) (l3 : list (Scc.Long Z Z)) (m : Scc.Long Z str) :
  Scc.split_candidate df = Ok (dn, l3) -> In m df ->
  exists nm pt,
    Scc.l_candidate m = nm ++ py ";" ++ pt
    /\ ~ In ";"%char nm /\ ~ In ";"%char pt
    /\ In (Scc.MkCandidateRow (LevelSpec.candidate_id_of df (Scc.l_candidate m))
                              (Scc.none_if_empty nm) (Scc.none_if_empty pt)) dn.
Proof. exact (LevelFacts.candidate_of_mark df dn l3 m). Qed.

Lemma X8_candidate_of_mark_witness :
  exists nm pt,
    py "Ann;" = nm ++ py ";" ++ pt
    /\ ~ In ";"%char nm /\ ~ In ";"%char pt
    /\ In (Scc.MkCandidateRow
             (LevelSpec.candidate_id_of (snd LevelSpec.contest_split) (py "Ann;"))
             (Scc.none_if_empty nm) (Scc.none_if_empty pt))
          (fst LevelSpec.candidate_split).
Proof.
  apply (X8_candidate_of_mark (snd LevelSpec.contest_split)
           (fst LevelSpec.candidate_split) (snd LevelSpec.candidate_split)
           (Scc.MkLong 2%Z 0%Z (py "Ann;") 1%Z)).
  - vm_compute. reflexivity.
  - vm_compute. right. left. reflexivity.
Defined.

(** X9.  A candidate label with two or more semicolons (a name or a
    party that itself holds one) makes [split_candidate] raise a
    ValueError: the label is cut in more parts than the two columns. *)
Theorem X9_extra_semicolon_raises (df : list (Scc.Long Z str)) (m : Scc.Long Z str) :
  In m df -> 2 <= count_occ ascii_dec (Scc.l_candidate m) ";"%char ->
  Scc.split_candidate df
  = Raise (ValueError "2 columns passed, passed data had more columns").
Proof.
  intros Hm Hc. unfold Scc.split_candidate.
  destruct (forallb _ (map (split_on ";") (levels (map (@Scc.l_candidate _ _) df))))
    eqn:F; [|reflexivity].
  exfalso. rewrite forallb_forall in F.
  assert (L2 : length (split_on ";" (Scc.l_candidate m)) = 2).
  { apply Nat.eqb_eq. apply F. apply in_map. apply PandasFacts.levels_in.
    apply in_map. exact Hm. }
  rewrite WriteInFacts.split_on_length in L2. lia.
Qed.

Lemma X9_extra_semicolon_raises_witness :
  Scc.split_candidate [Scc.MkLong 1%Z 0%Z (py "Bob;DEM;x") 1%Z]
  = Raise (ValueError "2 columns passed, passed data had more columns").
Proof.
  apply (X9_extra_semicolon_raises _ (Scc.MkLong 1%Z 0%Z (py "Bob;DEM;x") 1%Z)).
  - left. reflexivity.
  - vm_compute. lia.
Defined.

(** ** Vendor B: the loop of [read_raw] *)

Module ReadFacts.

Import Sf ReadSpec.

Lemma number_app {A} (a b : list A) : forall z,
  number z (a ++ b) = number z a ++ number (z + Z.of_nat (length a)) b.
Proof.
  induction a as [|x a IH]; intros z; cbn [number app length].
  - rewrite Z.add_0_r. reflexivity.
  - rewrite IH.
    replace (z + 1 + Z.of_nat (length a))%Z with (z + Z.of_nat (S (length a)))%Z
      by lia.
    reflexivity.
Qed.

Lemma number_fst {A} (l : list A) : forall z p, In p (number z l) -> In (snd p) l.
Proof.
  induction l as [|x l IH]; intros z p; cbn [number In]; [tauto|].
  intros [<-|H]; [left; reflexivity|right; eapply IH; eauto].
Qed.

Lemma load_nil (st : ReadState) : load st [] = st.
Proof.
  destruct st. unfold load. cbn. rewrite Z.add_0_r, !app_nil_r. reflexivity.
Qed.

Lemma load_app (st : ReadState) (a b : list (str * JCard)) :
  load (load st a) b = load st (a ++ b).
Proof.
  unfold load. cbn [next_cvr_id cvr_data mark_data].
  rewrite number_app, length_app, map_app, flat_map_app, Nat2Z.inj_add, !app_assoc.
  f_equal. lia.
Qed.

Lemma read_contest_eq (cvr : Z) (contest : JContest) (acc : list MarkRow) :
  read_contest cvr acc contest
  = acc ++ map (fun mark =>
                  MkMarkRow cvr (Id contest) (CandidateId mark) (Rank mark)
                            (IsVote mark) (IsAmbiguous mark))
               (Marks contest).
Proof.
  unfold read_contest. revert acc.
  induction (Marks contest) as [|mk l IH]; intros acc; cbn [fold_left map].
  - symmetry. apply app_nil_r.
  - rewrite IH, <- app_assoc. reflexivity.
Qed.

Lemma read_contests_eq (cvr : Z) (contests : list JContest) : forall acc,
  fold_left (read_contest cvr) contests acc
  = acc ++ flat_map (fun contest =>
                       map (fun mark =>
                              MkMarkRow cvr (Id contest) (CandidateId mark) (Rank mark)
                                        (IsVote mark) (IsAmbiguous mark))
                           (Marks contest))
                    contests.
Proof.
  induction contests as [|c l IH]; intros acc; cbn [fold_left flat_map].
  - symmetry. apply app_nil_r.
  - rewrite IH, read_contest_eq, <- app_assoc. reflexivity.
Qed.

Lemma read_card_load (file : str) (st : ReadState) (card : JCard) :
  read_card file st card = load st [(file, card)].
Proof.
  unfold read_card, load. cbn [length number map flat_map fst snd].
  rewrite read_contests_eq, app_nil_r. reflexivity.
Qed.

Lemma read_cards_load (file : str) (cards : list JCard) : forall st,
  fold_left (read_card file) cards st = load st (map (pair file) cards).
Proof.
  induction cards as [|c l IH]; intros st; cbn [fold_left map].
  - symmetry. apply load_nil.
  - rewrite IH, read_card_load. apply (load_app st [(file, c)]).
Qed.

Lemma read_export_load (f : ZipEntry) (st : ReadState) :
  read_export f st
  = load st (map (pair (filename f)) (flat_map Cards (Sessions (content f)))).
Proof.
  unfold read_export. revert st.
  induction (Sessions (content f)) as [|s l IH]; intros st; cbn [fold_left flat_map].
  - symmetry. apply load_nil.
  - rewrite IH, read_cards_load, load_app, map_app. reflexivity.
Qed.

(** The loop without a limit reads the cards of the ballot files. *)
Lemma read_files_load (files : list ZipEntry) : forall idx st,
  read_files None idx files st = load st (cards_of files).
Proof.
  induction files as [|f l IH]; intros idx st; cbn [read_files cards_of flat_map].
  - symmetry. apply load_nil.
  - fold (is_export f). fold (cards_of l).
    destruct (is_export f); cbn [negb].
    + rewrite IH, read_export_load. apply load_app.
    + apply IH.
Qed.

(** The loop with the limit [n] reads what the loop without a limit reads
    of the members before the limit. *)
Lemma read_files_limit (n : nat) (files : list ZipEntry) : forall idx st,
  idx <= n ->
  read_files (Some n) idx files st = read_files None idx (firstn (n - idx) files) st.
Proof.
  induction files as [|f l IH]; intros idx st H.
  - rewrite firstn_nil. reflexivity.
  - cbn [read_files]. destruct (Nat.eqb_spec idx n) as [->|Hne].
    + rewrite Nat.sub_diag. reflexivity.
    + replace (n - idx) with (S (n - S idx)) by lia.
      cbn [firstn read_files].
      destruct (negb (startswith (filename f) (py "CvrExport_")));
        apply IH; lia.
Qed.

Lemma marks_of_cvr (z : Z) (card : JCard) (m : MarkRow) :
  In m (marks_of z card) -> cvr_id m = z.
Proof.
  unfold marks_of. rewrite in_flat_map. intros (c & _ & H).
  apply in_map_iff in H. destruct H as (mk & <- & _). reflexivity.
Qed.

(** With or without a limit, the rows are those of some cards numbered
    from zero. *)
Lemma read_raw_cards (files : list ZipEntry) (nfiles : option nat) :
  exists cs,
    read_raw files nfiles
    = (map (fun p => (fst p, fst (snd p))) (number 0 cs),
       flat_map (fun p => marks_of (fst p) (snd (snd p))) (number 0 cs)).
Proof.
  unfold read_raw. destruct nfiles as [n|].
  - exists (cards_of (firstn (n - 0) files)).
    rewrite read_files_limit by lia. rewrite read_files_load. reflexivity.
  - exists (cards_of files). rewrite read_files_load. reflexivity.
Qed.

End ReadFacts.

(** X10.  [read_raw] without a limit gives one row of [cvr_data] for
    every card of every ballot file (the members whose name starts with
    CvrExport_), numbered 0, 1, 2, ... in the order of the archive and
    with the name of its file, and one row of [mark_data] for every mark
    of every contest of these cards, in the same order and with the number
    of its card; the other members of the archive give nothing. *)
Theorem X10_read_raw_rows (files : list Sf.ZipEntry) :
  Sf.read_raw files None
  = (map (fun p => (fst p, fst (snd p))) (ReadSpec.number 0 (ReadSpec.cards_of files)),
     flat_map (fun p => ReadSpec.marks_of (fst p) (snd (snd p)))
              (ReadSpec.number 0 (ReadSpec.cards_of files))).
Proof.
  unfold Sf.read_raw. rewrite ReadFacts.read_files_load. reflexivity.
Qed.

(** X11.  The limit [nfiles] counts the members of the archive, ballot
    files or not: [read_raw] with the limit [n] reads what it reads
    without a limit from the first [n] members. *)
Theorem X11_nfiles_is_a_prefix (files : list Sf.ZipEntry) (n : nat) :
  Sf.read_raw files (Some n) = Sf.read_raw (firstn n files) None.
Proof.
  unfold Sf.read_raw. rewrite ReadFacts.read_files_limit by lia.
  rewrite Nat.sub_0_r. reflexivity.
Qed.

(** ** The long frame and the Mark table *)

Module TidyFacts.

Import Scc ListFacts SortFacts LevelSpec TableSpec.

Lemma in_combine_nth {A B} (xs : list A) (ys : list B) (a : A) (b : B) :
  In (a, b) (combine xs ys)
  <-> exists p, nth_error xs p = Some a /\ nth_error ys p = Some b.
Proof.
  revert ys. induction xs as [|x xs IH]; intros [|y ys]; cbn [combine In].
  - split; [intros []|]. intros ([|p] & H & _); discriminate.
  - split; [intros []|]. intros ([|p] & H & _); discriminate.
  - split; [intros []|]. intros ([|p] & _ & H); discriminate.
  - rewrite IH. split.
    + intros [E|(p & H1 & H2)].
      * injection E as -> ->. exists 0. auto.
      * exists (S p). auto.
    + intros ([|p] & H1 & H2); cbn in H1, H2.
      * left. congruence.
      * right. eauto.
Qed.

(** The rows a column gives to the long frame: one for every cell that
    is not missing. *)
Lemma melt_column_in (index : list Z) (h : str * str) (cells : list (option Z))
    (m : Long str str) :
  In m (melt_column index (h, cells))
  <-> exists p r, nth_error index p = Some (l_cvr_id m)
                  /\ nth_error cells p = Some (Some r)
                  /\ l_contest m = fst h /\ l_candidate m = snd h
                  /\ l_rank m = int8 r.
Proof.
  unfold melt_column. rewrite in_flat_map. cbn [fst snd]. split.
  - intros ([i [r|]] & Hp & Hm); cbn [fst snd] in Hm; [|destruct Hm].
    destruct Hm as [<-|[]]. apply in_combine_nth in Hp.
    destruct Hp as (p & H1 & H2). exists p, r. cbn. auto.
  - intros (p & r & H1 & H2 & H3 & H4 & H5).
    exists (l_cvr_id m, Some r). split.
    + apply in_combine_nth. eauto.
    + cbn [fst snd]. left. destruct m. cbn in *. congruence.
Qed.

Lemma flat_map_shift {A} (f : nat -> list A) (n : nat) : forall start,
  flat_map f (seq (S start) n) = flat_map (fun p => f (S p)) (seq start n).
Proof.
  induction n as [|n IH]; intros start; cbn [seq flat_map]; [reflexivity|].
  rewrite IH. reflexivity.
Qed.

Lemma flat_map_nothing {A B} (f : A -> list B) (l : list A) :
  (forall x, f x = []) -> flat_map f l = [].
Proof.
  intros H. induction l as [|x l IH]; cbn [flat_map]; [reflexivity|].
  rewrite H, IH. reflexivity.
Qed.

(** [melt] of a column goes through its cells place by place. *)
Lemma melt_column_places (h : str * str) (cells : list (option Z)) :
  forall index,
  melt_column index (h, cells)
  = flat_map (TidySpec.cell_row index (h, cells)) (seq 0 (length cells)).
Proof.
  unfold melt_column. cbn [fst snd].
  induction cells as [|c cells IH]; intros [|i index]; cbn [combine flat_map length seq];
    try reflexivity.
  - symmetry. rewrite (flat_map_shift _ (length cells) 0). apply flat_map_nothing.
    intros p. unfold TidySpec.cell_row. cbn [nth_error]. reflexivity.
  - rewrite (flat_map_shift _ (length cells) 0), IH. cbn [fst snd]. reflexivity.
Qed.

Lemma str_eqb_sym (a b : str) : str_eqb a b = str_eqb b a.
Proof.
  unfold str_eqb. destruct (list_eq_dec ascii_dec a b) as [E|E];
    destruct (list_eq_dec ascii_dec b a) as [F|F]; congruence.
Qed.

Lemma long_leb_total (a b : Long str str) :
  TidySpec.long_leb a b = true \/ TidySpec.long_leb b a = true.
Proof.
  unfold TidySpec.long_leb. apply pair_leb_total.
  - exact Z_leb_total.
  - exact Z.eqb_sym.
  - apply pair_leb_total; [exact str_leb_total|exact str_eqb_sym|exact str_leb_total].
Qed.

Lemma tidy_cvr_id (wide : list Z * list (str * str * list (option Z)))
    (m : Long str str) :
  In m (tidy wide) -> In (l_cvr_id m) (fst wide).
Proof.
  unfold tidy. rewrite in_sort_by, in_flat_map. intros ([h cells] & _ & Hm).
  apply melt_column_in in Hm. destruct Hm as (p & r & H & _).
  apply nth_error_In in H. exact H.
Qed.

End TidyFacts.

(** X12.  [tidy] returns exactly one row for every cell that is not
    missing: its rows are, each as often, the rows that the cells give
    place by place, the ballot id at the cell's place, the contest and
    the candidate of the column, and the cell as [np.int8]; a missing
    cell gives no row.  The rows are in the order of (ballot id, contest,
    candidate).  So a row is in the long frame exactly when a cell that
    is not missing gives it. *)
Theorem X12_tidy_rows (index : list Z)
    (cols : list (str * str * list (option Z))) :
  Permutation (Scc.tidy (index, cols)) (TidySpec.cell_rows index cols)
  /\ LevelSpec.sorted_by TidySpec.long_leb (Scc.tidy (index, cols))
  /\ forall m,
       In m (Scc.tidy (index, cols))
       <-> exists h cells p r,
             In (h, cells) cols
             /\ nth_error index p = Some (Scc.l_cvr_id m)
             /\ nth_error cells p = Some (Some r)
             /\ Scc.l_contest m = fst h /\ Scc.l_candidate m = snd h
             /\ Scc.l_rank m = int8 r.
Proof.
  split; [|split].
  - unfold Scc.tidy, TidySpec.cell_rows. rewrite ListFacts.sort_by_perm.
    cbn [fst snd].
    rewrite (flat_map_ext (Scc.melt_column index)
               (fun c => flat_map (TidySpec.cell_row index c) (seq 0 (length (snd c))))).
    + reflexivity.
    + intros [h cells]. apply TidyFacts.melt_column_places.
  - apply (SortFacts.sort_by_sorted TidySpec.long_leb TidyFacts.long_leb_total).
  - intros m. unfold Scc.tidy. rewrite ListFacts.in_sort_by, in_flat_map.
    cbn [fst snd]. split.
    + intros ([h cells] & Hc & Hm). apply TidyFacts.melt_column_in in Hm.
      destruct Hm as (p & r & Hm). exists h, cells, p, r. tauto.
    + intros (h & cells & p & r & Hc & Hm). exists (h, cells). split; [exact Hc|].
      apply TidyFacts.melt_column_in. exists p, r. exact Hm.
Qed.

(** X13.  Every row of the Mark table carries the ballot id of a row of
    the CvrRecord table, in both paths. *)
Theorem X13_mark_ballot_exists :
  (forall ts files nfiles cd nd t,
     Sf.preprocess ts (fst (Sf.read_raw files nfiles)) cd nd
                   (snd (Sf.read_raw files nfiles)) = Ok t ->
     forall m, In m (Sf.df_mark t) ->
               In (Sf.cvr_id m) (map Sf.c_cvr_id (Sf.df_cvr t)))
  /\ (forall ts df t,
        Scc.preprocess ts df = Ok t ->
        forall m, In m (Scc.df_mark t) ->
                  In (Scc.l_cvr_id m) (map SccId.cvr_id (Scc.df_cvr t))).
Proof.
  split.
  - intros ts files nfiles cd nd t H m Hm.
    apply SfFacts.sf_preprocess_ok_inv in H. destruct H as (std & _ & _ & _ & ->).
    cbn [Sf.df_mark Sf.df_cvr] in *.
    unfold Sf.sorted_marks in Hm. apply ListFacts.in_sort_by in Hm.
    apply in_map_iff in Hm. destruct Hm as (m0 & <- & Hm0). cbn [Sf.cvr_id].
    destruct (ReadFacts.read_raw_cards files nfiles) as (cs & E).
    rewrite E in *. cbn [fst snd] in *.
    apply in_flat_map in Hm0. destruct Hm0 as (p & Hp & Hm0).
    apply ReadFacts.marks_of_cvr in Hm0. rewrite Hm0.
    rewrite !map_map. apply in_map_iff. exists p. split; [reflexivity|exact Hp].
  - intros ts df t H m Hm.
    pose proof (SccFacts.cvr_ids ts df t H) as Hids.
    apply SccFacts.scc_preprocess_ok_inv in H.
    destruct H as (index & cvr & wide & dc & dof & l2 & dn & l3
                   & H1 & H2 & H3 & H4 & H5 & ->).
    cbn [Scc.df_mark Scc.df_cvr] in *.
    rewrite H1 in Hids. injection Hids as Hids. rewrite <- Hids.
    unfold Scc.index_marks in Hm. apply ListFacts.in_sort_by in Hm.
    apply SplitFacts.split_candidate_inv in H5. destruct H5 as (_ & _ & ->).
    apply in_map_iff in Hm. destruct Hm as (m2 & <- & Hm2). cbn [Scc.l_cvr_id].
    apply SplitFacts.split_contest_inv in H4. destruct H4 as (cdt & _ & _ & _ & ->).
    apply in_map_iff in Hm2. destruct Hm2 as (m1 & <- & Hm1). cbn [Scc.l_cvr_id].
    apply TidyFacts.tidy_cvr_id in Hm1.
    apply WriteInFacts.update_column_index_inv in H3. subst wide. exact Hm1.
Qed.

Lemma X13_mark_ballot_exists_witness :
  (forall m, In m (Sf.df_mark SfSpec.tables) ->
             In (Sf.cvr_id m) (map Sf.c_cvr_id (Sf.df_cvr SfSpec.tables)))
  /\ (forall m, In m (Scc.df_mark SccSpec.tables) ->
                In (Scc.l_cvr_id m) (map SccId.cvr_id (Scc.df_cvr SccSpec.tables))).
Proof.
  destruct X13_mark_ballot_exists as [Hsf Hscc]. split.
  - apply (Hsf SfSpec.chain SfSpec.archive None SfSpec.contests SfSpec.candidates).
    vm_compute. reflexivity.
  - apply (Hscc SccSpec.chain SccSpec.same_number). vm_compute. reflexivity.
Defined.

(** ** The tables of a run *)

Module TableFacts.

Import Scc ListFacts SortFacts LevelSpec TableSpec.

Lemma Sorted_map {A B} (f : A -> B) (R : B -> B -> Prop) (l : list A) :
  Sorted (fun a b => R (f a) (f b)) l -> Sorted R (map f l).
Proof.
  induction 1 as [|a l S IH H]; cbn [map]; constructor; [exact IH|].
  destruct H; cbn [map]; constructor. assumption.
Qed.

Lemma snd_combine {A B} (xs : list A) (ys : list B) :
  length xs = length ys -> map snd (combine xs ys) = ys.
Proof.
  revert ys. induction xs as [|x xs IH]; intros [|y ys] H; cbn in *;
    try reflexivity; try discriminate.
  rewrite IH by lia. reflexivity.
Qed.

Lemma fst_combine {A B} (xs : list A) (ys : list B) :
  length xs = length ys -> map fst (combine xs ys) = xs.
Proof.
  revert ys. induction xs as [|x xs IH]; intros [|y ys] H; cbn in *;
    try reflexivity; try discriminate.
  rewrite IH by lia. reflexivity.
Qed.

Lemma map2_combine_snd {A B C D} (f : B -> C -> D) (xs : list A) (ys : list B) :
  forall zs : list C,
  length xs = length ys ->
  map2 (fun p z => f (snd p) z) (combine xs ys) zs = map2 f ys zs.
Proof.
  unfold map2. revert ys.
  induction xs as [|x xs IH]; intros [|y ys] [|z zs] H; cbn in *;
    try reflexivity; try discriminate.
  rewrite IH by lia. reflexivity.
Qed.

Lemma map2_map_left {A B C D} (f : B -> C -> D) (g : A -> B) (xs : list A) :
  forall zs : list C, map2 f (map g xs) zs = map2 (fun x z => f (g x) z) xs zs.
Proof.
  unfold map2. induction xs as [|x xs IH]; intros [|z zs]; cbn; try reflexivity.
  rewrite IH. reflexivity.
Qed.

Lemma filter_none {A} (f : A -> bool) (l : list A) :
  (forall x, In x l -> f x = false) -> filter f l = [].
Proof.
  induction l as [|a l IH]; intros H; cbn [filter]; [reflexivity|].
  rewrite (H a) by (left; reflexivity). apply IH. intros x Hx. apply H.
  right. exact Hx.
Qed.

(** In a frame whose index has no value twice, an index value selects
    its one row. *)
Lemma filter_unique {A} (key : A -> Z) (right : list A) (r : A) :
  NoDup (map key right) -> In r right ->
  filter (fun r' => Z.eqb (key r') (key r)) right = [r].
Proof.
  induction right as [|a l IH]; cbn [map filter]; intros N H; [destruct H|].
  inversion N as [|k ks Ha Nl]; subst. destruct H as [->|H].
  - rewrite Z.eqb_refl. f_equal. apply filter_none. intros x Hx.
    apply Z.eqb_neq. intros E. apply Ha. rewrite <- E. apply in_map. exact Hx.
  - assert (E : Z.eqb (key a) (key r) = false).
    { apply Z.eqb_neq. intros E. apply Ha. rewrite E. apply in_map. exact H. }
    rewrite E. apply IH; assumption.
Qed.

(** The join on an index that has no value twice puts every row of the
    left frame beside its row of the right frame. *)
Lemma join_unique {A} (right : list (str * Sf.ContestRow)) (sub : list (str * Sf.ContestRow)) :
  forall std : list A,
  (forall r, In r sub ->
             filter (fun r' => Z.eqb (Sf.t_contest_id (snd r')) (Sf.t_contest_id (snd r)))
                    right = [r]) ->
  Sf.join_on_index (combine (map (fun r => Sf.t_contest_id (snd r)) sub) std) right
  = combine std (map snd sub).
Proof.
  unfold Sf.join_on_index.
  induction sub as [|r sub IH]; intros [|s std] H; cbn [map combine flat_map];
    try reflexivity.
  cbn [fst snd]. rewrite (H r) by (left; reflexivity). cbn [map app].
  f_equal. apply IH. intros r' Hr'. apply H. right. exact Hr'.
Qed.

Lemma sorted_contests_perm (cd : list Sf.JContestDef) :
  Permutation (Sf.sorted_contests cd) (map Sf.typed_contest cd).
Proof. apply sort_by_perm. Qed.

End TableFacts.

(** X14.  The Mark table of the wide-spreadsheet path holds one row for
    every row of the long frame, with the ballot id and the rank of that
    row and the ids of its contest and of its candidate, and its rows are
    in the order of (ballot id, contest id, rank). *)
Theorem X14_mark_table (ts : list transformer) (df : Scc.RawFrame) (t : Scc.Tables) :
  Scc.preprocess ts df = Ok t ->
  exists index wide,
    rbind (Scc.reformat_strings df) Scc.set_index = Ok index
    /\ Scc.update_column_index (ChecksSpec.wide_frame df index) = Ok wide
    /\ Permutation (Scc.df_mark t)
                   (map (TableSpec.mark_of (Scc.tidy wide)) (Scc.tidy wide))
    /\ LevelSpec.sorted_by LevelSpec.mark_leb (Scc.df_mark t).
Proof.
  intros H. apply SccFacts.scc_preprocess_ok_inv in H.
  destruct H as (index & cvr & wide & dc & dof & l2 & dn & l3
                 & H1 & H2 & H3 & H4 & H5 & ->).
  exists index, wide. split; [exact H1|]. split; [exact H3|].
  cbn [Scc.df_mark]. split.
  - unfold Scc.index_marks. rewrite ListFacts.sort_by_perm.
    apply SplitFacts.split_candidate_inv in H5. destruct H5 as (_ & _ & ->).
    apply SplitFacts.split_contest_inv in H4. destruct H4 as (cdt & Hcd & _ & _ & ->).
    rewrite (LevelFacts.contest_data_length _ _ _ Hcd).
    rewrite !map_map. cbn [Scc.l_candidate Scc.l_cvr_id Scc.l_contest Scc.l_rank].
    reflexivity.
  - apply (SortFacts.sort_by_sorted LevelSpec.mark_leb SortFacts.mark_leb_total).
Qed.

Lemma X14_mark_table_witness :
  exists index wide,
    rbind (Scc.reformat_strings SccSpec.same_number) Scc.set_index = Ok index
    /\ Scc.update_column_index (ChecksSpec.wide_frame SccSpec.same_number index)
       = Ok wide
    /\ Permutation (Scc.df_mark SccSpec.tables)
                   (map (TableSpec.mark_of (Scc.tidy wide)) (Scc.tidy wide))
    /\ LevelSpec.sorted_by LevelSpec.mark_leb (Scc.df_mark SccSpec.tables).
Proof.
  apply (X14_mark_table SccSpec.chain). vm_compute. reflexivity.
Defined.

(** X15.  In the nested per-ballot path the Candidate table holds the
    records of the candidate manifest and the Mark table the marks that
    were read, each once, with the columns typed; no candidate has a
    party; the Candidate table is in the order of the candidate ids and
    the Mark table in the order of (ballot id, contest id, rank). *)
Theorem X15_sf_candidate_and_mark_tables (ts : list transformer)
    (cvr_data : list (Z * str)) (cd : list Sf.JContestDef)
    (nd : list Sf.JCandidateDef) (md : list Sf.MarkRow) (t : Sf.Tables) :
  Sf.preprocess ts cvr_data cd nd md = Ok t ->
  Permutation (Sf.df_candidate t) (map TableSpec.typed_candidate nd)
  /\ LevelSpec.sorted_by TableSpec.candidate_leb (Sf.df_candidate t)
  /\ Permutation (Sf.df_mark t) (map TableSpec.typed_mark md)
  /\ LevelSpec.sorted_by TableSpec.sf_mark_leb (Sf.df_mark t).
Proof.
  intros H. apply SfFacts.sf_preprocess_ok_inv in H.
  destruct H as (std & _ & _ & _ & ->). cbn [Sf.df_candidate Sf.df_mark].
  split; [apply ListFacts.sort_by_perm|]. split.
  - apply (SortFacts.sort_by_sorted TableSpec.candidate_leb).
    intros a b. apply SortFacts.Z_leb_total.
  - split; [apply ListFacts.sort_by_perm|].
    apply (SortFacts.sort_by_sorted TableSpec.sf_mark_leb).
    intros a b. unfold TableSpec.sf_mark_leb. apply SortFacts.pair_leb_total.
    + exact SortFacts.Z_leb_total.
    + exact Z.eqb_sym.
    + apply SortFacts.pair_leb_total;
        [exact SortFacts.Z_leb_total|exact Z.eqb_sym|exact SortFacts.Z_leb_total].
Qed.

Lemma X15_sf_candidate_and_mark_tables_witness :
  Permutation (Sf.df_candidate SfSpec.tables)
              (map TableSpec.typed_candidate SfSpec.candidates)
  /\ LevelSpec.sorted_by TableSpec.candidate_leb (Sf.df_candidate SfSpec.tables)
  /\ Permutation (Sf.df_mark SfSpec.tables)
                 (map TableSpec.typed_mark (snd (Sf.read_raw SfSpec.archive None)))
  /\ LevelSpec.sorted_by TableSpec.sf_mark_leb (Sf.df_mark SfSpec.tables).
Proof.
  apply (X15_sf_candidate_and_mark_tables SfSpec.chain
           (fst (Sf.read_raw SfSpec.archive None)) SfSpec.contests).
  vm_compute. reflexivity.
Defined.

(** X16.  When the contest manifest has no contest id twice, the Contest
    table of the nested per-ballot path has one row for every record of
    the manifest: the records typed, in the order of the contest ids, the
    row at each place with the office id at that place of the office ids
    of [keys], the tuples that the chain of transformers returns for the
    descriptions in that order; the Office table is the table of these
    tuples.  So the office id of every row is the id of a row of the
    Office table that holds the tuple returned for the description of
    the row's own record. *)
Theorem X16_sf_contest_table (ts : list transformer)
    (cvr_data : list (Z * str)) (cd : list Sf.JContestDef)
    (nd : list Sf.JCandidateDef) (md : list Sf.MarkRow) (t : Sf.Tables) :
  Sf.preprocess ts cvr_data cd nd md = Ok t ->
  NoDup (map (fun c => int16 (Sf.cd_Id c)) cd) ->
  exists keys,
    Forall2 (fun r key => transform (fst r) ts = Ok key) (Sf.sorted_contests cd) keys
    /\ Sf.df_contest t
       = map2 (fun r o => Sf.with_office_id o (snd r)) (Sf.sorted_contests cd)
              (Scc.office_ids keys)
    /\ Sf.df_office t = Scc.office_table keys (Scc.office_ids keys)
    /\ (forall i row,
          nth_error (Sf.df_contest t) i = Some row ->
          exists r key,
            nth_error (Sf.sorted_contests cd) i = Some r
            /\ transform (fst r) ts = Ok key
            /\ nth_error keys i = Some key
            /\ row = Sf.with_office_id (Sf.t_office_id row) (snd r)
            /\ In (OfficeSpec.office_row key (Sf.t_office_id row)) (Sf.df_office t))
    /\ map (Sf.with_office_id 0) (Sf.df_contest t) = map snd (Sf.sorted_contests cd)
    /\ Permutation (map snd (Sf.sorted_contests cd))
                   (map (fun c => snd (Sf.typed_contest c)) cd)
    /\ LevelSpec.sorted_by Z.leb (map Sf.t_contest_id (Sf.df_contest t)).
Proof.
  intros H N. apply SfFacts.sf_preprocess_ok_inv in H.
  destruct H as (std & Hstd & _ & _ & ->). cbn [Sf.df_contest Sf.df_office].
  pose proof (TableFacts.sorted_contests_perm cd) as P.
  assert (L : length std = length (Sf.sorted_contests cd)).
  { apply ListFacts.map_result_length in Hstd. exact Hstd. }
  assert (N' : NoDup (map (fun r => Sf.t_contest_id (snd r)) (Sf.sorted_contests cd))).
  { eapply Permutation_NoDup.
    - symmetry. apply Permutation_map. exact P.
    - rewrite map_map. exact N. }
  rewrite (TableFacts.join_unique (Sf.sorted_contests cd) (Sf.sorted_contests cd) std).
  2:{ intros r Hr.
      apply (TableFacts.filter_unique (fun r => Sf.t_contest_id (snd r)) _ r N' Hr). }
  rewrite TableFacts.fst_combine by (rewrite length_map; exact L).
  rewrite (TableFacts.map2_combine_snd (fun r o => Sf.with_office_id o r))
    by (rewrite length_map; exact L).
  rewrite TableFacts.map2_map_left.
  remember (map2 (fun (r : str * Sf.ContestRow) o => Sf.with_office_id o (snd r))
                 (Sf.sorted_contests cd) (Scc.office_ids std))
    as rows eqn:Hrows.
  assert (F : Forall2 (fun r key => transform (fst r) ts = Ok key)
                      (Sf.sorted_contests cd) std).
  { apply ListFacts.map_result_ok in Hstd. exact Hstd. }
  assert (E : map (Sf.with_office_id 0) rows = map snd (Sf.sorted_contests cd)).
  { rewrite Hrows.
    rewrite (ListFacts.map2_fst _ (Sf.with_office_id 0)
               (fun r => Sf.with_office_id 0 (snd r))).
    - rewrite <- (map_map snd (Sf.with_office_id 0)).
      rewrite map_map. apply map_ext_in. intros r Hr.
      apply (Permutation_in _ P) in Hr. apply in_map_iff in Hr.
      destruct Hr as (c & <- & _). reflexivity.
    - intros x y. reflexivity.
    - rewrite PandasFacts.length_office_ids. lia. }
  exists std. split; [exact F|]. split; [exact Hrows|]. split; [reflexivity|].
  split; [|split; [exact E|split]].
  - intros i row Hi. rewrite Hrows, OfficeFacts.nth_error_map2 in Hi.
    destruct (nth_error (Sf.sorted_contests cd) i) as [r|] eqn:Hr; [|discriminate].
    destruct (nth_error (Scc.office_ids std) i) as [o|] eqn:Ho; [|discriminate].
    injection Hi as <-.
    assert (Hk : exists key, nth_error std i = Some key).
    { destruct (nth_error std i) as [key|] eqn:Hk; [eauto|].
      apply nth_error_None in Hk.
      assert (i < length (Sf.sorted_contests cd)) by (apply nth_error_Some; congruence).
      lia. }
    destruct Hk as [key Hk]. exists r, key.
    split; [reflexivity|].
    split; [exact (FactorizeOrder.Forall2_nth_error _ _ _ F i r key Hr Hk)|].
    split; [exact Hk|]. split; [reflexivity|]. cbn [Sf.with_office_id Sf.t_office_id].
    exact (OfficeFacts.office_row_in std i key o Hk Ho).
  - rewrite <- (map_map Sf.typed_contest snd). apply Permutation_map. exact P.
  - assert (Ids : map Sf.t_contest_id rows
                  = map (fun r => Sf.t_contest_id (snd r)) (Sf.sorted_contests cd)).
    { rewrite <- (map_map snd Sf.t_contest_id), <- E, map_map. reflexivity. }
    rewrite Ids. apply TableFacts.Sorted_map.
    apply (SortFacts.sort_by_sorted
             (fun a b => Z.leb (Sf.t_contest_id (snd a)) (Sf.t_contest_id (snd b)))).
    intros a b. apply SortFacts.Z_leb_total.
Qed.

Lemma X16_sf_contest_table_witness :
  exists keys,
    Forall2 (fun r key => transform (fst r) SfSpec.chain = Ok key)
            (Sf.sorted_contests SfSpec.contests) keys
    /\ Sf.df_contest SfSpec.tables
       = map2 (fun r o => Sf.with_office_id o (snd r))
              (Sf.sorted_contests SfSpec.contests) (Scc.office_ids keys)
    /\ Sf.df_office SfSpec.tables = Scc.office_table keys (Scc.office_ids keys).
Proof.
  destruct (X16_sf_contest_table SfSpec.chain (fst (Sf.read_raw SfSpec.archive None))
              SfSpec.contests SfSpec.candidates (snd (Sf.read_raw SfSpec.archive None))
              SfSpec.tables)
    as (keys & F & C & O & _).
  - vm_compute. reflexivity.
  - vm_compute. repeat constructor; cbn; intuition discriminate.
  - exists keys. auto.
Defined.

(** ** The searches of [standardize] *)

Module SearchFacts.

Import SccText SpacesSpec ReFacts TermSpec StandardizeFacts.

(** A repetition stops at the longest prefix in the class after which
    the rest of the pattern matches. *)
Lemma greedy_at {A} (cls : ascii -> bool) (k : str -> option A) (a b : str) (r : A) :
  forallb cls a = true -> k b = Some r ->
  (forall a2 b2, b = a2 ++ b2 -> a2 <> [] -> forallb cls a2 = true -> k b2 = None) ->
  greedy cls k (a ++ b) = Some r.
Proof.
  induction a as [|x a IH]; intros Ha Hb Hl.
  - cbn [app]. destruct b as [|c t]; cbn [greedy]; [exact Hb|].
    destruct (cls c) eqn:Ec; [|exact Hb].
    destruct (greedy cls k t) as [r'|] eqn:G; [|exact Hb].
    exfalso. apply greedy_sound in G. destruct G as (a' & b' & -> & Ha' & Hb').
    rewrite (Hl (c :: a') b') in Hb'; [discriminate|reflexivity|discriminate|].
    cbn [forallb]. rewrite Ec. exact Ha'.
  - cbn [app greedy forallb] in *. apply andb_prop in Ha. destruct Ha as [Hx Ha].
    rewrite Hx, (IH Ha Hb Hl). reflexivity.
Qed.

(** Without two adjacent spaces step 1 changes nothing. *)
Lemma collapse_id (s : str) : adjacent_spaces s = false -> collapse_spaces s = s.
Proof.
  induction s as [|c t IH]; [reflexivity|]. cbn [adjacent_spaces]. intros H.
  apply orb_false_elim in H. destruct H as [Hc Ht].
  rewrite (Spaces.collapse_one c t Hc), (IH Ht). reflexivity.
Qed.

(** [replace] brings in no character but those of the new text. *)
Lemma replace_from_in (old new : str) (x : ascii) (s : str) : forall skip,
  In x (replace_from old new skip s) -> In x s \/ In x new.
Proof.
  induction s as [|c t IH]; intros skip; cbn [replace_from]; [tauto|].
  destruct skip as [|k].
  - destruct (startswith (c :: t) old).
    + rewrite in_app_iff. intros [H|H]; [right; exact H|].
      destruct (IH _ H); [left; right|right]; assumption.
    + intros [<-|H]; [left; left; reflexivity|].
      destruct (IH _ H); [left; right|right]; assumption.
  - intros H. destruct (IH _ H); [left; right|right]; assumption.
Qed.

(** The first pattern matches only a text that starts with a space and
    an opening parenthesis. *)
Lemma vote_match_parenthesis (u : str) :
  ~ In "("%char u -> rmatch vote_for_re u [] [] = None.
Proof.
  intros H. destruct (rmatch vote_for_re u [] []) as [[g rest]|] eqn:E; [|reflexivity].
  exfalso. apply vote_match_inv in E. destruct E as (ds & _ & _ & _ & _ & ->).
  apply H. right. left. reflexivity.
Qed.

(** The first pattern on the suffix itself. *)
Lemma vote_match_here (ds : str) :
  ds <> [] -> forallb is_digit ds = true ->
  rmatch vote_for_re (py " (Vote For=" ++ ds ++ py ")") [] [] = Some ([ds], []).
Proof.
  intros Hne Hd. rewrite rmatch_vote_for_re, strip_prefix_app.
  destruct ds as [|c t]; [congruence|]. cbn [app forallb] in *.
  apply andb_prop in Hd. destruct Hd as [Hc Ht].
  change (digit c) with (is_digit c). rewrite Hc.
  apply greedy_at.
  - exact Ht.
  - unfold vote_tail. rewrite <- (app_nil_r (py ")")) at 2.
    rewrite strip_prefix_app. cbn [at_end].
    exact (f_equal (fun x => Some ([x], [])) (firstn_consumed (c :: t) (py ")"))).
  - intros a2 b2 E Ha2 Hcls. exfalso. destruct a2 as [|x a2]; [congruence|].
    injection E as <- _. cbn [forallb] in Hcls.
    apply andb_prop in Hcls. destruct Hcls as [Hx _]. discriminate Hx.
Qed.

(** No match of the first pattern starts inside a text without opening
    parenthesis that is followed by the suffix. *)
Lemma vote_match_not_before (a2 rest : str) :
  a2 <> [] -> ~ In "("%char a2 ->
  rmatch vote_for_re (a2 ++ py " (Vote For=" ++ rest) [] [] = None.
Proof.
  intros Hne Hp.
  destruct (rmatch vote_for_re (a2 ++ py " (Vote For=" ++ rest) [] [])
    as [[g e]|] eqn:E; [|reflexivity].
  exfalso. apply vote_match_inv in E. destruct E as (ds & _ & _ & _ & _ & E).
  destruct a2 as [|x [|y a2]]; [congruence| |].
  - injection E as _ E. discriminate E.
  - injection E as _ E _. apply Hp. right. left. exact E.
Qed.

End SearchFacts.

(** X17.  A contest description without an opening parenthesis has no
    vote-for suffix: [standardize] raises the AttributeError of
    [match.group] on a failed search, whatever the transformers. *)
Theorem X17_no_vote_for_suffix (ts : list transformer) (c : str) :
  ~ In "("%char c -> SccText.standardize ts c = Raise AttributeError.
Proof.
  intros H. unfold SccText.standardize.
  assert (E : SccText.split_vote_for (SccText.collapse_spaces c) = Raise AttributeError).
  { unfold SccText.split_vote_for, search.
    rewrite ReFacts.search_from_none; [reflexivity|].
    intros a b Eab. apply SearchFacts.vote_match_parenthesis. intros Hb.
    assert (Hc : In "("%char (SccText.collapse_spaces c)).
    { rewrite Eab. apply in_or_app. right. exact Hb. }
    apply SearchFacts.replace_from_in in Hc. destruct Hc as [Hc|[Hc|[]]].
    - contradiction.
    - discriminate Hc. }
  rewrite E. reflexivity.
Qed.

Lemma X17_no_vote_for_suffix_witness :
  SccText.standardize [TermSpec.county_office] (py "Mayor") = Raise AttributeError.
Proof.
  apply X17_no_vote_for_suffix. intros H. vm_compute in H. intuition discriminate.
Defined.

(** X18.  A description that is a text without opening parenthesis and
    without two adjacent spaces, followed by [ (Vote For=N)] with N a
    number in digits, gives the vote-for number N, and its term and its
    office are those of the text before the suffix. *)
Theorem X18_standardize_well_formed (ts : list transformer) (p ds : str) :
  ~ In "("%char p ->
  SpacesSpec.adjacent_spaces (p ++ py " (Vote For=" ++ ds ++ py ")") = false ->
  ds <> [] -> forallb is_digit ds = true ->
  SccText.standardize ts (p ++ py " (Vote For=" ++ ds ++ py ")")
  = rbind (transform (snd (SccText.split_term p)) ts)
          (fun key => let '(l, j, o, d) := key in
                      Ok (l, j, o, d, fst (SccText.split_term p), int_of_digits ds)).
Proof.
  intros Hp Hs Hne Hd. apply StandardizeFacts.standardize_steps.
  rewrite (SearchFacts.collapse_id _ Hs).
  unfold SccText.split_vote_for, search.
  rewrite (ReFacts.search_from_first SccText.vote_for_re p
             (py " (Vote For=" ++ ds ++ py ")") [ds] [] 0).
  - cbn [m_start group m_groups Nat.sub nth Nat.add].
    rewrite firstn_app, Nat.sub_diag, firstn_all. cbn [firstn].
    rewrite app_nil_r. reflexivity.
  - intros a1 a2 E Hne2. apply SearchFacts.vote_match_not_before; [exact Hne2|].
    intros H. apply Hp. rewrite E. apply in_or_app. right. exact H.
  - apply SearchFacts.vote_match_here; assumption.
Qed.

Lemma X18_standardize_well_formed_witness :
  SccText.standardize [TermSpec.county_office]
    (py "City Council, Short Term" ++ py " (Vote For=" ++ py "2" ++ py ")")
  = rbind (transform (snd (SccText.split_term (py "City Council, Short Term")))
                     [TermSpec.county_office])
          (fun key => let '(l, j, o, d) := key in
                      Ok (l, j, o, d,
                          fst (SccText.split_term (py "City Council, Short Term")),
                          int_of_digits (py "2"))).
Proof.
  apply X18_standardize_well_formed.
  - intros H. vm_compute in H. intuition discriminate.
  - vm_compute. reflexivity.
  - discriminate.
  - vm_compute. reflexivity.
Defined.

(** ** Vendor A: from the headers of a column to the tables *)

Module ColumnFacts.

Import SccId Scc ListFacts PandasFacts SplitFacts WriteInFacts LevelSpec ColumnSpec.

Lemma no_write_in_raises (wf : WideFrame) :
  (forall c, In c (w_columns wf) -> h_candidate (fst c) <> py "Write-in") ->
  update_column_index wf = Raise (KeyError "Write-in").
Proof.
  intros H. unfold update_column_index.
  destruct (existsb (fun c => is_write_in (fst c)) (w_columns wf)) eqn:E;
    [|reflexivity].
  exfalso. apply existsb_exists in E. destruct E as (c & Hc & Hw).
  unfold is_write_in in Hw. apply str_eqb_eq in Hw. exact (H c Hc Hw).
Qed.

(** A text is cut at its first delimiter in one way only. *)
Lemma sep_unique (sep : ascii) (a b a' b' : str) :
  count_occ ascii_dec a sep = 0 -> count_occ ascii_dec a' sep = 0 ->
  a ++ sep :: b = a' ++ sep :: b' -> a = a' /\ b = b'.
Proof.
  intros Ha Ha' E. pose proof (f_equal (split_on sep) E) as S.
  rewrite (split_on_first sep a b Ha), (split_on_first sep a' b' Ha') in S.
  injection S as -> _. split; [reflexivity|].
  apply app_inv_head in E. injection E as ->. reflexivity.
Qed.

Lemma count_not_in (sep : ascii) (s : str) :
  ~ In sep s -> count_occ ascii_dec s sep = 0.
Proof. apply count_occ_not_In. Qed.

(** The label of a column that [split_candidate] cuts in a name and a
    party is cut at the semicolon that [update_column_index] has put
    between the two. *)
Lemma label_parts (h : Header) (nm pt : str) :
  snd (relabel h) = nm ++ py ";" ++ pt ->
  ~ In ";"%char nm -> ~ In ";"%char pt ->
  nm = candidate_name h /\ pt = candidate_party h.
Proof.
  intros E Hn Hp.
  assert (L : snd (relabel h) = candidate_name h ++ ";"%char :: candidate_party h)
    by reflexivity.
  assert (C : count_occ ascii_dec (snd (relabel h)) ";"%char = 1).
  { rewrite E, count_occ_app. change (py ";" ++ pt) with (";"%char :: pt).
    rewrite count_occ_cons_eq by reflexivity.
    rewrite (count_not_in _ _ Hn), (count_not_in _ _ Hp). reflexivity. }
  rewrite L, count_occ_app, count_occ_cons_eq in C by reflexivity.
  rewrite L in E. change (py ";" ++ pt) with (";"%char :: pt) in E.
  assert (Cn : count_occ ascii_dec (candidate_name h) ";"%char = 0) by lia.
  destruct (sep_unique ";" _ _ _ _ Cn (count_not_in _ _ Hn) E) as [<- <-].
  auto.
Qed.

Lemma digit_not_blank (c : ascii) : is_digit c = true -> is_blank c = false.
Proof.
  unfold is_digit, is_blank. intros H. apply andb_prop in H. destruct H as [H _].
  apply Nat.leb_le in H.
  destruct (Nat.leb_spec (nat_of_ascii c) 13); [lia|].
  destruct (Nat.eqb_spec (nat_of_ascii c) 32); [lia|].
  rewrite andb_false_r. reflexivity.
Qed.

Lemma lstrip_digits (ds : str) : forallb is_digit ds = true -> lstrip ds = ds.
Proof.
  destruct ds as [|c t]; [reflexivity|]. cbn [forallb lstrip]. intros H.
  apply andb_prop in H. destruct H as [H _]. rewrite (digit_not_blank c H).
  reflexivity.
Qed.

(** A text of digits has no blanks to strip. *)
Lemma strip_digits (ds : str) : forallb is_digit ds = true -> strip ds = ds.
Proof.
  intros H. unfold strip. rewrite (lstrip_digits ds H).
  rewrite lstrip_digits; [apply rev_involutive|].
  rewrite forallb_forall in *. intros c Hc. apply H. apply in_rev. exact Hc.
Qed.

Lemma literal_digits_value (ds : str) : forall acc seen,
  forallb is_digit ds = true -> (ds <> [] \/ seen = true) ->
  literal_digits acc seen ds
  = Some (fold_left (fun acc c => (10 * acc + (Z.of_nat (nat_of_ascii c) - 48))%Z)
                    ds acc).
Proof.
  induction ds as [|c t IH]; intros acc seen H Hs; cbn [literal_digits fold_left].
  - destruct Hs as [Hs| ->]; [congruence|reflexivity].
  - cbn [forallb] in H. apply andb_prop in H. destruct H as [Hc Ht].
    rewrite Hc. apply IH; [exact Ht|right; reflexivity].
Qed.

(** A number in digits is read by [int] as its value. *)
Lemma parse_int_number (ds : str) :
  is_number ds -> parse_int ds = Some (int_of_digits ds).
Proof.
  intros [Hne Hd]. unfold parse_int. rewrite (strip_digits ds Hd).
  destruct ds as [|c t]; [congruence|].
  assert (Hc : is_digit c = true).
  { cbn [forallb] in Hd. apply andb_prop in Hd. tauto. }
  assert (E : match c :: t with
              | "-"%char :: d => option_map Z.opp (literal_digits 0 false d)
              | "+"%char :: d => literal_digits 0 false d
              | d => literal_digits 0 false d
              end = literal_digits 0 false (c :: t)).
  { destruct c as [[] [] [] [] [] [] [] []]; try reflexivity;
      vm_compute in Hc; discriminate Hc. }
  rewrite E. apply literal_digits_value; [exact Hd|left; discriminate].
Qed.

Lemma cast_numbers (dss : list str) :
  Forall is_number dss ->
  map_result (astype_int 32) (map Str dss)
  = Ok (map (fun ds => Int (int32 (int_of_digits ds))) dss).
Proof.
  induction 1 as [|ds dss H _ IH]; cbn [map map_result astype_int]; [reflexivity|].
  rewrite (parse_int_number _ H), IH. reflexivity.
Qed.

(** A column read as text has the accessor. *)
Lemma str_accessor_text (ids : list RawId) (col : RawId -> cell) :
  text_column ids col -> str_accessor (map col ids) = Ok (map col ids).
Proof.
  intros [->|(r & s & Hr & Hs)]; [reflexivity|].
  unfold str_accessor. destruct (map col ids) as [|c cells] eqn:E; [reflexivity|].
  rewrite <- E.
  assert (X : existsb is_str (map col ids) = true).
  { apply existsb_exists. exists (col r). split; [apply in_map; exact Hr|].
    rewrite Hs. reflexivity. }
  rewrite X. reflexivity.
Qed.

(** A column read as numbers has none. *)
Lemma str_accessor_number (ids : list RawId) (col : RawId -> cell) :
  ~ text_column ids col -> str_accessor (map col ids) = Raise AttributeError.
Proof.
  intros H. unfold str_accessor. destruct (map col ids) as [|c cells] eqn:E.
  - exfalso. apply H. left. destruct ids; [reflexivity|discriminate].
  - rewrite <- E.
    destruct (existsb is_str (map col ids)) eqn:X; [|reflexivity].
    exfalso. apply H. right. apply existsb_exists in X.
    destruct X as (c0 & Hin & Hc). apply in_map_iff in Hin.
    destruct Hin as (r & <- & Hr). destruct (col r) as [s| |] eqn:Er;
      try discriminate. exists r, s. auto.
Qed.

Lemma str_accessor_raises (cells : list cell) (e : exn) :
  str_accessor cells = Raise e -> e = AttributeError.
Proof.
  unfold str_accessor. destruct cells as [|c t]; [discriminate|].
  destruct (existsb is_str (c :: t)); [discriminate|]. intros H.
  injection H as <-. reflexivity.
Qed.

Lemma map_result_all_ok {A B} (f : A -> result B) (xs : list A) :
  Forall (fun x => exists y, f x = Ok y) xs -> exists ys, map_result f xs = Ok ys.
Proof.
  induction 1 as [|x xs [y Hy] _ [ys IH]]; cbn [map_result]; [eauto|].
  rewrite Hy, IH. eauto.
Qed.

Lemma map_result_raise_inv {A B} (f : A -> result B) (xs : list A) (e : exn) :
  map_result f xs = Raise e -> exists x, In x xs /\ f x = Raise e.
Proof.
  induction xs as [|x xs IH]; cbn [map_result]; [discriminate|].
  destruct (f x) as [y|e0] eqn:E.
  - destruct (map_result f xs) as [ys|e1]; [discriminate|].
    intros H. injection H as <-. destruct (IH eq_refl) as (x' & Hin & Hx).
    exists x'. split; [right; exact Hin|exact Hx].
  - intros H. injection H as <-. exists x. split; [left; reflexivity|exact E].
Qed.

(** [reformat_strings] returns when the five columns have been read as
    text. *)
Lemma reformat_strings_text (df : RawFrame) :
  Forall (text_column (raw_ids df)) reformat_cols ->
  reformat_strings df = Ok (sliced df).
Proof.
  intros T. unfold reformat_strings.
  destruct (map_result_all_ok
              (fun col => str_accessor (map col (raw_ids df))) reformat_cols)
    as [ys E].
  - eapply Forall_impl; [|exact T]. intros col H.
    exists (map col (raw_ids df)). apply str_accessor_text. exact H.
  - rewrite E. reflexivity.
Qed.

(** It raises an [AttributeError] when one of them has been read as
    numbers. *)
Lemma reformat_strings_number (df : RawFrame) (col : RawId -> cell) :
  In col reformat_cols -> ~ text_column (raw_ids df) col ->
  reformat_strings df = Raise AttributeError.
Proof.
  intros Hin Hno. unfold reformat_strings.
  destruct (map_result_raise (fun col => str_accessor (map col (raw_ids df)))
              reformat_cols col AttributeError Hin (str_accessor_number _ col Hno))
    as [e E].
  rewrite E. cbn [rbind]. f_equal.
  apply map_result_raise_inv in E. destruct E as (c & _ & E).
  exact (str_accessor_raises _ _ E).
Qed.

(** The slice gives back the text that the export has wrapped. *)
Lemma slice_wrapped (s : str) :
  slice_2_m1 (py "=" ++ [SccSpec.quote] ++ s ++ [SccSpec.quote]) = s.
Proof.
  unfold slice_2_m1.
  change (skipn 2 (py "=" ++ [SccSpec.quote] ++ s ++ [SccSpec.quote]))
    with (s ++ [SccSpec.quote]).
  apply removelast_last.
Qed.

End ColumnFacts.

(** X19.  An export in which no column has the candidate header
    [Write-in] is not processed: when the ballot numbers are read and the
    identity checks pass, [preprocess] raises the KeyError of the [drop]
    of [update_column_index], and in no case does it return tables. *)
Theorem X19_no_write_in_column (ts : list transformer) (df : Scc.RawFrame) :
  (forall c, In c (Scc.raw_marks df) -> Scc.h_candidate (fst c) <> py "Write-in") ->
  (exists e, Scc.preprocess ts df = Raise e)
  /\ forall index cvr,
       rbind (Scc.reformat_strings df) Scc.set_index = Ok index ->
       SccId.check_and_clean_id_invariants (ChecksSpec.id_frame df index)
       = (Ok tt, cvr) ->
       Scc.preprocess ts df = Raise (KeyError "Write-in").
Proof.
  intros H.
  assert (K : forall index,
             Scc.update_column_index (ChecksSpec.wide_frame df index)
             = Raise (KeyError "Write-in")).
  { intros index. apply ColumnFacts.no_write_in_raises. exact H. }
  split.
  - unfold Scc.preprocess.
    destruct (Scc.reformat_strings df) as [df'|e] eqn:E0; cbn [rbind]; [|eauto].
    apply SccFacts.reformat_strings_ok in E0. subst df'.
    destruct (Scc.set_index (Scc.sliced df)) as [index|e];
      cbn [rbind]; [|eauto].
    specialize (K index). unfold ChecksSpec.wide_frame in K.
    destruct (Scc.split_cvr index (Scc.sliced df)) as [cvr0 wide0].
    cbn [snd] in K.
    destruct (SccId.check_and_clean_id_invariants cvr0) as [[[]|e] cvr]; [|eauto].
    rewrite K. cbn [rbind]. eauto.
  - intros index cvr H1 H2. unfold Scc.preprocess.
    apply SccFacts.reformat_set_index in H1. destruct H1 as [H0 H1].
    rewrite H0. cbn [rbind]. rewrite H1. cbn [rbind].
    specialize (K index). unfold ChecksSpec.wide_frame, ChecksSpec.id_frame in *.
    destruct (Scc.split_cvr index (Scc.sliced df)) as [cvr0 wide0].
    cbn [fst snd] in *. rewrite H2, K. reflexivity.
Qed.

Lemma X19_no_write_in_column_witness :
  exists e, Scc.preprocess SccSpec.chain ColumnSpec.no_write_in = Raise e.
Proof.
  apply (X19_no_write_in_column SccSpec.chain ColumnSpec.no_write_in).
  intros c [<-|[<-|[]]]; vm_compute; discriminate.
Defined.

(** X20.  Every cell that is not missing, in a column whose candidate
    header is not [Write-in], is in the tables: a row of the Mark table
    with the ballot id of the cell's row and the cell as rank, whose
    candidate id leads to a row of the Candidate table with the name and
    the party of the column, and whose contest id leads to the row of the
    Contest table and, by the office id, to the row of the Office table
    that [standardize] gives for the contest header of the column. *)
Theorem X20_cell_in_tables (ts : list transformer) (df : Scc.RawFrame)
    (t : Scc.Tables) (h : Scc.Header) (cells : list (option Z))
    (p : nat) (r i : Z) :
  Scc.preprocess ts df = Ok t ->
  In (h, cells) (Scc.raw_marks df) -> Scc.h_candidate h <> py "Write-in" ->
  nth_error cells p = Some (Some r) ->
  nth_error (map SccId.cvr_id (Scc.df_cvr t)) p = Some i ->
  exists cid nid l j o d tm v oid,
    In (Scc.MkLong i cid nid (int8 r)) (Scc.df_mark t)
    /\ In (Scc.MkCandidateRow nid
             (Scc.none_if_empty (ColumnSpec.candidate_name h))
             (Scc.none_if_empty (ColumnSpec.candidate_party h)))
          (Scc.df_candidate t)
    /\ SccText.standardize ts (Scc.blank_unnamed (Scc.h_contest h))
       = Ok (l, j, o, d, tm, v)
    /\ In (Scc.MkContestRow cid tm (int8 v) false oid) (Scc.df_contest t)
    /\ In (Scc.MkOfficeRow oid l j o d) (Scc.df_office t).
Proof.
  intros H Hc Hw Hcell Hi.
  pose proof (SccFacts.cvr_ids ts df t H) as Hids.
  apply SccFacts.scc_preprocess_ok_inv in H.
  destruct H as (index & cvr & wide & dc & dof & l2 & dn & l3
                 & H1 & H2 & H3 & H4 & H5 & ->).
  cbn [Scc.df_mark Scc.df_cvr Scc.df_candidate Scc.df_contest Scc.df_office] in *.
  rewrite H1 in Hids. injection Hids as Hids. rewrite <- Hids in Hi.
  apply WriteInFacts.update_column_index_inv in H3.
  set (m0 := Scc.MkLong i (fst (Scc.relabel h)) (snd (Scc.relabel h)) (int8 r)).
  assert (Hm0 : In m0 (Scc.tidy wide)).
  { subst wide. unfold Scc.tidy. apply ListFacts.in_sort_by. cbn [fst snd].
    apply in_flat_map. exists (Scc.relabel h, cells). split.
    - apply in_map_iff. exists (h, cells). split; [reflexivity|].
      apply filter_In. split; [exact Hc|]. cbn [fst]. unfold Scc.is_write_in.
      destruct (str_eqb (Scc.h_candidate h) (py "Write-in")) eqn:E; [|reflexivity].
      apply str_eqb_eq in E. contradiction.
    - apply TidyFacts.melt_column_in. exists p, r. cbn. auto. }
  destruct (LevelFacts.contest_of_mark ts _ _ _ _ m0 H4 Hm0)
    as (l & j & o & d & tm & v & oid & Hs & Hrow & Hoff).
  pose proof H4 as H4'. apply SplitFacts.split_contest_inv in H4'.
  destruct H4' as (cdt & Hcd & _ & _ & El2).
  set (m2 := Scc.MkLong i (LevelSpec.contest_id_of (Scc.tidy wide) (fst (Scc.relabel h)))
                        (snd (Scc.relabel h)) (int8 r)).
  assert (Hm2 : In m2 l2).
  { rewrite El2. apply in_map_iff. exists m0. split; [|exact Hm0].
    unfold m2, LevelSpec.contest_id_of.
    rewrite (LevelFacts.contest_data_length _ _ _ Hcd). reflexivity. }
  destruct (LevelFacts.candidate_of_mark _ _ _ m2 H5 Hm2)
    as (nm & pt & E & Hn & Hp & Hcand).
  cbn [Scc.l_candidate m2] in E, Hcand.
  destruct (ColumnFacts.label_parts h nm pt E Hn Hp) as [-> ->].
  pose proof H5 as H5'. apply SplitFacts.split_candidate_inv in H5'.
  destruct H5' as (_ & _ & El3).
  exists (LevelSpec.contest_id_of (Scc.tidy wide) (fst (Scc.relabel h))),
         (LevelSpec.candidate_id_of l2 (snd (Scc.relabel h))),
         l, j, o, d, tm, v, oid.
  split.
  { unfold Scc.index_marks. apply ListFacts.in_sort_by. rewrite El3.
    apply in_map_iff. exists m2. split; [reflexivity|exact Hm2]. }
  split; [exact Hcand|]. split; [exact Hs|]. split; [exact Hrow|exact Hoff].
Qed.

Lemma X20_cell_in_tables_witness :
  exists cid nid l j o d tm v oid,
    In (Scc.MkLong 1%Z cid nid (int8 1)) (Scc.df_mark SccSpec.tables)
    /\ In (Scc.MkCandidateRow nid
             (Scc.none_if_empty
                (ColumnSpec.candidate_name (SccSpec.header "Mayor (Vote For=1)" "Ann" "REP")))
             (Scc.none_if_empty
                (ColumnSpec.candidate_party (SccSpec.header "Mayor (Vote For=1)" "Ann" "REP"))))
          (Scc.df_candidate SccSpec.tables)
    /\ SccText.standardize SccSpec.chain
         (Scc.blank_unnamed
            (Scc.h_contest (SccSpec.header "Mayor (Vote For=1)" "Ann" "REP")))
       = Ok (l, j, o, d, tm, v)
    /\ In (Scc.MkContestRow cid tm (int8 v) false oid) (Scc.df_contest SccSpec.tables)
    /\ In (Scc.MkOfficeRow oid l j o d) (Scc.df_office SccSpec.tables).
Proof.
  apply (X20_cell_in_tables SccSpec.chain SccSpec.same_number SccSpec.tables
           (SccSpec.header "Mayor (Vote For=1)" "Ann" "REP") [None; Some 1%Z] 1).
  - vm_compute. reflexivity.
  - right. right. left. reflexivity.
  - vm_compute. discriminate.
  - reflexivity.
  - vm_compute. reflexivity.
Defined.

(** X21.  Ballot numbers that the export writes as an equals sign and
    the digits in quotes are read by [reformat_strings] and [set_index] as
    the numbers the digits stand for, in the order of the rows; this for
    numbers in the range of [np.int32], and when each of the five columns
    that [reformat_strings] slices has been read as text.  When one of
    the five has not, a frame with rows in which the column holds no
    string, [reformat_strings] raises an AttributeError and so does
    [preprocess]. *)
Theorem X21_ballot_numbers (ids : list Scc.RawId)
    (marks : list (Scc.Header * list (option Z))) :
  (forall dss,
      map Scc.raw_CvrNumber ids = map SccSpec.wrapped dss ->
      Forall (fun ds => ColumnSpec.is_number ds /\ fits 32 (int_of_digits ds)) dss ->
      Forall (ColumnSpec.text_column ids) Scc.reformat_cols ->
      Scc.reformat_strings (Scc.MkRawFrame ids marks)
      = Ok (Scc.sliced (Scc.MkRawFrame ids marks))
      /\ rbind (Scc.reformat_strings (Scc.MkRawFrame ids marks)) Scc.set_index
         = Ok (map int_of_digits dss))
  /\ (forall col,
         In col Scc.reformat_cols -> ~ ColumnSpec.text_column ids col ->
         Scc.reformat_strings (Scc.MkRawFrame ids marks) = Raise AttributeError
         /\ forall ts,
              Scc.preprocess ts (Scc.MkRawFrame ids marks) = Raise AttributeError).
Proof.
  split.
  - intros dss E F T.
    assert (R : Scc.reformat_strings (Scc.MkRawFrame ids marks)
                = Ok (Scc.sliced (Scc.MkRawFrame ids marks))).
    { apply ColumnFacts.reformat_strings_text. exact T. }
    split; [exact R|]. rewrite R. cbn [rbind].
    unfold Scc.set_index, Scc.sliced. cbn [Scc.raw_ids].
    rewrite map_map. cbn [Scc.raw_CvrNumber].
    rewrite <- (map_map Scc.raw_CvrNumber cell_slice_2_m1), E, map_map.
    assert (S : map (fun ds => cell_slice_2_m1 (SccSpec.wrapped ds)) dss = map Str dss).
    { apply map_ext. intros ds. unfold SccSpec.wrapped. cbn [cell_slice_2_m1].
      rewrite ColumnFacts.slice_wrapped. reflexivity. }
    rewrite S, (ColumnFacts.cast_numbers dss).
    + cbn [rbind]. rewrite map_map. f_equal. apply map_ext_in. intros ds Hds.
      cbn [Scc.int_value]. apply ListFacts.int32_fits.
      rewrite Forall_forall in F. apply (F ds Hds).
    + apply (Forall_impl _ (fun ds H => proj1 H) F).
  - intros col Hcol Hno.
    assert (R : Scc.reformat_strings (Scc.MkRawFrame ids marks) = Raise AttributeError).
    { apply (ColumnFacts.reformat_strings_number (Scc.MkRawFrame ids marks) col Hcol).
      exact Hno. }
    split; [exact R|]. intros ts. unfold Scc.preprocess. rewrite R. reflexivity.
Qed.

Lemma X21_ballot_numbers_witness :
  rbind (Scc.reformat_strings
           (Scc.MkRawFrame (Scc.raw_ids SccSpec.same_number)
                           (Scc.raw_marks SccSpec.same_number)))
        Scc.set_index
  = Ok (map int_of_digits [py "1"; py "1"])
  /\ Scc.preprocess SccSpec.chain
       (Scc.MkRawFrame (Scc.raw_ids ColumnSpec.batch_as_number)
                       (Scc.raw_marks ColumnSpec.batch_as_number))
     = Raise AttributeError.
Proof.
  split.
  - apply (proj1 (X21_ballot_numbers (Scc.raw_ids SccSpec.same_number)
                    (Scc.raw_marks SccSpec.same_number))).
    + reflexivity.
    + repeat constructor; try discriminate; vm_compute; congruence.
    + unfold Scc.reformat_cols.
      repeat (apply Forall_cons;
              [right; eexists; eexists; split; [left; reflexivity|reflexivity]|]).
      apply Forall_nil.
  - apply (proj2 (X21_ballot_numbers (Scc.raw_ids ColumnSpec.batch_as_number)
                    (Scc.raw_marks ColumnSpec.batch_as_number)) Scc.raw_BatchId).
    + right. right. left. reflexivity.
    + intros [H|(r & s0 & [<-|[]] & H)]; discriminate.
Defined.

(** ** Vendor A: the identity frame after the checks *)

Module CleanFacts.

Import SccId ImprintedSpec ListFacts IdFacts IdKeeps.

Lemma cast_tabulator_batch_inv (df df' : df_id) :
  cast_tabulator_batch df = (Ok tt, df') ->
  map_result (astype_int 16) (map TabulatorNum df) = Ok (map TabulatorNum df')
  /\ map_result (astype_int 16) (map BatchId df) = Ok (map BatchId df').
Proof.
  unfold cast_tabulator_batch, bind, get, lift, assign, put.
  destruct (map_result (astype_int 16) (map TabulatorNum df)) as [tab|] eqn:Et;
    [|discriminate].
  destruct (map_result (astype_int 16) (map BatchId df)) as [batch|] eqn:Eb;
    [|discriminate].
  intros H. injection H as <-.
  pose proof (map_result_length _ _ _ Et) as Lt.
  pose proof (map_result_length _ _ _ Eb) as Lb. rewrite length_map in Lt, Lb.
  split; f_equal; symmetry.
  - rewrite (map2_fst (fun r v => with_BatchId v r) TabulatorNum TabulatorNum).
    + rewrite (map2_snd (fun r v => with_TabulatorNum v r) TabulatorNum (fun v => v)).
      * apply map_id.
      * reflexivity.
      * lia.
    + reflexivity.
    + rewrite length_map2. lia.
  - rewrite (map2_snd (fun r v => with_BatchId v r) BatchId (fun v => v)).
    + apply map_id.
    + reflexivity.
    + rewrite length_map2. lia.
Qed.

Lemma cast_record_id_inv (df df' : df_id) :
  cast_record_id df = (Ok tt, df') ->
  map_result (astype_int 32) (map RecordId df) = Ok (map RecordId df').
Proof.
  unfold cast_record_id, bind, get, lift, assign, put.
  destruct (map_result (astype_int 32) (map RecordId df)) as [rec|] eqn:E;
    [|discriminate].
  intros H. injection H as <-.
  pose proof (map_result_length _ _ _ E) as L. rewrite length_map in L.
  f_equal. symmetry.
  rewrite (map2_snd (fun r v => with_RecordId v r) RecordId (fun v => v)).
  - apply map_id.
  - reflexivity.
  - lia.
Qed.

(** What holds of a column in every row holds in every row of a frame
    with the same column. *)
Lemma column_forall {X} (f : IdRow -> X) (P : X -> Prop) (a b : df_id) :
  keeps f a b -> Forall (fun r => P (f r)) a -> Forall (fun r => P (f r)) b.
Proof.
  unfold keeps. intros K H. apply Forall_map. rewrite K. apply Forall_map. exact H.
Qed.

Lemma dropped_imprinted (df d1 : df_id) :
  check_imprinted_id df = (Ok tt, d1) -> Forall (fun r => ImprintedId r = None) d1.
Proof.
  intros H. apply check_imprinted_id_ok in H. destruct H as [_ ->].
  apply Forall_map. apply Forall_forall. reflexivity.
Qed.

Lemma precincts_set (df d4 : df_id) :
  check_precinct_portion df = (Ok tt, d4) ->
  Forall (fun r => PrecinctPortion r = None
                   /\ Precinct1 r <> None /\ Precinct2 r <> None) d4.
Proof.
  intros H. apply check_precinct_portion_ok in H. destruct H as (_ & _ & ->).
  apply Forall_forall. intros r Hr. apply in_map2 in Hr.
  destruct Hr as (x & g & Hx & _ & ->). apply in_map_iff in Hx.
  destruct Hx as (y & <- & _). cbn. repeat split; discriminate.
Qed.

End CleanFacts.

(** X22.  When [check_and_clean_id_invariants] returns, the frame has
    the same rows with the same ballot ids and counting groups, the
    columns TabulatorNum and BatchId are the raw columns as [np.int16] and
    RecordId the raw column as [np.int32], the columns ImprintedId and
    PrecinctPortion are gone, and the columns Precinct1 and Precinct2 are
    there. *)
Theorem X22_clean_id_frame (df df' : SccId.df_id) :
  SccId.check_and_clean_id_invariants df = (Ok tt, df') ->
  map SccId.cvr_id df' = map SccId.cvr_id df
  /\ map SccId.CountingGroup df' = map SccId.CountingGroup df
  /\ map_result (astype_int 16) (map SccId.TabulatorNum df)
     = Ok (map SccId.TabulatorNum df')
  /\ map_result (astype_int 16) (map SccId.BatchId df) = Ok (map SccId.BatchId df')
  /\ map_result (astype_int 32) (map SccId.RecordId df) = Ok (map SccId.RecordId df')
  /\ Forall (fun r => SccId.ImprintedId r = None /\ SccId.PrecinctPortion r = None
                      /\ SccId.Precinct1 r <> None /\ SccId.Precinct2 r <> None) df'.
Proof.
  intros H. pose proof (IdKeeps.clean_keeps_cvr_id df df' H) as Kid.
  apply IdFacts.stages in H.
  destruct H as (d1 & d2 & d3 & d4 & H1 & H2 & H3 & H4 & H5).
  assert (K1 : forall X (f : SccId.IdRow -> X),
             (forall v r, f (SccId.with_ImprintedId v r) = f r) ->
             IdFacts.keeps f df d1).
  { intros X f Hf. apply (IdKeeps.stage1_keeps f df d1 Hf H1). }
  assert (K2 : forall X (f : SccId.IdRow -> X),
             (forall v r, f (SccId.with_TabulatorNum v r) = f r) ->
             (forall v r, f (SccId.with_BatchId v r) = f r) ->
             IdFacts.keeps f d1 d2).
  { intros X f Ha Hb. apply (IdKeeps.stage2_keeps f d1 d2 Ha Hb H2). }
  assert (K3 : forall X (f : SccId.IdRow -> X),
             (forall v r, f (SccId.with_BallotType v r) = f r) ->
             IdFacts.keeps f d2 d3).
  { intros X f Hf. apply (IdKeeps.stage3_keeps f d2 d3 Hf H3). }
  assert (K4 : forall X (f : SccId.IdRow -> X),
             (forall v r, f (SccId.with_PrecinctPortion v r) = f r) ->
             (forall p1 p2 r, f (SccId.with_Precincts p1 p2 r) = f r) ->
             IdFacts.keeps f d3 d4).
  { intros X f Ha Hb. apply (IdKeeps.stage4_keeps f d3 d4 Ha Hb H4). }
  assert (K5 : forall X (f : SccId.IdRow -> X),
             (forall v r, f (SccId.with_RecordId v r) = f r) ->
             IdFacts.keeps f d4 df').
  { intros X f Hf. apply (IdKeeps.stage5_keeps f d4 df' Hf H5). }
  unfold IdFacts.keeps in *.
  destruct (CleanFacts.cast_tabulator_batch_inv d1 d2 H2) as [Ct Cb].
  pose proof (CleanFacts.cast_record_id_inv d4 df' H5) as Cr.
  split; [exact Kid|]. split.
  { rewrite K5, K4, K3, K2, K1; reflexivity. }
  split.
  { rewrite K5, K4, K3 by reflexivity. rewrite <- (K1 _ SccId.TabulatorNum) by reflexivity.
    exact Ct. }
  split.
  { rewrite K5, K4, K3 by reflexivity. rewrite <- (K1 _ SccId.BatchId) by reflexivity.
    exact Cb. }
  split.
  { rewrite <- (K1 _ SccId.RecordId), <- (K2 _ SccId.RecordId),
      <- (K3 _ SccId.RecordId), <- (K4 _ SccId.RecordId) by reflexivity.
    exact Cr. }
  assert (F1 : Forall (fun r => SccId.ImprintedId r = None) df').
  { apply (CleanFacts.column_forall SccId.ImprintedId (fun c => c = None) d1 df').
    - unfold IdFacts.keeps. rewrite K5, K4, K3, K2; reflexivity.
    - apply (CleanFacts.dropped_imprinted df d1 H1). }
  pose proof (CleanFacts.precincts_set d3 d4 H4) as F4.
  assert (F5 : Forall (fun r => SccId.PrecinctPortion r = None
                                /\ SccId.Precinct1 r <> None
                                /\ SccId.Precinct2 r <> None) df').
  { apply (CleanFacts.column_forall
             (fun r => (SccId.PrecinctPortion r, SccId.Precinct1 r, SccId.Precinct2 r))
             (fun c => fst (fst c) = None /\ snd (fst c) <> None /\ snd c <> None)
             d4 df').
    - unfold IdFacts.keeps. apply K5. reflexivity.
    - exact F4. }
  rewrite Forall_forall in *. intros r Hr. split; [apply F1; exact Hr|].
  apply F5. exact Hr.
Qed.

Lemma X22_clean_id_frame_witness :
  map SccId.cvr_id (Scc.df_cvr SccSpec.tables)
  = map SccId.cvr_id (ChecksSpec.id_frame SccSpec.same_number [1%Z; 1%Z])
  /\ map SccId.CountingGroup (Scc.df_cvr SccSpec.tables)
     = map SccId.CountingGroup (ChecksSpec.id_frame SccSpec.same_number [1%Z; 1%Z])
  /\ map_result (astype_int 16)
       (map SccId.TabulatorNum (ChecksSpec.id_frame SccSpec.same_number [1%Z; 1%Z]))
     = Ok (map SccId.TabulatorNum (Scc.df_cvr SccSpec.tables))
  /\ map_result (astype_int 16)
       (map SccId.BatchId (ChecksSpec.id_frame SccSpec.same_number [1%Z; 1%Z]))
     = Ok (map SccId.BatchId (Scc.df_cvr SccSpec.tables))
  /\ map_result (astype_int 32)
       (map SccId.RecordId (ChecksSpec.id_frame SccSpec.same_number [1%Z; 1%Z]))
     = Ok (map SccId.RecordId (Scc.df_cvr SccSpec.tables))
  /\ Forall (fun r => SccId.ImprintedId r = None /\ SccId.PrecinctPortion r = None
                      /\ SccId.Precinct1 r <> None /\ SccId.Precinct2 r <> None)
            (Scc.df_cvr SccSpec.tables).
Proof.
  apply X22_clean_id_frame. vm_compute. reflexivity.
Defined.

(** ** Vendor A: the ballot type *)

Module BallotTypeFacts.

Import SccId ListFacts ReFacts SearchFacts BallotTypeSpec.

(** The rest of the pattern after its second repetition. *)
Lemma second_name (a b : str) (y : ascii) (b' : str) :
  b = y :: b' -> forallb dot b' = true ->
  greedy dot
    (fun s' => rmatch [GClose; Lit (py ")")] s' [b ++ py ")"] [a])
    (b' ++ py ")")
  = Some ([a; b], []).
Proof.
  intros -> Hb. apply greedy_at.
  - exact Hb.
  - cbn [rmatch]. rewrite (firstn_consumed (y :: b') (py ")")). reflexivity.
  - intros a2 b2 E Hne _. destruct a2 as [|x a2]; [congruence|].
    injection E as _ E. destruct a2; [|discriminate E]. cbn [app] in E. subst b2.
    reflexivity.
Qed.

(** The pattern on a ballot type of two plain names. *)
Lemma match_twice (a b : str) :
  plain a -> plain b ->
  rmatch ballot_type_re (twice (a, b)) [] [] = Some ([a; b], []).
Proof.
  intros (Ha & Da & _) (Hb & Db & Pb). unfold twice, ballot_type_re. cbn [fst snd].
  destruct a as [|x a']; [congruence|].
  cbn [forallb] in Da. apply andb_prop in Da. destruct Da as [Dx Da].
  cbn [rmatch app]. rewrite Dx. apply greedy_at.
  - exact Da.
  - cbn [rmatch].
    change (x :: a' ++ py " (" ++ b ++ py ")")
      with ((x :: a') ++ py " (" ++ b ++ py ")").
    rewrite (firstn_consumed (x :: a') (py " (" ++ b ++ py ")")).
    rewrite strip_prefix_app.
    destruct b as [|y b']; [congruence|].
    cbn [forallb] in Db. apply andb_prop in Db. destruct Db as [Dy Db].
    cbn [app]. rewrite Dy.
    exact (second_name (x :: a') (y :: b') y b' eq_refl Db).
  - intros a2 b2 E Hne _. cbn [rmatch].
    destruct (strip_prefix (py " (") b2) as [r|] eqn:S; [|reflexivity].
    exfalso. apply strip_prefix_inv in S. subst b2.
    destruct a2 as [|z [|w a2]]; [congruence| |].
    + injection E as _ E. discriminate E.
    + injection E as _ _ E. apply Pb.
      assert (I : In "("%char (b ++ [")"%char])).
      { rewrite E. apply in_or_app. right. right. left. reflexivity. }
      apply in_app_or in I. destruct I as [I|[I|[]]]; [exact I|discriminate I].
Qed.

Lemma extract_twice (a b : str) :
  plain a -> plain b ->
  extract ballot_type_re 2 (Str (twice (a, b))) = [Str a; Str b].
Proof.
  intros Ha Hb. unfold extract, search.
  destruct (twice (a, b)) as [|c t] eqn:E.
  - destruct a; [destruct Ha; congruence|discriminate E].
  - cbn [search_from]. rewrite <- E, (match_twice a b Ha Hb). reflexivity.
Qed.

(** The series [ballot_type_ok] of a frame of such ballot types. *)
Lemma ballot_type_ok_twice (df : df_id) (parts : list (str * str)) :
  map BallotType df = map (fun p => Str (twice p)) parts ->
  Forall (fun p => plain (fst p) /\ plain (snd p)) parts ->
  ballot_type_groups df = map (fun p => [Str (fst p); Str (snd p)]) parts.
Proof.
  intros E F. unfold ballot_type_groups. rewrite E, map_map.
  apply map_ext_in. intros [a b] Hp. rewrite Forall_forall in F.
  destruct (F _ Hp) as [Ha Hb]. apply extract_twice; assumption.
Qed.

Lemma all_map {A} (f : A -> bool) (l : list A) : all (map f l) = forallb f l.
Proof.
  unfold all. induction l as [|x l IH]; cbn [map forallb]; [reflexivity|].
  rewrite IH. reflexivity.
Qed.

(** A column of strings has the accessor [.str]. *)
Lemma str_accessor_strings {A} (f : A -> str) (l : list A) :
  str_accessor (map (fun p => Str (f p)) l) = Ok (map (fun p => Str (f p)) l).
Proof.
  destruct l as [|x l]; reflexivity.
Qed.

End BallotTypeFacts.

(** X23.  On a frame whose ballot types are each a name followed by a
    name in parentheses (names without newline and without opening
    parenthesis), the ballot type check passes exactly when in every row
    the two names are the same, and the column is then left with the
    name; otherwise it raises the assertion error [BallotType mismatch]
    and leaves the frame as it is. *)
Theorem X23_ballot_type_check (df : SccId.df_id) (parts : list (str * str)) :
  map SccId.BallotType df = map (fun p => Str (BallotTypeSpec.twice p)) parts ->
  Forall (fun p => BallotTypeSpec.plain (fst p) /\ BallotTypeSpec.plain (snd p)) parts ->
  (Forall (fun p => fst p = snd p) parts ->
   exists df', SccId.check_ballot_type df = (Ok tt, df')
               /\ map SccId.BallotType df' = map (fun p => Str (fst p)) parts)
  /\ (~ Forall (fun p => fst p = snd p) parts ->
      SccId.check_ballot_type df
      = (Raise (AssertionError "BallotType mismatch"), df)).
Proof.
  intros E F.
  pose proof (BallotTypeFacts.ballot_type_ok_twice df parts E F) as G.
  assert (L : length df = length parts).
  { apply (f_equal (@length _)) in E. rewrite !length_map in E. exact E. }
  assert (B : all (SccId.ballot_type_ok df)
              = forallb (fun p => str_eqb (fst p) (snd p)) parts).
  { unfold SccId.ballot_type_ok. rewrite G, !map_map.
    rewrite (ImprintedId.map2_map cell_eqb).
    apply (BallotTypeFacts.all_map (fun p => str_eqb (fst p) (snd p))). }
  unfold SccId.check_ballot_type, SccId.bind, SccId.get, SccId.lift, SccId.assert_.
  rewrite E, (BallotTypeFacts.str_accessor_strings BallotTypeSpec.twice), B. split.
  - intros Heq.
    assert (T : forallb (fun p => str_eqb (fst p) (snd p)) parts = true).
    { apply forallb_forall. intros p Hp. apply str_eqb_eq.
      rewrite Forall_forall in Heq. apply Heq. exact Hp. }
    rewrite T. unfold SccId.ret, SccId.assign, SccId.bind, SccId.get, SccId.put.
    eexists. split; [reflexivity|].
    rewrite G, map_map.
    rewrite (ListFacts.map2_snd (fun r v => SccId.with_BallotType v r)
               SccId.BallotType (fun v => v)).
    + rewrite map_map. reflexivity.
    + reflexivity.
    + rewrite length_map. lia.
  - intros Hne.
    destruct (forallb (fun p => str_eqb (fst p) (snd p)) parts) eqn:T;
      [|reflexivity].
    exfalso. apply Hne. apply Forall_forall. intros p Hp. apply str_eqb_eq.
    rewrite forallb_forall in T. apply T. exact Hp.
Qed.

Lemma X23_ballot_type_check_witness :
  (Forall (fun p : str * str => fst p = snd p) [(py "Vote Center", py "Vote Center")] ->
   exists df', SccId.check_ballot_type ImprintedSpec.one_ballot = (Ok tt, df')
               /\ map SccId.BallotType df'
                  = map (fun p => Str (fst p)) [(py "Vote Center", py "Vote Center")])
  /\ (~ Forall (fun p : str * str => fst p = snd p)
               [(py "Vote Center", py "Vote Center")] ->
      SccId.check_ballot_type ImprintedSpec.one_ballot
      = (Raise (AssertionError "BallotType mismatch"), ImprintedSpec.one_ballot)).
Proof.
  apply (X23_ballot_type_check ImprintedSpec.one_ballot
           [(py "Vote Center", py "Vote Center")]).
  - reflexivity.
  - repeat constructor; try discriminate; cbn;
      intros H; vm_compute in H; intuition discriminate.
Defined.

(** ** Vendor A: the precinct portion *)

Module PrecinctFacts.

Import SccId ListFacts ReFacts SearchFacts ColumnSpec PrecinctSpec.

(** A repetition takes the whole of a prefix in the class that is
    followed by a character outside the class. *)
Lemma greedy_stop {A} (cls : ascii -> bool) (k : str -> option A) (a b : str) (r : A) :
  forallb cls a = true -> k b = Some r ->
  (forall c t, b = c :: t -> cls c = false) ->
  greedy cls k (a ++ b) = Some r.
Proof.
  intros Ha Hb Hs. apply greedy_at; [exact Ha|exact Hb|].
  intros a2 b2 E Hne Hc. exfalso. destruct a2 as [|x a2]; [congruence|].
  cbn [forallb] in Hc. apply andb_prop in Hc. destruct Hc as [Hx _].
  rewrite (Hs x (a2 ++ b2) E) in Hx. discriminate.
Qed.

(** From the third group to the end of the pattern. *)
Lemma match_second (n p1 p2 : str) :
  forallb is_digit p2 = true ->
  rmatch [GOpen; Star digit; GClose; Lit (py ")")] (p2 ++ py ")") [] [p1; n]
  = Some ([n; p1; p2], []).
Proof.
  intros H. cbn [rmatch]. apply greedy_stop.
  - exact H.
  - rewrite (firstn_consumed p2 (py ")")). reflexivity.
  - intros c t E. injection E as <- _. reflexivity.
Qed.

(** From the optional dash to the end of the pattern. *)
Lemma match_dash (n p1 p2 : str) (d : bool) :
  forallb is_digit p2 = true -> (d = false -> p2 = []) ->
  rmatch [Opt "-"; GOpen; Star digit; GClose; Lit (py ")")]
         ((if d then py "-" else []) ++ p2 ++ py ")") [] [p1; n]
  = Some ([n; p1; p2], []).
Proof.
  intros H Hd. destruct d.
  - pose proof (match_second n p1 p2 H) as S.
    change (py "-" ++ p2 ++ py ")") with ("-"%char :: p2 ++ py ")").
    cbn [rmatch] in *. rewrite Ascii.eqb_refl, S. reflexivity.
  - rewrite (Hd eq_refl). reflexivity.
Qed.

(** From the second group to the end of the pattern. *)
Lemma match_first (n p1 p2 : str) (d : bool) :
  is_number p1 -> forallb is_digit p2 = true -> (d = false -> p2 = []) ->
  rmatch [GOpen; Plus digit; GClose; Opt "-"; GOpen; Star digit; GClose; Lit (py ")")]
         (p1 ++ (if d then py "-" else []) ++ p2 ++ py ")") [] [n]
  = Some ([n; p1; p2], []).
Proof.
  intros [Hne H1] H2 Hd. destruct p1 as [|c p1']; [congruence|].
  cbn [forallb] in H1. apply andb_prop in H1. destruct H1 as [Hc H1].
  cbn [rmatch app]. change (digit c) with (is_digit c). rewrite Hc.
  apply greedy_stop.
  - exact H1.
  - change (c :: p1' ++ (if d then py "-" else []) ++ p2 ++ py ")")
      with ((c :: p1') ++ (if d then py "-" else []) ++ p2 ++ py ")").
    rewrite (firstn_consumed (c :: p1') ((if d then py "-" else []) ++ p2 ++ py ")")).
    apply (match_dash n (c :: p1') p2 d H2 Hd).
  - intros x t E. destruct d.
    + injection E as <- _. reflexivity.
    + rewrite (Hd eq_refl) in E. injection E as <- _. reflexivity.
Qed.

(** The pattern on the number and what follows it. *)
Lemma match_number (n p1 p2 : str) (d : bool) :
  is_number n -> is_number p1 -> forallb is_digit p2 = true ->
  (d = false -> p2 = []) ->
  rmatch [GOpen; Plus digit; GClose; Lit (py " ("); GOpen; Plus digit; GClose;
          Opt "-"; GOpen; Star digit; GClose; Lit (py ")")]
         (n ++ py " (" ++ p1 ++ (if d then py "-" else []) ++ p2 ++ py ")") [] []
  = Some ([n; p1; p2], []).
Proof.
  intros [Hne Hn] H1 H2 Hd. destruct n as [|c n']; [congruence|].
  cbn [forallb] in Hn. apply andb_prop in Hn. destruct Hn as [Hc Hn].
  cbn [rmatch app]. change (digit c) with (is_digit c). rewrite Hc.
  apply greedy_stop.
  - exact Hn.
  - change (c :: n' ++ py " (" ++ p1 ++ (if d then py "-" else []) ++ p2 ++ py ")")
      with ((c :: n') ++ py " (" ++ p1 ++ (if d then py "-" else []) ++ p2 ++ py ")").
    rewrite (firstn_consumed (c :: n')
               (py " (" ++ p1 ++ (if d then py "-" else []) ++ p2 ++ py ")")).
    rewrite strip_prefix_app.
    apply (match_first (c :: n') p1 p2 d H1 H2 Hd).
  - intros x t E. injection E as <- _. reflexivity.
Qed.

(** The whole pattern on a well-formed precinct portion. *)
Lemma match_portion (p : Portion) :
  well_formed p ->
  rmatch precinct_regex (portion_text p) [] []
  = Some ([number p; first p; second p], []).
Proof.
  intros (Hz & Hn & Hh & H1 & H2 & Hd). unfold precinct_regex, portion_text.
  cbn [rmatch]. apply greedy_stop.
  - exact Hz.
  - apply (match_number (number p) (first p) (second p) (dash p) Hn H1 H2 Hd).
  - intros c t E. destruct (number p) as [|x n'] eqn:En; [destruct Hn; congruence|].
    injection E as <- _. destruct (Ascii.eqb_spec "0"%char x) as [<-|]; [|reflexivity].
    exfalso. apply Hh. reflexivity.
Qed.

Lemma extract_portion (p : Portion) :
  well_formed p ->
  extract precinct_regex 3 (Str (portion_text p))
  = [Str (number p); Str (first p); Str (second p)].
Proof.
  intros H. unfold extract, search.
  destruct (portion_text p) as [|c t] eqn:E.
  - exfalso. unfold portion_text in E. destruct H as (_ & [Hn _] & _).
    destruct (zeros p); [|discriminate E]. destruct (number p); [congruence|].
    discriminate E.
  - cbn [search_from]. rewrite <- E, (match_portion p H). reflexivity.
Qed.

Lemma present_some (cells : list cell) : present (map Some cells) = Some cells.
Proof.
  induction cells as [|c l IH]; cbn [map present]; [reflexivity|].
  rewrite IH. reflexivity.
Qed.

(** What lines 85 to 93 return on a column of text, by the outcome of
    the assertion. *)
Lemma check_precinct_portion_eq (df : df_id) (cells : list cell) :
  present (map PrecinctPortion df) = Some cells ->
  str_accessor cells = Ok cells ->
  check_precinct_portion df
  = if all (precinct_ok (map (extract precinct_regex 3) cells))
    then (Ok tt,
          map2 (fun r g => with_Precincts (nth 1 g NaN) (nth 2 g NaN) r)
               (map (with_PrecinctPortion None) df)
               (map (extract precinct_regex 3) cells))
    else (Raise (AssertionError "PrecintPortion mismatch"), df).
Proof.
  intros P S.
  unfold check_precinct_portion, column, bind, get, lift, assert_, drop, put, ret, raise.
  rewrite P, S. destruct (all (precinct_ok (map (extract precinct_regex 3) cells)));
    reflexivity.
Qed.

End PrecinctFacts.

(** X24.  On a frame whose precinct portions are each written as leading
    zeros, a precinct number, and in parentheses a precinct number with,
    after a dash, the number of the portion, the precinct check passes
    exactly when in every row the two precinct numbers are the same; the
    frame then loses the column PrecinctPortion and gets the precinct
    number as Precinct1 and the number of the portion (empty without a
    dash) as Precinct2.  Otherwise the check raises the assertion error
    and leaves the frame as it is. *)
Theorem X24_precinct_check (df : SccId.df_id) (parts : list PrecinctSpec.Portion) :
  map SccId.PrecinctPortion df
  = map (fun p => Some (Str (PrecinctSpec.portion_text p))) parts ->
  Forall PrecinctSpec.well_formed parts ->
  (Forall (fun p => PrecinctSpec.number p = PrecinctSpec.first p) parts ->
   exists df',
     SccId.check_precinct_portion df = (Ok tt, df')
     /\ map SccId.PrecinctPortion df' = map (fun _ => None) parts
     /\ map SccId.Precinct1 df' = map (fun p => Some (Str (PrecinctSpec.first p))) parts
     /\ map SccId.Precinct2 df'
        = map (fun p => Some (Str (PrecinctSpec.second p))) parts)
  /\ (~ Forall (fun p => PrecinctSpec.number p = PrecinctSpec.first p) parts ->
      SccId.check_precinct_portion df
      = (Raise (AssertionError "PrecintPortion mismatch"), df)).
Proof.
  intros E F.
  assert (L : length df = length parts).
  { apply (f_equal (@length _)) in E. rewrite !length_map in E. exact E. }
  assert (P : SccId.present (map SccId.PrecinctPortion df)
              = Some (map (fun p => Str (PrecinctSpec.portion_text p)) parts)).
  { rewrite E, <- (map_map (fun p => Str (PrecinctSpec.portion_text p)) Some).
    apply PrecinctFacts.present_some. }
  assert (G : map (extract SccId.precinct_regex 3)
                  (map (fun p => Str (PrecinctSpec.portion_text p)) parts)
              = map (fun p => [Str (PrecinctSpec.number p); Str (PrecinctSpec.first p);
                               Str (PrecinctSpec.second p)]) parts).
  { rewrite map_map. apply map_ext_in. intros p Hp. rewrite Forall_forall in F.
    apply PrecinctFacts.extract_portion. apply F. exact Hp. }
  assert (B : all (SccId.precinct_ok
                     (map (extract SccId.precinct_regex 3)
                          (map (fun p => Str (PrecinctSpec.portion_text p)) parts)))
              = forallb (fun p => str_eqb (PrecinctSpec.number p) (PrecinctSpec.first p))
                        parts).
  { unfold SccId.precinct_ok. rewrite G, !map_map.
    rewrite (ImprintedId.map2_map cell_eqb).
    apply (BallotTypeFacts.all_map
             (fun p => str_eqb (PrecinctSpec.number p) (PrecinctSpec.first p))). }
  rewrite (PrecinctFacts.check_precinct_portion_eq df _ P
             (BallotTypeFacts.str_accessor_strings PrecinctSpec.portion_text parts)), B.
  split.
  - intros Heq.
    assert (T : forallb (fun p => str_eqb (PrecinctSpec.number p) (PrecinctSpec.first p))
                        parts = true).
    { apply forallb_forall. intros p Hp. apply str_eqb_eq.
      rewrite Forall_forall in Heq. apply Heq. exact Hp. }
    rewrite T. eexists. split; [reflexivity|]. rewrite G.
    split; [|split].
    + rewrite (ListFacts.map2_fst _ SccId.PrecinctPortion SccId.PrecinctPortion).
      * rewrite map_map. cbn [SccId.PrecinctPortion SccId.with_PrecinctPortion].
        clear - L. revert parts L.
        induction df as [|r df IH]; intros [|p parts] L; cbn in *;
          try reflexivity; try discriminate.
        rewrite (IH parts) by lia. reflexivity.
      * reflexivity.
      * rewrite !length_map. lia.
    + rewrite (ListFacts.map2_snd _ SccId.Precinct1 (fun g => Some (nth 1 g NaN))).
      * rewrite map_map. reflexivity.
      * reflexivity.
      * rewrite !length_map. lia.
    + rewrite (ListFacts.map2_snd _ SccId.Precinct2 (fun g => Some (nth 2 g NaN))).
      * rewrite map_map. reflexivity.
      * reflexivity.
      * rewrite !length_map. lia.
  - intros Hne.
    destruct (forallb (fun p => str_eqb (PrecinctSpec.number p) (PrecinctSpec.first p))
                      parts) eqn:T; [|reflexivity].
    exfalso. apply Hne. apply Forall_forall. intros p Hp. apply str_eqb_eq.
    rewrite forallb_forall in T. apply T. exact Hp.
Qed.

Lemma X24_precinct_check_witness :
  (Forall (fun p => PrecinctSpec.number p = PrecinctSpec.first p)
          PrecinctSpec.two_portions ->
   exists df',
     SccId.check_precinct_portion (ChecksSpec.id_frame SccSpec.same_number [1%Z; 1%Z])
     = (Ok tt, df')
     /\ map SccId.PrecinctPortion df' = map (fun _ => None) PrecinctSpec.two_portions
     /\ map SccId.Precinct1 df'
        = map (fun p => Some (Str (PrecinctSpec.first p))) PrecinctSpec.two_portions
     /\ map SccId.Precinct2 df'
        = map (fun p => Some (Str (PrecinctSpec.second p))) PrecinctSpec.two_portions)
  /\ (~ Forall (fun p => PrecinctSpec.number p = PrecinctSpec.first p)
               PrecinctSpec.two_portions ->
      SccId.check_precinct_portion (ChecksSpec.id_frame SccSpec.same_number [1%Z; 1%Z])
      = (Raise (AssertionError "PrecintPortion mismatch"),
         ChecksSpec.id_frame SccSpec.same_number [1%Z; 1%Z])).
Proof.
  apply (X24_precinct_check (ChecksSpec.id_frame SccSpec.same_number [1%Z; 1%Z])
           PrecinctSpec.two_portions).
  - reflexivity.
  - repeat constructor; try discriminate; try reflexivity; cbn; congruence.
Defined.

(** ** Vendor B: from the ballot files to the tables *)

Module MembersFacts.

Import Sf ReadSpec ReadFacts MembersSpec.

Lemma read_raw_members (files : list ZipEntry) (nfiles : option nat) :
  read_raw files nfiles
  = (map (fun p => (fst p, fst (snd p)))
         (number 0 (cards_of (members_read files nfiles))),
     flat_map (fun p => marks_of (fst p) (snd (snd p)))
              (number 0 (cards_of (members_read files nfiles)))).
Proof.
  unfold read_raw, members_read. destruct nfiles as [n|].
  - rewrite read_files_limit by lia. rewrite Nat.sub_0_r, read_files_load.
    reflexivity.
  - rewrite read_files_load. reflexivity.
Qed.

(** The element at position [k] gets the number [z + k]. *)
Lemma number_nth {A} (l : list A) (x : A) : forall z k,
  nth_error l k = Some x -> nth_error (number z l) k = Some ((z + Z.of_nat k)%Z, x).
Proof.
  induction l as [|a l IH]; intros z [|k]; cbn [nth_error number]; try discriminate.
  - intros H. injection H as ->. rewrite Z.add_0_r. reflexivity.
  - intros H. rewrite (IH (z + 1)%Z k H). do 2 f_equal. lia.
Qed.

Lemma card_is_read (files : list ZipEntry) (f : ZipEntry) (sess : JSession)
    (card : JCard) :
  In f files -> is_export f = true -> In sess (Sessions (content f)) ->
  In card (Cards sess) -> In (filename f, card) (cards_of files).
Proof.
  intros Hf He Hs Hc. unfold cards_of. apply in_flat_map. exists f.
  split; [exact Hf|]. rewrite He. apply in_map. apply in_flat_map.
  exists sess. auto.
Qed.

End MembersFacts.

(** X25.  The nested per-ballot path keeps every mark under the number
    of its card.  The cards of the ballot files that the loop reaches are
    numbered 0, 1, 2, ... in the order of the archive; for the card with
    the number [k], row [k] of the CvrRecord table holds [k] and the name
    of the card's file, and every mark of every contest of the card has a
    row in the Mark table with the ballot id [k] and the contest id,
    candidate id, rank and flags of the mark, the numbers cast to their
    integer types.  Every card of every session of a ballot file that the
    loop reaches is one of these cards. *)
Theorem X25_sf_every_mark_is_kept (ts : list transformer) (files : list Sf.ZipEntry)
    (nfiles : option nat) (cd : list Sf.JContestDef) (nd : list Sf.JCandidateDef)
    (t : Sf.Tables) :
  Sf.preprocess ts (fst (Sf.read_raw files nfiles)) cd nd
                (snd (Sf.read_raw files nfiles)) = Ok t ->
  (forall k file card,
      nth_error (ReadSpec.cards_of (MembersSpec.members_read files nfiles)) k
      = Some (file, card) ->
      nth_error (Sf.df_cvr t) k = Some (Sf.MkCvrRow (int32 (Z.of_nat k)) file)
      /\ forall contest mark,
           In contest (Sf.Contests card) -> In mark (Sf.Marks contest) ->
           In (Sf.MkMarkRow (int32 (Z.of_nat k)) (int16 (Sf.Id contest))
                            (int16 (Sf.CandidateId mark)) (int8 (Sf.Rank mark))
                            (Sf.IsVote mark) (Sf.IsAmbiguous mark))
              (Sf.df_mark t))
  /\ (forall f sess card,
         In f (MembersSpec.members_read files nfiles) ->
         ReadSpec.is_export f = true ->
         In sess (Sf.Sessions (Sf.content f)) -> In card (Sf.Cards sess) ->
         exists k,
           nth_error (ReadSpec.cards_of (MembersSpec.members_read files nfiles)) k
           = Some (Sf.filename f, card)).
Proof.
  intros H.
  apply SfFacts.sf_preprocess_ok_inv in H. destruct H as (std & _ & _ & _ & ->).
  cbn [Sf.df_cvr Sf.df_mark]. rewrite MembersFacts.read_raw_members. cbn [fst snd].
  split.
  - intros k file card Hk.
    pose proof (MembersFacts.number_nth _ _ 0%Z k Hk) as Hn. cbn [Z.add] in Hn.
    split.
    + rewrite map_map, nth_error_map, Hn. reflexivity.
    + intros contest mark Hc Hm.
      unfold Sf.sorted_marks. apply ListFacts.in_sort_by. apply in_map_iff.
      exists (Sf.MkMarkRow (Z.of_nat k) (Sf.Id contest) (Sf.CandidateId mark)
                           (Sf.Rank mark) (Sf.IsVote mark) (Sf.IsAmbiguous mark)).
      split; [reflexivity|]. apply in_flat_map.
      exists (Z.of_nat k, (file, card)).
      split; [exact (nth_error_In _ _ Hn)|]. cbn [fst snd]. unfold ReadSpec.marks_of.
      apply in_flat_map. exists contest. split; [exact Hc|].
      apply in_map_iff. exists mark. split; [reflexivity|exact Hm].
  - intros f sess card Hf He Hs Hc.
    apply In_nth_error. exact (MembersFacts.card_is_read _ f sess card Hf He Hs Hc).
Qed.

Lemma X25_sf_every_mark_is_kept_witness :
  nth_error (Sf.df_cvr SfSpec.tables) 0
  = Some (Sf.MkCvrRow (int32 0) (py "CvrExport_1.json"))
  /\ In (Sf.MkMarkRow (int32 0) (int16 1) (int16 5) (int8 1) true false)
        (Sf.df_mark SfSpec.tables).
Proof.
  pose proof (X25_sf_every_mark_is_kept SfSpec.chain SfSpec.archive None
                SfSpec.contests SfSpec.candidates SfSpec.tables) as X.
  destruct X as [A _]; [vm_compute; reflexivity|].
  destruct (A 0 (py "CvrExport_1.json")
              (Sf.MkJCard [Sf.MkJContest 1 [Sf.MkJMark 5 1 true false];
                           Sf.MkJContest 2 [Sf.MkJMark 6 1 true false]])
              eq_refl) as [R M].
  split; [exact R|].
  apply (M (Sf.MkJContest 1 [Sf.MkJMark 5 1 true false]) (Sf.MkJMark 5 1 true false));
    left; reflexivity.
Defined.

(** ** A frame of many contests *)

Module ManyFacts.

Import Scc ListFacts PandasFacts SplitFacts SortFacts LevelSpec ManySpec.

Lemma length_numbered (sfx : str) (i : nat) :
  length (numbered sfx i) = i + length sfx.
Proof. unfold numbered. rewrite length_app, repeat_length. reflexivity. Qed.

Lemma numbered_inj (sfx : str) (i j : nat) :
  numbered sfx i = numbered sfx j -> i = j.
Proof.
  intros H. apply (f_equal (@length ascii)) in H.
  rewrite !length_numbered in H. lia.
Qed.

(** A suffix that starts below the letter a puts the shorter name
    first. *)
Lemma numbered_next (c : ascii) (rest : str) (i : nat) :
  nat_of_ascii c < 97 ->
  str_compare (numbered (c :: rest) i) (numbered (c :: rest) (S i)) = Lt.
Proof.
  intros Hc. unfold numbered. induction i as [|i IH]; cbn [repeat app str_compare].
  - change (nat_of_ascii "a") with 97.
    apply Nat.compare_lt_iff in Hc. rewrite Hc. reflexivity.
  - rewrite Nat.compare_refl. exact IH.
Qed.

Lemma sort_by_id {A} (leb : A -> A -> bool) (l : list A) :
  sorted_by leb l -> sort_by leb l = l.
Proof.
  unfold sorted_by. induction 1 as [|a l S IH H]; [reflexivity|].
  cbn [sort_by fold_right]. fold (sort_by leb l). rewrite IH.
  destruct H as [|b t H]; cbn [insert_by]; [reflexivity|]. rewrite H. reflexivity.
Qed.

Lemma sorted_seq {A} (R : A -> A -> Prop) (f : nat -> A) (n : nat) : forall s,
  (forall i, R (f i) (f (S i))) -> Sorted R (map f (seq s n)).
Proof.
  induction n as [|n IH]; intros s H; cbn [seq map]; [constructor|].
  constructor; [apply IH; exact H|].
  destruct n; cbn [seq map]; constructor. apply H.
Qed.

Lemma NoDup_numbered (sfx : str) (s n : nat) : NoDup (map (numbered sfx) (seq s n)).
Proof.
  apply CounterFacts.NoDup_map_injective; [|apply seq_NoDup].
  intros x y _ _. apply numbered_inj.
Qed.

(** The names are their own levels. *)
Lemma levels_numbered (c : ascii) (rest : str) (s n : nat) :
  nat_of_ascii c < 97 ->
  levels (map (numbered (c :: rest)) (seq s n)) = map (numbered (c :: rest)) (seq s n).
Proof.
  intros Hc. unfold levels.
  rewrite (nodup_fixed_point (list_eq_dec ascii_dec)) by apply NoDup_numbered.
  apply sort_by_id. apply sorted_seq. intros i. unfold str_leb.
  rewrite (numbered_next c rest i Hc). reflexivity.
Qed.

Section Position.

Context {A : Type} (eqb : A -> A -> bool).
Hypothesis eqb_eq : forall x y, eqb x y = true <-> x = y.

(** In a list without repetition a value is found at its place. *)
Lemma index_of_place (l : list A) : forall i x,
  NoDup l -> nth_error l i = Some x -> index_of eqb x l = Some i.
Proof.
  induction l as [|a l IH]; intros [|i] x N H; cbn [nth_error index_of] in *;
    try discriminate.
  - injection H as ->. rewrite (proj2 (eqb_eq x x) eq_refl). reflexivity.
  - inversion N as [|a' l' Ha Nl]; subst.
    destruct (eqb x a) eqn:E.
    + apply eqb_eq in E. subst a. exfalso. apply Ha. eapply nth_error_In; eauto.
    + rewrite (IH i x Nl H). reflexivity.
Qed.

(** [factorize] of values that are all different numbers them in their
    order. *)
Lemma factorize_from_distinct (xs : list A) : forall u,
  NoDup (u ++ xs) ->
  factorize_from eqb u xs = (seq (length u) (length xs), u ++ xs).
Proof.
  induction xs as [|x xs IH]; intros u N; cbn [factorize_from length seq].
  - rewrite app_nil_r. reflexivity.
  - rewrite (FactorizeOrder.index_of_not_in eqb eqb_eq).
    + rewrite (IH (u ++ [x])).
      * rewrite length_app, <- app_assoc. cbn [length app].
        rewrite Nat.add_1_r. reflexivity.
      * rewrite <- app_assoc. exact N.
    + intros Hin. apply NoDup_remove_2 in N. apply N. apply in_or_app. left. exact Hin.
Qed.

End Position.

Lemma map_result_map {A B} (f : A -> result B) (g : A -> B) (l : list A) :
  (forall x, In x l -> f x = Ok (g x)) -> map_result f l = Ok (map g l).
Proof.
  induction l as [|a l IH]; intros H; cbn [map_result map]; [reflexivity|].
  rewrite (H a) by (left; reflexivity).
  rewrite IH by (intros x Hx; apply H; right; exact Hx). reflexivity.
Qed.

Lemma map_result_seq {A B C} (f : A -> result B) (h : C -> A) (k : C -> B)
    (l : list C) :
  (forall x, In x l -> f (h x) = Ok (k x)) -> map_result f (map h l) = Ok (map k l).
Proof.
  induction l as [|a l IH]; intros H; cbn [map_result map]; [reflexivity|].
  rewrite (H a) by (left; reflexivity).
  rewrite IH by (intros x Hx; apply H; right; exact Hx). reflexivity.
Qed.

Lemma map2_same {A B C D} (f : B -> C -> D) (g : A -> B) (h : A -> C) (l : list A) :
  map2 f (map g l) (map h l) = map (fun x => f (g x) (h x)) l.
Proof.
  unfold map2. induction l as [|a l IH]; cbn [map combine fst snd]; [reflexivity|].
  rewrite IH. reflexivity.
Qed.

Lemma combine_same {A B C} (g : A -> B) (h : A -> C) (l : list A) :
  combine (map g l) (map h l) = map (fun x => (g x, h x)) l.
Proof.
  induction l as [|a l IH]; cbn [map combine]; [reflexivity|].
  rewrite IH. reflexivity.
Qed.

Lemma nth_error_map_seq {A} (f : nat -> A) (n i : nat) :
  i < n -> nth_error (map f (seq 0 n)) i = Some (f i).
Proof.
  intros H. rewrite nth_error_map.
  rewrite (nth_error_nth' (seq 0 n) 0) by (rewrite length_seq; exact H).
  rewrite seq_nth by exact H. reflexivity.
Qed.

(** *** Ids of sixteen bits *)

(** Up to [2^16] numbers the cast to [np.int16] keeps them apart. *)
Lemma int16_inj (a b : Z) :
  (0 <= a < 65536)%Z -> (0 <= b < 65536)%Z -> int16 a = int16 b -> a = b.
Proof.
  unfold int16, wrap. cbv zeta.
  change (2 ^ 16)%Z with 65536%Z. change (2 ^ (16 - 1))%Z with 32768%Z.
  intros Ha Hb. rewrite !Z.mod_small by lia.
  destruct (Z.ltb_spec a 32768); destruct (Z.ltb_spec b 32768); lia.
Qed.

Lemma level_ids_NoDup (n : nat) : (Z.of_nat n <= 65536)%Z -> NoDup (level_ids n).
Proof.
  intros Hn. unfold level_ids, range.
  apply CounterFacts.NoDup_map_injective; [|apply seq_NoDup].
  intros x y Hx Hy E. apply in_seq in Hx, Hy.
  apply int16_inj in E; lia.
Qed.

Lemma is_unique_NoDup (ids : list Z) : NoDup ids -> is_unique ids = true.
Proof.
  induction 1 as [|x l Hx _ IH]; cbn [is_unique]; [reflexivity|].
  rewrite IH, andb_true_r. apply negb_true_iff.
  destruct (existsb (Z.eqb x) l) eqn:E; [|reflexivity].
  exfalso. apply existsb_exists in E. destruct E as (y & Hy & E).
  apply Z.eqb_eq in E. subst y. contradiction.
Qed.

Lemma set_levels_ids (n : nat) :
  (Z.of_nat n <= 65536)%Z -> set_levels (level_ids n) = Ok (level_ids n).
Proof.
  intros Hn. unfold set_levels.
  rewrite (is_unique_NoDup _ (level_ids_NoDup n Hn)). reflexivity.
Qed.

(** *** The contests of the frame *)

Lemma no_adjacent_spaces (k : nat) :
  SpacesSpec.adjacent_spaces (repeat "a"%char k ++ vote_for_one) = false.
Proof.
  induction k as [|k IH]; [reflexivity|].
  cbn [repeat app SpacesSpec.adjacent_spaces].
  assert (E : SpacesSpec.is_space "a"%char = false) by reflexivity.
  rewrite E, IH. reflexivity.
Qed.

Lemma standardize_numbered (i : nat) :
  SccText.standardize [TermSpec.county_office] (numbered vote_for_one (S i))
  = Ok (py "County", py "Santa Clara", repeat "a"%char (S i), py "At Large",
        py "Full", 1%Z).
Proof.
  unfold numbered. set (p := repeat "a"%char (S i)).
  assert (Hp : forall c, In c p -> c = "a"%char).
  { intros c H. apply repeat_spec in H. exact H. }
  rewrite (StandardizeFacts.standardize_steps _ _ 1%Z p).
  - rewrite TermFacts.split_term_full.
    + cbn [fst snd]. reflexivity.
    + intros (pr & t & e & _ & _ & E).
      assert (H : In ","%char p).
      { rewrite E. apply in_or_app. right. left. reflexivity. }
      apply Hp in H. discriminate H.
  - pose proof (no_adjacent_spaces (S i)) as Hs. fold p in Hs.
    rewrite (SearchFacts.collapse_id _ Hs).
    unfold SccText.split_vote_for, search.
    change vote_for_one with (py " (Vote For=" ++ py "1" ++ py ")").
    rewrite (ReFacts.search_from_first SccText.vote_for_re p
               (py " (Vote For=" ++ py "1" ++ py ")") [py "1"] [] 0).
    + cbn [m_start group m_groups Nat.sub nth Nat.add].
      rewrite firstn_app, Nat.sub_diag, firstn_all. cbn [firstn].
      rewrite app_nil_r. reflexivity.
    + intros a1 a2 E Hne2. apply SearchFacts.vote_match_not_before; [exact Hne2|].
      intros H. assert (H' : In "("%char p).
      { rewrite E. apply in_or_app. right. exact H. }
      apply Hp in H'. discriminate H'.
    + apply SearchFacts.vote_match_here; [discriminate|reflexivity].
Qed.

Lemma levels_frame (c : ascii) (rest : str) (n : nat) :
  nat_of_ascii c < 97 ->
  levels (map (fun i => numbered (c :: rest) (S i)) (seq 0 n))
  = map (fun i => numbered (c :: rest) (S i)) (seq 0 n).
Proof.
  intros Hc. rewrite <- (map_map S (numbered (c :: rest))), seq_shift.
  apply levels_numbered. exact Hc.
Qed.

Lemma index_in_frame (c : ascii) (rest : str) (n i : nat) :
  i < n ->
  index_of str_eqb (numbered (c :: rest) (S i))
           (map (fun i => numbered (c :: rest) (S i)) (seq 0 n))
  = Some i.
Proof.
  intros H. apply (index_of_place str_eqb str_eqb_eq).
  - rewrite <- (map_map S (numbered (c :: rest))), seq_shift. apply NoDup_numbered.
  - apply (nth_error_map_seq (fun i => numbered (c :: rest) (S i))). exact H.
Qed.

Lemma relevel_frame (c : ascii) (rest : str) (n i : nat) :
  i < n ->
  relevel (map (fun i => numbered (c :: rest) (S i)) (seq 0 n)) (level_ids n)
          (numbered (c :: rest) (S i))
  = int16 (Z.of_nat i).
Proof.
  intros H. pose proof (LevelFacts.relevel_code _ _ _ (index_in_frame c rest n i H)) as R.
  rewrite length_map, length_seq in R. exact R.
Qed.

(** The offices of the frame are all different. *)
Lemma factorize_offices (n : nat) :
  factorize key_eqb
    (map (fun i => (py "County", py "Santa Clara", repeat "a"%char (S i), py "At Large"))
         (seq 0 n))
  = (seq 0 n,
     map (fun i => (py "County", py "Santa Clara", repeat "a"%char (S i), py "At Large"))
         (seq 0 n)).
Proof.
  unfold factorize.
  rewrite (factorize_from_distinct key_eqb key_eqb_eq).
  - rewrite length_map, length_seq. reflexivity.
  - cbn [app]. apply CounterFacts.NoDup_map_injective; [|apply seq_NoDup].
    intros x y _ _ E. injection E as E. apply (f_equal (@length ascii)) in E.
    rewrite !repeat_length in E. lia.
Qed.

Lemma split_contest_frame (n : nat) :
  1 <= n -> (Z.of_nat n <= 65536)%Z ->
  split_contest [TermSpec.county_office] (frame n)
  = Ok (contest_rows n, office_rows n, long2 n).
Proof.
  intros H1 Hn. unfold split_contest, frame. rewrite map_map. cbn [l_contest mark].
  change vote_for_one with (" "%char :: py "(Vote For=1)").
  rewrite (levels_frame " " (py "(Vote For=1)") n)
    by (change (nat_of_ascii " ") with 32; lia).
  rewrite (map_result_seq _ _
             (fun i => (py "County", py "Santa Clara", repeat "a"%char (S i),
                        py "At Large", py "Full", 1%Z)))
    by (intros i _; apply (standardize_numbered i)).
  cbn [rbind].
  remember (map (fun i => (py "County", py "Santa Clara", repeat "a"%char (S i),
                           py "At Large", py "Full", 1%Z)) (seq 0 n))
    as cdata eqn:D.
  assert (L : @length (str * str * str * str * str * Z) cdata = n).
  { rewrite D, length_map. apply length_seq. }
  destruct cdata as [|c0 rest] eqn:D2; [cbn in L; lia|]. cbv iota.
  rewrite <- D2 in *.
  rewrite L, (set_levels_ids n Hn). cbn [rbind].
  assert (K : map office_key_of cdata
              = map (fun i => (py "County", py "Santa Clara", repeat "a"%char (S i),
                               py "At Large")) (seq 0 n)).
  { rewrite D, map_map. reflexivity. }
  rewrite K.
  assert (O : office_ids
                (map (fun i => (py "County", py "Santa Clara", repeat "a"%char (S i),
                                py "At Large")) (seq 0 n))
              = level_ids n).
  { unfold office_ids. rewrite factorize_offices. reflexivity. }
  f_equal. f_equal; [f_equal|].
  - rewrite O, D. unfold level_ids, range. rewrite combine_same, map2_same.
    reflexivity.
  - rewrite OfficeFacts.office_table_eq. unfold OfficeSpec.distinct_keys.
    rewrite factorize_offices. cbn [snd]. rewrite length_map, length_seq.
    unfold level_ids, range. rewrite map2_same. reflexivity.
  - rewrite map_map. apply map_ext_in. intros i Hi. apply in_seq in Hi.
    unfold mark. cbn [l_cvr_id l_contest l_candidate l_rank].
    change vote_for_one with (" "%char :: py "(Vote For=1)").
    rewrite (relevel_frame " " (py "(Vote For=1)") n i) by lia. reflexivity.
Qed.

Lemma split_label (k : nat) :
  split_on ";" (numbered (";"%char :: []) k) = [repeat "a"%char k; []].
Proof.
  unfold numbered. rewrite WriteInFacts.split_on_first; [reflexivity|].
  apply count_occ_not_In. intros H. apply repeat_spec in H. discriminate H.
Qed.

Lemma split_candidate_frame (n : nat) :
  (Z.of_nat n <= 65536)%Z ->
  split_candidate (long2 n) = Ok (candidate_rows n, long3 n).
Proof.
  intros Hn. unfold split_candidate, long2. rewrite map_map. cbn [l_candidate].
  change (py ";") with (";"%char :: []).
  rewrite (levels_frame ";" [] n) by (change (nat_of_ascii ";") with 59; lia).
  rewrite map_map.
  rewrite (map_ext (fun i => split_on ";" (numbered (";"%char :: []) (S i)))
                   (fun i => [repeat "a"%char (S i); []]))
    by (intros i; apply split_label).
  match goal with
  | |- context [forallb ?f ?l] => assert (F : forallb f l = true)
  end.
  { apply forallb_forall. intros parts H. apply in_map_iff in H.
    destruct H as (i & <- & _). reflexivity. }
  rewrite F, !length_map, length_seq, (set_levels_ids n Hn). cbn [rbind].
  f_equal. f_equal.
  - unfold level_ids, range. rewrite map2_same. reflexivity.
  - rewrite map_map. apply map_ext_in. intros i Hi. apply in_seq in Hi.
    cbn [l_cvr_id l_contest l_candidate l_rank].
    rewrite (relevel_frame ";" [] n i) by lia. reflexivity.
Qed.

(** Every code below the number of distinct values is the code of a
    value. *)
Lemma code_is_used (keys : list office_key) (c : nat) (k : office_key) :
  nth_error (OfficeSpec.distinct_keys keys) c = Some k ->
  In (int16 (Z.of_nat c)) (office_ids keys).
Proof.
  intros Hk.
  destruct (FactorizeFacts.factorize_from_uniques key_eqb key_eqb_eq keys []
              (NoDup_nil _)) as [N I].
  assert (Hin : In k keys).
  { assert (H : In k (snd (factorize_from key_eqb [] keys)))
      by (eapply nth_error_In; exact Hk).
    apply I in H. destruct H as [[]|H]. exact H. }
  apply In_nth_error in Hin. destruct Hin as [i Hi].
  assert (Hl : i < length (office_ids keys)).
  { rewrite length_office_ids. apply nth_error_Some. congruence. }
  destruct (LevelFacts.nth_error_exists _ _ Hl) as [o Ho].
  destruct (OfficeFacts.office_id_code keys i k o Hi Ho) as (c' & _ & Hc' & ->).
  assert (c' = c).
  { pose proof (index_of_place key_eqb key_eqb_eq _ c k N Hk) as P.
    unfold OfficeSpec.distinct_keys, factorize in Hc'. congruence. }
  subst c'. eapply nth_error_In. exact Ho.
Qed.

(** The office ids of the Contest table are those of the standardized
    contests. *)
Lemma contest_offices (contest_data : list (str * str * str * str * str * Z)) :
  map office_id
      (map2 contest_row (level_ids (length contest_data))
            (combine contest_data (office_ids (map office_key_of contest_data))))
  = office_ids (map office_key_of contest_data).
Proof.
  unfold map2. rewrite map_map.
  assert (E : forall p : Z * ((str * str * str * str * str * Z) * Z),
             office_id (contest_row (fst p) (snd p)) = snd (snd p)).
  { intros [i [[[[[[l j] o] d] t] v] oid]]. reflexivity. }
  rewrite (map_ext _ _ E).
  rewrite <- (map_map snd snd), TableFacts.snd_combine.
  - apply TableFacts.snd_combine.
    rewrite length_office_ids, length_map. reflexivity.
  - rewrite length_level_ids, length_combine, length_office_ids, length_map.
    lia.
Qed.

(** Of two names the shorter one comes first. *)
Lemma numbered_lt (c : ascii) (rest : str) : forall i j,
  nat_of_ascii c < 97 -> i < j ->
  str_lt (numbered (c :: rest) i) (numbered (c :: rest) j).
Proof.
  unfold str_lt, str_ltb, numbered.
  induction i as [|i IH]; intros [|j] Hc H; try lia; cbn [repeat app str_compare].
  - change (nat_of_ascii "a") with 97.
    apply Nat.compare_lt_iff in Hc. rewrite Hc. reflexivity.
  - rewrite Nat.compare_refl. apply IH; [exact Hc|lia].
Qed.

End ManyFacts.

(** C6 (counterexample).  With 32769 contests, each with an office and a
    candidate of its own, the ids are not 0 to 32768: they are stored as
    [np.int16], and the contest, the office and the candidate of the last
    ballot, whose descriptions are the last ones in the order of strings
    and whose office is met last, get the id -32768, the smallest of
    all. *)
Lemma C6_ids_beyond_int16 :
  Scc.split_contest [TermSpec.county_office] (ManySpec.frame ManySpec.many)
  = Ok (ManySpec.contest_rows ManySpec.many, ManySpec.office_rows ManySpec.many,
        ManySpec.long2 ManySpec.many)
  /\ Scc.split_candidate (ManySpec.long2 ManySpec.many)
     = Ok (ManySpec.candidate_rows ManySpec.many, ManySpec.long3 ManySpec.many)
  /\ In (Scc.MkLong 0%Z (ManySpec.numbered ManySpec.vote_for_one 1)
                    (ManySpec.numbered (py ";") 1) 1%Z)
        (ManySpec.frame ManySpec.many)
  /\ In (Scc.MkLong 32768%Z (ManySpec.numbered ManySpec.vote_for_one ManySpec.many)
                    (ManySpec.numbered (py ";") ManySpec.many) 1%Z)
        (ManySpec.frame ManySpec.many)
  /\ LevelSpec.str_lt (ManySpec.numbered ManySpec.vote_for_one 1)
                      (ManySpec.numbered ManySpec.vote_for_one ManySpec.many)
  /\ LevelSpec.str_lt (ManySpec.numbered (py ";") 1)
                      (ManySpec.numbered (py ";") ManySpec.many)
  /\ In (Scc.MkLong 0%Z 0%Z 0%Z 1%Z) (ManySpec.long3 ManySpec.many)
  /\ In (Scc.MkLong 32768%Z (-32768)%Z (-32768)%Z 1%Z) (ManySpec.long3 ManySpec.many)
  /\ In (Scc.MkContestRow 0%Z (py "Full") 1%Z false 0%Z)
        (ManySpec.contest_rows ManySpec.many)
  /\ In (Scc.MkContestRow (-32768)%Z (py "Full") 1%Z false (-32768)%Z)
        (ManySpec.contest_rows ManySpec.many)
  /\ In (Scc.MkOfficeRow (-32768)%Z (py "County") (py "Santa Clara")
                         (repeat "a"%char ManySpec.many) (py "At Large"))
        (ManySpec.office_rows ManySpec.many)
  /\ In (Scc.MkCandidateRow (-32768)%Z (Some (repeat "a"%char ManySpec.many)) None)
        (ManySpec.candidate_rows ManySpec.many).
Proof.
  assert (E : ManySpec.many = S (Z.to_nat 32768)) by (unfold ManySpec.many; lia).
  assert (B : (Z.of_nat ManySpec.many <= 65536)%Z) by (unfold ManySpec.many; lia).
  assert (I0 : In 0 (seq 0 ManySpec.many)) by (apply in_seq; lia).
  assert (I1 : In (Z.to_nat 32768) (seq 0 ManySpec.many)) by (apply in_seq; lia).
  assert (Z1 : Z.of_nat (Z.to_nat 32768) = 32768%Z) by lia.
  assert (W : int16 32768 = (-32768)%Z) by reflexivity.
  split; [apply ManyFacts.split_contest_frame; [lia|exact B]|].
  split; [apply ManyFacts.split_candidate_frame; exact B|].
  split; [apply in_map_iff; exists 0; split; [reflexivity|exact I0]|].
  split.
  { apply in_map_iff. exists (Z.to_nat 32768). split; [|exact I1].
    unfold ManySpec.mark. rewrite Z1, <- E. reflexivity. }
  split; [apply ManyFacts.numbered_lt;
          [change (nat_of_ascii " ") with 32; lia|lia]|].
  split; [apply ManyFacts.numbered_lt;
          [change (nat_of_ascii ";") with 59; lia|lia]|].
  split; [apply in_map_iff; exists 0; split; [reflexivity|exact I0]|].
  split.
  { apply in_map_iff. exists (Z.to_nat 32768). split; [|exact I1].
    rewrite Z1, W. reflexivity. }
  split; [apply in_map_iff; exists 0; split; [reflexivity|exact I0]|].
  split.
  { apply in_map_iff. exists (Z.to_nat 32768). split; [|exact I1].
    rewrite Z1, W. reflexivity. }
  split.
  { apply in_map_iff. exists (Z.to_nat 32768). split; [|exact I1].
    rewrite Z1, W, <- E. reflexivity. }
  apply in_map_iff. exists (Z.to_nat 32768). split; [|exact I1].
  rewrite Z1, W, <- E. reflexivity.
Qed.

(** C6 (amended).  The ids are stored as [np.int16], and up to 32768
    offices, contests and candidates the two policies are these.  Office
    ids group the contests by (level, jurisdiction, office, district),
    two contests having the same id exactly when they have the same
    tuple; they are given in the order in which the tuples are first met
    in the sequence of the contests, and they are 0, 1, 2, ... without a
    gap.  In the wide-spreadsheet path that sequence is the one of the
    sorted contest descriptions.  Contest ids and candidate ids of the
    wide-spreadsheet path are 0, 1, 2, ..., one for each distinct
    description of the long frame, in the sorted order of these
    descriptions and not in the order they are first met: in the frame
    [LevelSpec.long_frame] the contest met first has the id 1. *)
Theorem C6_id_policies :
  (forall keys : list office_key,
      (Z.of_nat (length keys) <= 32768)%Z ->
      (forall i j k1 k2 o1 o2,
          nth_error keys i = Some k1 -> nth_error keys j = Some k2 ->
          nth_error (Scc.office_ids keys) i = Some o1 ->
          nth_error (Scc.office_ids keys) j = Some o2 ->
          (o1 = o2 <-> k1 = k2)
          /\ (i < j ->
              (forall n, n < i -> nth_error keys n <> Some k1) ->
              (forall n, n < j -> nth_error keys n <> Some k2) ->
              (o1 < o2)%Z))
      /\ map Scc.o_office_id (Scc.office_table keys (Scc.office_ids keys))
         = map Z.of_nat (seq 0 (length (OfficeSpec.distinct_keys keys)))
      /\ forall o, In o (Scc.office_ids keys)
                   <-> In o (map Scc.o_office_id
                                 (Scc.office_table keys (Scc.office_ids keys))))
  /\ (forall ts df dc dof l2,
         Scc.split_contest ts df = Ok (dc, dof, l2) ->
         (Z.of_nat (length dc) <= 32768)%Z ->
         length dc = length (levels (map (@Scc.l_contest _ _) df))
         /\ map Scc.contest_id dc = map Z.of_nat (seq 0 (length dc))
         /\ l2 = map (fun m => Scc.MkLong (Scc.l_cvr_id m)
                                 (LevelSpec.contest_id_of df (Scc.l_contest m))
                                 (Scc.l_candidate m) (Scc.l_rank m)) df
         /\ (forall m1 m2, In m1 df -> In m2 df ->
               (LevelSpec.contest_id_of df (Scc.l_contest m1)
                < LevelSpec.contest_id_of df (Scc.l_contest m2))%Z
               <-> LevelSpec.str_lt (Scc.l_contest m1) (Scc.l_contest m2))
         /\ exists contest_data,
              map_result (SccText.standardize ts)
                         (levels (map (@Scc.l_contest _ _) df)) = Ok contest_data
              /\ map Scc.office_id dc
                 = Scc.office_ids (map Scc.office_key_of contest_data)
              /\ dof = Scc.office_table (map Scc.office_key_of contest_data)
                         (Scc.office_ids (map Scc.office_key_of contest_data)))
  /\ (forall (df : list (Scc.Long Z str)) dn l3,
         Scc.split_candidate df = Ok (dn, l3) ->
         (Z.of_nat (length dn) <= 32768)%Z ->
         length dn = length (levels (map (@Scc.l_candidate _ _) df))
         /\ map Scc.candidate_id dn = map Z.of_nat (seq 0 (length dn))
         /\ l3 = map (fun m => Scc.MkLong (Scc.l_cvr_id m) (Scc.l_contest m)
                                 (LevelSpec.candidate_id_of df (Scc.l_candidate m))
                                 (Scc.l_rank m)) df
         /\ (forall m1 m2, In m1 df -> In m2 df ->
               (LevelSpec.candidate_id_of df (Scc.l_candidate m1)
                < LevelSpec.candidate_id_of df (Scc.l_candidate m2))%Z
               <-> LevelSpec.str_lt (Scc.l_candidate m1) (Scc.l_candidate m2)))
  /\ (map (@Scc.l_contest _ _) LevelSpec.long_frame
      = [py "Mayor (Vote For=1)"; py "Auditor, Short Term (Vote For=2)"]
      /\ LevelSpec.contest_id_of LevelSpec.long_frame (py "Mayor (Vote For=1)") = 1%Z
      /\ LevelSpec.contest_id_of LevelSpec.long_frame
           (py "Auditor, Short Term (Vote For=2)") = 0%Z).
Proof.
  split; [|split; [|split]].
  - intros keys Hn. split; [|split].
    + intros i j k1 k2 o1 o2 Hk1 Hk2 Ho1 Ho2.
      destruct (OfficeFacts.office_id_code keys i k1 o1 Hk1 Ho1)
        as (c1 & Hd1 & Hc1 & ->).
      destruct (OfficeFacts.office_id_code keys j k2 o2 Hk2 Ho2)
        as (c2 & Hd2 & Hc2 & ->).
      rewrite (OfficeFacts.small_code keys k1 c1 Hn Hc1).
      rewrite (OfficeFacts.small_code keys k2 c2 Hn Hc2).
      split.
      * split.
        -- intros H. apply Nat2Z.inj in H. subst c2.
           apply (PandasFacts.index_of_bound Scc.key_eqb PandasFacts.key_eqb_eq)
             in Hc1, Hc2.
           destruct Hc1 as [_ Hc1]. destruct Hc2 as [_ Hc2]. congruence.
        -- intros <-. congruence.
      * intros Hij F1 F2. apply Nat2Z.inj_lt.
        apply (FactorizeOrder.first_seen_from Scc.key_eqb PandasFacts.key_eqb_eq
                 keys [] i j k1 k2 c1 c2); auto.
    + rewrite OfficeFacts.office_table_eq.
      rewrite (ListFacts.map2_snd _ Scc.o_office_id (fun o : Z => o)).
      * rewrite map_id. apply LevelFacts.level_ids_small.
        pose proof (OfficeFacts.distinct_keys_count keys). lia.
      * intros k o. apply OfficeFacts.office_row_id.
      * rewrite SplitFacts.length_level_ids. apply Nat.le_refl.
    + intros o. split.
      * apply PandasFacts.office_id_resolves.
      * intros H. apply in_map_iff in H. destruct H as (r & <- & Hr).
        apply In_nth_error in Hr. destruct Hr as [c Hr].
        apply OfficeFacts.office_table_nth in Hr. destruct Hr as (k & Hk & ->).
        rewrite OfficeFacts.office_row_id.
        exact (ManyFacts.code_is_used keys c k Hk).
  - intros ts df dc dof l2 H Hn. apply SplitFacts.split_contest_inv in H.
    destruct H as (cd & Hcd & -> & -> & ->).
    pose proof (LevelFacts.contest_data_length _ _ _ Hcd) as L.
    rewrite LevelFacts.length_contest_table in *.
    split; [exact L|]. split; [|split; [|split]].
    + rewrite SplitFacts.contest_ids. apply LevelFacts.level_ids_small. exact Hn.
    + unfold LevelSpec.contest_id_of. rewrite L. reflexivity.
    + intros m1 m2 H1 H2. unfold LevelSpec.contest_id_of.
      apply LevelFacts.relevel_order.
      * rewrite <- L. exact Hn.
      * apply in_map. exact H1.
      * apply in_map. exact H2.
    + exists cd. split; [exact Hcd|]. split; [|reflexivity].
      apply ManyFacts.contest_offices.
  - intros df dn l3 H Hn. apply SplitFacts.split_candidate_inv in H.
    destruct H as (_ & -> & ->).
    rewrite ListFacts.length_map2, SplitFacts.length_level_ids, length_map,
      Nat.min_id in *.
    split; [reflexivity|]. split; [|split].
    + rewrite SplitFacts.candidate_ids. apply LevelFacts.level_ids_small. exact Hn.
    + reflexivity.
    + intros m1 m2 H1 H2. apply LevelFacts.relevel_order.
      * exact Hn.
      * apply in_map. exact H1.
      * apply in_map. exact H2.
  - split; [reflexivity|]. split; vm_compute; reflexivity.
Qed.

Lemma C6_id_policies_witness :
  map Scc.o_office_id
      (Scc.office_table OfficeSpec.three_contests
                        (Scc.office_ids OfficeSpec.three_contests))
  = map Z.of_nat (seq 0 (length (OfficeSpec.distinct_keys OfficeSpec.three_contests)))
  /\ Scc.office_ids OfficeSpec.three_contests = [0%Z; 1%Z; 0%Z]
  /\ map Scc.contest_id (fst (fst LevelSpec.contest_split))
     = map Z.of_nat (seq 0 (length (fst (fst LevelSpec.contest_split))))
  /\ map Scc.candidate_id (fst LevelSpec.candidate_split)
     = map Z.of_nat (seq 0 (length (fst LevelSpec.candidate_split))).
Proof.
  destruct C6_id_policies as (Hoff & Hcon & Hcand & _).
  split; [|split; [reflexivity|split]].
  - destruct (Hoff OfficeSpec.three_contests) as (_ & D & _); [|exact D].
    vm_compute. discriminate.
  - destruct (Hcon [TermSpec.county_office] LevelSpec.long_frame
                (fst (fst LevelSpec.contest_split))
                (snd (fst LevelSpec.contest_split)) (snd LevelSpec.contest_split))
      as (_ & D & _); [| |exact D].
    + vm_compute. reflexivity.
    + vm_compute. discriminate.
  - destruct (Hcand (snd LevelSpec.contest_split) (fst LevelSpec.candidate_split)
                 (snd LevelSpec.candidate_split))
      as (_ & D & _); [| |exact D].
    + vm_compute. reflexivity.
    + vm_compute. discriminate.
Defined.
